(** * gospecify: template substitution, file layout and progress tracking

    A shallow embedding of the core of the gospecify CLI
    (jsburckhardt/spec-kit, directory src/gospecify):

    - the pieces of Go's [strings] and [path/filepath] packages the code
      calls, on byte strings;
    - [internal/config]: the assistant registry, the script types and the
      [StepTracker];
    - [internal/templates]: the load of the embedded tree and the
      [Processor];
    - [internal/scripts]: the [Generator] and the script-type helpers of
      the executor;
    - [internal/github]: the search of a release for the template asset;
    - [cmd/init.go]: argument validation, the selection of assistant and
      script type, directory preparation, the writing of templates and
      scripts, the git step, and [runInit], which chains them over an
      explicit file system and step tracker.

    Go strings are byte sequences; they are modelled by [string], whose
    characters are the 256 values of [ascii]. *)

From Stdlib Require Import Ascii String List Bool Arith ZArith Lia Permutation.
From stdpp Require Import base option gmap strings.

Import ListNotations.
Set Warnings "-register-all".
Local Open Scope string_scope.
Local Open Scope list_scope.

(** ** Package strings *)

Module strings.

(** [strings.HasPrefix(s, prefix)]. *)
Definition HasPrefix (s prefix : string) : bool := String.prefix prefix s.

(** [strings.Contains(s, substr)]: some suffix of [s] starts with
    [substr]. *)
Fixpoint Contains (s substr : string) : bool :=
  match s with
  | EmptyString => HasPrefix s substr
  | String _ rest => HasPrefix s substr || Contains rest substr
  end.

(** The scanning loop of [strings.ReplaceAll] for a non-empty [old]:
    matches are taken leftmost first and do not overlap. [skip] counts
    the bytes of the current match that are still to be dropped. *)
Fixpoint replaceFrom (old new : string) (skip : nat) (s : string) : string :=
  match s with
  | EmptyString => EmptyString
  | String c rest =>
      match skip with
      | S k => replaceFrom old new k rest
      | O =>
          if HasPrefix s old
          then new +:+ replaceFrom old new (String.length old - 1) rest
          else String c (replaceFrom old new 0 rest)
      end
  end.

(** [strings.ReplaceAll(s, old, new)]. Every call site of the program
    passes a non-empty literal for [old]; with an empty [old] Go inserts
    [new] around every rune, which no call site needs, and the text is
    returned as it is. *)
Definition ReplaceAll (s old new : string) : string :=
  match old with
  | EmptyString => s
  | String _ _ => replaceFrom old new 0 s
  end.

(** [strings.TrimPrefix(s, prefix)]. *)
Fixpoint dropBytes (n : nat) (s : string) : string :=
  match n, s with
  | S k, String _ rest => dropBytes k rest
  | _, _ => s
  end.

Definition TrimPrefix (s prefix : string) : string :=
  if HasPrefix s prefix then dropBytes (String.length prefix) s else s.

(** [strings.Split(s, sep)] for the one-byte separator [sep]: the result
    always has one more element than [s] has separators. *)
Fixpoint SplitByte (sep : ascii) (s : string) : list string :=
  match s with
  | EmptyString => [EmptyString]
  | String c rest =>
      if Ascii.eqb c sep then EmptyString :: SplitByte sep rest
      else match SplitByte sep rest with
           | field :: fields => String c field :: fields
           | [] => [String c EmptyString]
           end
  end.

(** [strings.Join(elems, sep)]. *)
Fixpoint Join (elems : list string) (sep : string) : string :=
  match elems with
  | [] => EmptyString
  | [e] => e
  | e :: rest => e +:+ sep +:+ Join rest sep
  end.

(** [strings.HasSuffix(s, suffix)]. *)
Definition HasSuffix (s suffix : string) : bool :=
  Nat.leb (String.length suffix) (String.length s)
  && String.eqb (dropBytes (String.length s - String.length suffix) s) suffix.

End strings.

(** The line feed, and the one-byte separator of the line loops. *)
Definition LF : ascii := "010"%char.
Definition newline : string := String LF EmptyString.

(** The double quote, and the triple quote of a TOML multi-line string. *)
Definition DQ : ascii := "034"%char.
Definition tripleQuote : string := String DQ (String DQ (String DQ EmptyString)).

(** ** Package errors (pkg/errors/types.go) *)

Module errors.

(** A Go [error] value: either a gospecify [*Error] with its code,
    message and optional cause, or a plain error made by [fmt.Errorf]
    or returned by the operating system. *)
Inductive error : Type :=
| Plain (msg : string)
| Coded (Code Message : string) (Cause : option error).

Definition ErrCodeInvalidConfig : string := "INVALID_CONFIG".
Definition ErrCodeGitError : string := "GIT_ERROR".
Definition ErrCodeTemplateError : string := "TEMPLATE_ERROR".
Definition ErrCodeScriptError : string := "SCRIPT_ERROR".
Definition ErrCodeValidationError : string := "VALIDATION_ERROR".
Definition ErrCodeFileSystemError : string := "FILESYSTEM_ERROR".
Definition ErrCodeAssetNotFound : string := "ASSET_NOT_FOUND".
Definition ErrCodeToolNotFound : string := "TOOL_NOT_FOUND".

Definition New (code message : string) : error := Coded code message None.

Definition Wrap (code message : string) (cause : error) : error :=
  Coded code message (Some cause).

Definition NewValidationError (message : string) : error :=
  New ErrCodeValidationError message.

Definition NewAssetNotFound (assetName : string) : error :=
  New ErrCodeAssetNotFound ("asset not found: " +:+ assetName).

Definition NewToolNotFound (toolName : string) : error :=
  New ErrCodeToolNotFound ("required tool not found: " +:+ toolName).

(** The code of an error, when it has one. *)
Definition codeOf (e : error) : option string :=
  match e with
  | Plain _ => None
  | Coded c _ _ => Some c
  end.

End errors.

(** ** Package config *)

Module config.

Definition ScriptTypeBash : string := "sh".
Definition ScriptTypePowerShell : string := "ps".

Inductive FileFormat : Type :=
| FormatMarkdown
| FormatTOML
| FormatPrompt
| FormatOther (name : string).

Record AIAssistant : Type := {
  Key : string;
  Name : string;
  Directory : string;
  Format : FileFormat;
  CLITool : string;
  ArgFormat : string;
  IsIDEBased : bool;
  Website : string
}.

Definition copilot : AIAssistant :=
  {| Key := "copilot"; Name := "GitHub Copilot";
     Directory := ".github/prompts/"; Format := FormatPrompt;
     CLITool := EmptyString; ArgFormat := "$ARGUMENTS"; IsIDEBased := true;
     Website := "https://github.com/features/copilot" |}.

Definition claude : AIAssistant :=
  {| Key := "claude"; Name := "Claude Code";
     Directory := ".claude/commands/"; Format := FormatMarkdown;
     CLITool := "claude"; ArgFormat := "$ARGUMENTS"; IsIDEBased := false;
     Website := "https://docs.anthropic.com/en/docs/claude-code/setup" |}.

Definition gemini : AIAssistant :=
  {| Key := "gemini"; Name := "Gemini CLI";
     Directory := ".gemini/commands/"; Format := FormatTOML;
     CLITool := "gemini"; ArgFormat := "{{args}}"; IsIDEBased := false;
     Website := "https://github.com/google-gemini/gemini-cli" |}.

Definition cursor : AIAssistant :=
  {| Key := "cursor"; Name := "Cursor";
     Directory := ".cursor/commands/"; Format := FormatMarkdown;
     CLITool := "cursor-agent"; ArgFormat := "$ARGUMENTS"; IsIDEBased := false;
     Website := "https://cursor.sh/" |}.

Definition qwen : AIAssistant :=
  {| Key := "qwen"; Name := "Qwen Code";
     Directory := ".qwen/commands/"; Format := FormatTOML;
     CLITool := "qwen"; ArgFormat := "{{args}}"; IsIDEBased := false;
     Website := "https://github.com/QwenLM/Qwen2.5-Coder" |}.

Definition opencode : AIAssistant :=
  {| Key := "opencode"; Name := "opencode";
     Directory := ".opencode/command/"; Format := FormatMarkdown;
     CLITool := "opencode"; ArgFormat := "$ARGUMENTS"; IsIDEBased := false;
     Website := "https://opencode.ai" |}.

Definition codex : AIAssistant :=
  {| Key := "codex"; Name := "Codex CLI";
     Directory := ".codex/"; Format := FormatMarkdown;
     CLITool := "codex"; ArgFormat := "$ARGUMENTS"; IsIDEBased := false;
     Website := "https://github.com/microsoft/codex-cli" |}.

Definition windsurf : AIAssistant :=
  {| Key := "windsurf"; Name := "Windsurf";
     Directory := ".windsurf/workflows/"; Format := FormatMarkdown;
     CLITool := EmptyString; ArgFormat := "$ARGUMENTS"; IsIDEBased := true;
     Website := "https://codeium.com/windsurf" |}.

Definition kilocode : AIAssistant :=
  {| Key := "kilocode"; Name := "Kilo Code";
     Directory := ".kilocode/"; Format := FormatMarkdown;
     CLITool := "kilocode"; ArgFormat := "$ARGUMENTS"; IsIDEBased := false;
     Website := "https://kilocode.com/" |}.

Definition auggie : AIAssistant :=
  {| Key := "auggie"; Name := "Auggie CLI";
     Directory := ".augment/"; Format := FormatMarkdown;
     CLITool := "auggie"; ArgFormat := "$ARGUMENTS"; IsIDEBased := false;
     Website := "https://augmentcode.com/" |}.

Definition roo : AIAssistant :=
  {| Key := "roo"; Name := "Roo Code";
     Directory := ".roo/"; Format := FormatMarkdown;
     CLITool := "roo"; ArgFormat := "$ARGUMENTS"; IsIDEBased := false;
     Website := "https://roocode.com/" |}.

(** The registry [AIAssistants], as the list of its values; each one is
    stored under its own [Key]. *)
Definition registry : list AIAssistant :=
  [copilot; claude; gemini; cursor; qwen; opencode; codex; windsurf;
   kilocode; auggie; roo].

Definition AIAssistants : gmap string AIAssistant :=
  list_to_map (map (fun a => (Key a, a)) registry).

Record ScriptType : Type := {
  stKey : string;
  stName : string;
  Extension : string;
  Platform : string
}.

Definition ScriptTypes : gmap string ScriptType :=
  list_to_map
    [("sh", {| stKey := "sh"; stName := "POSIX Shell (bash/zsh)";
               Extension := ".sh"; Platform := "unix" |});
     ("ps", {| stKey := "ps"; stName := "PowerShell";
               Extension := ".ps1"; Platform := "windows" |})].

(** [AIChoices]: the display name of every assistant key. *)
Definition AIChoices : gmap string string :=
  list_to_map
    [ ("copilot", "GitHub Copilot"); ("claude", "Claude Code");
      ("gemini", "Gemini CLI"); ("cursor", "Cursor"); ("qwen", "Qwen Code");
      ("opencode", "opencode"); ("codex", "Codex CLI"); ("windsurf", "Windsurf");
      ("kilocode", "Kilo Code"); ("auggie", "Auggie CLI"); ("roo", "Roo Code") ].

(** The zero value of [AIAssistant], which a lookup of a missing key
    returns. *)
Definition zeroAssistant : AIAssistant :=
  {| Key := EmptyString; Name := EmptyString; Directory := EmptyString;
     Format := FormatOther EmptyString; CLITool := EmptyString;
     ArgFormat := EmptyString; IsIDEBased := false; Website := EmptyString |}.

End config.

(** ** Package templates (embedded.go and the processor) *)

Module templates.
Import strings.

(** [EmbeddedAssets]: two Go maps from a slash-separated relative path
    to the bytes of the asset. *)
Record EmbeddedAssets : Type := {
  Templates : gmap string string;
  Scripts : gmap string string
}.

Definition GetTemplate (ea : EmbeddedAssets) (name : string) : option string :=
  Templates ea !! name.

Definition GetScript (ea : EmbeddedAssets) (name : string) : option string :=
  Scripts ea !! name.

(** The four keys of the [replacements] map of
    [Processor.applyReplacements]. *)
Inductive Placeholder : Type :=
| AGENT
| ARGUMENTS
| ARGS
| SCRIPT.

Definition token (p : Placeholder) : string :=
  match p with
  | AGENT => "__AGENT__"
  | ARGUMENTS => "$ARGUMENTS"
  | ARGS => "{{args}}"
  | SCRIPT => "{SCRIPT}"
  end.

#[global] Instance Placeholder_eq_dec : EqDecision Placeholder.
Proof. solve_decision. Defined.

Definition placeholders : list Placeholder := [AGENT; ARGUMENTS; ARGS; SCRIPT].

(** Go leaves the iteration order of a map unspecified: a [range] over
    the four-entry map visits every key once, in some order. *)
Definition IterationOrder (order : list Placeholder) : Prop :=
  Permutation order placeholders.

Record Processor : Type := {
  assets : EmbeddedAssets;
  assistant : config.AIAssistant;
  scriptType : string
}.

Definition NewProcessor (ea : EmbeddedAssets) (a : config.AIAssistant)
    (st : string) : Processor :=
  {| assets := ea; assistant := a; scriptType := st |}.

(** The value stored under each key of the [replacements] map. *)
Definition replacement (p : Processor) (k : Placeholder) : string :=
  match k with
  | AGENT => config.Key (assistant p)
  | ARGUMENTS => config.ArgFormat (assistant p)
  | ARGS => config.ArgFormat (assistant p)
  | SCRIPT => EmptyString
  end.

(** The loop of [applyReplacements], for the order in which the map
    happens to be visited. *)
Fixpoint replaceEach (p : Processor) (order : list Placeholder)
    (content : string) : string :=
  match order with
  | [] => content
  | k :: rest => replaceEach p rest (ReplaceAll content (token k) (replacement p k))
  end.

Definition applyReplacements (p : Processor) (order : list Placeholder)
    (content : string) : string :=
  replaceEach p order content.

Definition getScriptName (p : Processor) : string :=
  if String.eqb (scriptType p) config.ScriptTypeBash then "setup.sh"
  else if String.eqb (scriptType p) config.ScriptTypePowerShell then "setup.ps1"
  else "setup.sh".

Definition getScriptPath (p : Processor) : string :=
  ".specify/scripts/" +:+ getScriptName p.

Definition processMarkdownTemplate (p : Processor) (content : string) : string :=
  let lines := SplitByte LF content in
  let processed :=
    map (fun line =>
           if Contains line "{SCRIPT}"
           then ReplaceAll line "{SCRIPT}" (getScriptPath p)
           else line) lines in
  Join processed newline.

(** The marker that opens a prompt block: [prompt = ] and a triple
    quote. *)
Definition promptOpen : string := "prompt = " +:+ tripleQuote.

(** The line loop of [processTOMLTemplate]; [inPrompt] is the flag
    carried from one line to the next. *)
Fixpoint tomlLines (p : Processor) (inPrompt : bool) (lines : list string)
    : list string :=
  match lines with
  | [] => []
  | line :: rest =>
      let inPrompt' :=
        if Contains line promptOpen then true
        else if inPrompt && Contains line tripleQuote then false
        else inPrompt in
      let line' :=
        if inPrompt'
        then ReplaceAll
               (ReplaceAll line "$ARGUMENTS" (config.ArgFormat (assistant p)))
               "{{args}}" (config.ArgFormat (assistant p))
        else line in
      line' :: tomlLines p inPrompt' rest
  end.

Definition processTOMLTemplate (p : Processor) (content : string) : string :=
  Join (tomlLines p false (SplitByte LF content)) newline.

Definition processPromptTemplate (p : Processor) (content : string) : string :=
  ReplaceAll content "{SCRIPT}" (getScriptPath p).

(** The part of [ProcessTemplate] after the lookup: the common
    replacements, then the pass of the assistant's format. *)
Definition processContent (p : Processor) (order : list Placeholder)
    (template : string) : string :=
  let content := applyReplacements p order template in
  match config.Format (assistant p) with
  | config.FormatMarkdown => processMarkdownTemplate p content
  | config.FormatTOML => processTOMLTemplate p content
  | config.FormatPrompt => processPromptTemplate p content
  | config.FormatOther _ => content
  end.

Definition ProcessTemplate (p : Processor) (order : list Placeholder)
    (templateName : string) : errors.error + string :=
  match GetTemplate (assets p) templateName with
  | None => inl (errors.NewAssetNotFound ("template " +:+ templateName))
  | Some template => inr (processContent p order template)
  end.

(** The test that a run succeeded with the bytes [expected]. *)
Definition result_eqb (r : errors.error + string) (expected : string) : bool :=
  match r with
  | inr out => String.eqb out expected
  | inl _ => false
  end.

End templates.

(** ** Package scripts (the generator) *)

Module scripts.
Import strings.

(** The two keys of the [replacements] map of
    [Generator.applyReplacements]. *)
Inductive Placeholder : Type :=
| AGENT
| SCRIPT.

Definition token (k : Placeholder) : string :=
  match k with
  | AGENT => "__AGENT__"
  | SCRIPT => "{SCRIPT}"
  end.

Definition placeholders : list Placeholder := [AGENT; SCRIPT].

Definition IterationOrder (order : list Placeholder) : Prop :=
  Permutation order placeholders.

Record Generator : Type := {
  assets : templates.EmbeddedAssets;
  assistant : config.AIAssistant;
  scriptType : string
}.

Definition NewGenerator (ea : templates.EmbeddedAssets)
    (a : config.AIAssistant) (st : string) : Generator :=
  {| assets := ea; assistant := a; scriptType := st |}.

(** [fmt.Sprintf] with the verbs percent-s, slash, percent-s,
    percent-s: the script type itself is the directory part. *)
Definition getScriptPath (g : Generator) (scriptName : string) : string :=
  let extension :=
    if String.eqb (scriptType g) config.ScriptTypeBash then ".sh"
    else if String.eqb (scriptType g) config.ScriptTypePowerShell then ".ps1"
    else ".sh" in
  scriptType g +:+ "/" +:+ scriptName +:+ extension.

Definition getScriptReference (g : Generator) : string :=
  if String.eqb (scriptType g) config.ScriptTypeBash then "./setup.sh"
  else if String.eqb (scriptType g) config.ScriptTypePowerShell then ".\setup.ps1"
  else "./setup.sh".

Definition replacement (g : Generator) (k : Placeholder) : string :=
  match k with
  | AGENT => config.Key (assistant g)
  | SCRIPT => getScriptReference g
  end.

Fixpoint replaceEach (g : Generator) (order : list Placeholder)
    (content : string) : string :=
  match order with
  | [] => content
  | k :: rest => replaceEach g rest (ReplaceAll content (token k) (replacement g k))
  end.

Definition applyReplacements (g : Generator) (order : list Placeholder)
    (content : string) : string :=
  replaceEach g order content.

Definition GenerateScript (g : Generator) (order : list Placeholder)
    (scriptName : string) : errors.error + string :=
  match templates.GetScript (assets g) (getScriptPath g scriptName) with
  | None => inl (errors.NewAssetNotFound ("script template " +:+ scriptName))
  | Some script => inr (applyReplacements g order script)
  end.

(** The names [GenerateAllScripts] asks for. *)
Definition scriptNames : list string :=
  ["check-prerequisites"; "create-new-feature"; "setup-plan";
   "update-agent-context"].

End scripts.

(** ** Package path/filepath, for slash-separated paths *)

Module filepath.
Import strings.

Definition slash : string := "/".

Definition isEmpty (s : string) : bool :=
  match s with
  | EmptyString => true
  | String _ _ => false
  end.

(** The element loop of [Clean]: [stack] holds the elements kept so
    far, the last one first. An empty element or a dot is dropped; a
    dot-dot removes the element before it, is dropped at the root, and
    is kept at the start of a relative path. *)
Fixpoint cleanElements (rooted : bool) (stack elems : list string) : list string :=
  match elems with
  | [] => rev stack
  | e :: rest =>
      if isEmpty e || String.eqb e "." then cleanElements rooted stack rest
      else if String.eqb e ".." then
        match stack with
        | top :: below =>
            if String.eqb top ".." then cleanElements rooted (e :: stack) rest
            else cleanElements rooted below rest
        | [] =>
            if rooted then cleanElements rooted [] rest
            else cleanElements rooted [e] rest
        end
      else cleanElements rooted (e :: stack) rest
  end.

Definition IsAbs (path : string) : bool := HasPrefix path slash.

Definition Clean (path : string) : string :=
  let rooted := IsAbs path in
  let body := strings.Join (cleanElements rooted [] (SplitByte "/" path)) slash in
  let out := if rooted then slash +:+ body else body in
  if isEmpty out then "." else out.

(** [Join]: the elements from the first non-empty one on, joined by
    slashes and cleaned; the empty string when all are empty. *)
Fixpoint Join (elem : list string) : string :=
  match elem with
  | [] => EmptyString
  | e :: rest =>
      if isEmpty e then Join rest else Clean (strings.Join elem slash)
  end.

(** [Base]: the last element of the path, trailing slashes removed. *)
Definition Base (path : string) : string :=
  if isEmpty path then "."
  else match filter (fun e => negb (isEmpty e)) (rev (SplitByte "/" path)) with
       | e :: _ => e
       | [] => slash
       end.

(** [Dir]: the path up to and including its last slash, cleaned; a
    path without a slash gives the dot. *)
Definition Dir (path : string) : string :=
  match rev (SplitByte "/" path) with
  | _ :: (_ :: _) as front => Clean (strings.Join (rev front) slash +:+ slash)
  | _ => Clean EmptyString
  end.

End filepath.

(** ** internal/config/types.go: the project configuration and the step
    tracker. They belong to package config; they are kept in a module of
    their own because their field names repeat those of the registry. *)

Module configtypes.

(** A [time.Time], counted from the zero instant, which is the value of
    a field that was never set. *)
Definition Time : Type := Z.

Definition IsZero (t : Time) : bool := Z.eqb t 0.

Record ProjectConfig : Type := {
  Name : string;
  Path : string;
  AIAssistant : string;
  ScriptType : string;
  NoGit : bool;
  Force : bool;
  IgnoreTools : bool;
  SkipTLS : bool;
  Debug : bool;
  GitHubToken : string;
  Here : bool;
  CreatedAt : Time
}.

Inductive Status : Type :=
| StatusPending
| StatusRunning
| StatusDone
| StatusError
| StatusSkipped.

Record Step : Type := {
  Key : string;
  Label : string;
  StepStatus : Status;
  Detail : string;
  Started : Time;
  Ended : Time
}.

(** The tracker. Its lock and its refresh callback, which only redraws
    the terminal, are left out. *)
Record StepTracker : Type := {
  Title : string;
  Steps : list Step
}.

Definition isTerminal (status : Status) : bool :=
  match status with
  | StatusDone | StatusError | StatusSkipped => true
  | StatusPending | StatusRunning => false
  end.

Definition isRunning (status : Status) : bool :=
  match status with
  | StatusRunning => true
  | _ => false
  end.

(** The assignments [update] makes to the step it found; [now] is what
    [time.Now] returns during the call. *)
Definition touch (status : Status) (detail : string) (now : Time) (s : Step) : Step :=
  {| Key := Key s;
     Label := Label s;
     StepStatus := status;
     Detail := if filepath.isEmpty detail then Detail s else detail;
     Started := if isRunning status && IsZero (Started s) then now else Started s;
     Ended := if isTerminal status && IsZero (Ended s) then now else Ended s |}.

(** The loop of [update]: the first step with the key is changed;
    [None] when no step has it. *)
Fixpoint updateFirst (key : string) (status : Status) (detail : string)
    (now : Time) (steps : list Step) : option (list Step) :=
  match steps with
  | [] => None
  | s :: rest =>
      if String.eqb (Key s) key then Some (touch status detail now s :: rest)
      else match updateFirst key status detail now rest with
           | Some rest' => Some (s :: rest')
           | None => None
           end
  end.

Definition update (st : StepTracker) (key : string) (status : Status)
    (detail : string) (now : Time) : StepTracker :=
  match updateFirst key status detail now (Steps st) with
  | Some steps => {| Title := Title st; Steps := steps |}
  | None =>
      {| Title := Title st;
         Steps := Steps st ++
                  [ {| Key := key; Label := key; StepStatus := status;
                       Detail := detail; Started := 0%Z; Ended := 0%Z |} ] |}
  end.

Definition Add (st : StepTracker) (key label : string) : StepTracker :=
  if existsb (fun s => String.eqb (Key s) key) (Steps st) then st
  else {| Title := Title st;
          Steps := Steps st ++
                   [ {| Key := key; Label := label; StepStatus := StatusPending;
                        Detail := EmptyString; Started := 0%Z; Ended := 0%Z |} ] |}.

Definition Start (st : StepTracker) (key detail : string) (now : Time) :=
  update st key StatusRunning detail now.

Definition Complete (st : StepTracker) (key detail : string) (now : Time) :=
  update st key StatusDone detail now.

Definition Error (st : StepTracker) (key detail : string) (now : Time) :=
  update st key StatusError detail now.

Definition Skip (st : StepTracker) (key detail : string) (now : Time) :=
  update st key StatusSkipped detail now.

(** One call of a caller of the tracker, with the clock reading taken
    during it. *)
Inductive Operation : Type :=
| OpStart
| OpComplete
| OpError
| OpSkip.

Record Call : Type := {
  operation : Operation;
  callKey : string;
  callDetail : string;
  callTime : Time
}.

Definition statusOf (o : Operation) : Status :=
  match o with
  | OpStart => StatusRunning
  | OpComplete => StatusDone
  | OpError => StatusError
  | OpSkip => StatusSkipped
  end.

Definition perform (st : StepTracker) (c : Call) : StepTracker :=
  match operation c with
  | OpStart => Start st (callKey c) (callDetail c) (callTime c)
  | OpComplete => Complete st (callKey c) (callDetail c) (callTime c)
  | OpError => Error st (callKey c) (callDetail c) (callTime c)
  | OpSkip => Skip st (callKey c) (callDetail c) (callTime c)
  end.

Definition run (calls : list Call) (st : StepTracker) : StepTracker :=
  fold_left perform calls st.

(** The step a key designates: the first one that carries it. *)
Definition hasKey (key : string) (s : Step) : bool := String.eqb (Key s) key.

Definition stepOf (key : string) (st : StepTracker) : option Step :=
  List.find (hasKey key) (Steps st).

(** The clock reading of the first call that moves the step [key] into
    a terminal status; the zero instant when there is none. *)
Fixpoint firstTerminal (key : string) (calls : list Call) : Time :=
  match calls with
  | [] => 0%Z
  | c :: rest =>
      if String.eqb (callKey c) key && isTerminal (statusOf (operation c))
      then callTime c
      else firstTerminal key rest
  end.

End configtypes.

(** ** The operating system, as the commands see it *)

Module os.

(** What the program asked of the outside and got: directories made,
    files written, and the calls of a command's [Run]. An [Exec] entry
    records the call, with the working directory and the arguments of the
    command; whether a process came to run is recorded apart, in
    [started]. *)
Inductive Effect : Type :=
| Mkdir (path : string)
| Write (path content : string)
| Exec (dir : string) (argv : list string).

(** Why the [Run] of a command returns an error: the process could not
    be started (the executable is not on the PATH, the working directory
    is missing), and then nothing ran; or it ran and exited with a
    failure. *)
Inductive RunFailure : Type :=
| NotStarted (cause : errors.error)
| Exited (cause : errors.error).

Definition causeOf (f : RunFailure) : errors.error :=
  match f with
  | NotStarted cause | Exited cause => cause
  end.

Definition hasRun (f : RunFailure) : bool :=
  match f with
  | NotStarted _ => false
  | Exited _ => true
  end.

(** The environment of one invocation. The answers of the system calls
    are functions of their arguments; the outcome of a command may also
    depend on what was done before it. [trace] lists the effects so far,
    the oldest first, [created] the directories made by the program, and
    [started] the commands whose process was started, each with its
    working directory. *)
Record World : Type := {
  cwd : errors.error + string;
  dirEntries : string -> errors.error + list string;
  present : string -> bool;
  mkdirError : string -> option errors.error;
  writeError : string -> option errors.error;
  runError : list Effect -> string -> list string -> option RunFailure;
  created : list string;
  trace : list Effect;
  started : list (string * list string)
}.

Definition record (e : Effect) (made : list string) (w : World) : World :=
  {| cwd := cwd w; dirEntries := dirEntries w; present := present w;
     mkdirError := mkdirError w; writeError := writeError w;
     runError := runError w; created := created w ++ made;
     trace := trace w ++ [e]; started := started w |}.

Definition launch (dir : string) (argv : list string) (w : World) : World :=
  {| cwd := cwd w; dirEntries := dirEntries w; present := present w;
     mkdirError := mkdirError w; writeError := writeError w;
     runError := runError w; created := created w;
     trace := trace w; started := started w ++ [(dir, argv)] |}.

(** [os.Getwd] and [os.ReadDir]. *)
Definition Getwd (w : World) : errors.error + string := cwd w.

Definition ReadDir (w : World) (name : string) : errors.error + list string :=
  dirEntries w name.

(** [os.Stat] returned no error: the path was there before the run or
    was made by it. *)
Definition exists_ (w : World) (path : string) : bool :=
  present w path || existsb (String.eqb path) (created w).

(** [os.MkdirAll] and [os.WriteFile]. *)
Definition MkdirAll (path : string) (w : World) : option errors.error * World :=
  match mkdirError w path with
  | Some err => (Some err, w)
  | None => (None, record (Mkdir path) [path] w)
  end.

Definition WriteFile (path content : string) (w : World)
    : option errors.error * World :=
  match writeError w path with
  | Some err => (Some err, w)
  | None => (None, record (Write path content) [] w)
  end.

(** The [Run] of a command with its working directory. The call is
    always recorded; the process is recorded as started unless the
    failure is that it could not be started. *)
Definition Run (dir : string) (argv : list string) (w : World)
    : option errors.error * World :=
  let called := record (Exec dir argv) [] w in
  match runError w (trace w) dir argv with
  | None => (None, launch dir argv called)
  | Some (Exited cause) => (Some cause, launch dir argv called)
  | Some (NotStarted cause) => (Some cause, called)
  end.

(** [filepath.Abs]: an absolute path is cleaned, a relative one is
    joined to the working directory. *)
Definition Abs (w : World) (path : string) : errors.error + string :=
  if filepath.IsAbs path then inr (filepath.Clean path)
  else match Getwd w with
       | inl err => inl err
       | inr wd => inr (filepath.Join [wd; path])
       end.

End os.

(** ** Package cmd (cmd/init.go) *)

Module cmd.
Import strings errors configtypes os.

Definition withName (cfg : ProjectConfig) (name : string) : ProjectConfig :=
  {| Name := name; Path := Path cfg; AIAssistant := AIAssistant cfg;
     ScriptType := ScriptType cfg; NoGit := NoGit cfg; Force := Force cfg;
     IgnoreTools := IgnoreTools cfg; SkipTLS := SkipTLS cfg; Debug := Debug cfg;
     GitHubToken := GitHubToken cfg; Here := Here cfg;
     CreatedAt := CreatedAt cfg |}.

Definition withPath (cfg : ProjectConfig) (path : string) : ProjectConfig :=
  {| Name := Name cfg; Path := path; AIAssistant := AIAssistant cfg;
     ScriptType := ScriptType cfg; NoGit := NoGit cfg; Force := Force cfg;
     IgnoreTools := IgnoreTools cfg; SkipTLS := SkipTLS cfg; Debug := Debug cfg;
     GitHubToken := GitHubToken cfg; Here := Here cfg;
     CreatedAt := CreatedAt cfg |}.

Definition withCreatedAt (cfg : ProjectConfig) (t : Time) : ProjectConfig :=
  {| Name := Name cfg; Path := Path cfg; AIAssistant := AIAssistant cfg;
     ScriptType := ScriptType cfg; NoGit := NoGit cfg; Force := Force cfg;
     IgnoreTools := IgnoreTools cfg; SkipTLS := SkipTLS cfg; Debug := Debug cfg;
     GitHubToken := GitHubToken cfg; Here := Here cfg; CreatedAt := t |}.

(** The [Args] validator of the init command. The flags have been
    parsed into [cfg]; [args] are the positional arguments. *)
Definition Args (cfg : ProjectConfig) (args : list string) : option error :=
  if Here cfg && Nat.ltb 0 (List.length args) then
    Some (Plain "cannot specify both project name and --here flag")
  else if negb (Here cfg) && Nat.eqb (List.length args) 0 then
    Some (Plain "must specify either a project name or use --here flag")
  else None.

Section Command.
(** The body of the command, [runInit]. *)
Variable runInit : ProjectConfig -> World -> option error * World.

(** The [RunE] function; [now] is the reading of the clock. *)
Definition RunE (cfg : ProjectConfig) (args : list string) (now : Time)
    (w : World) : option error * World :=
  let cfg := match args with
             | name :: _ => withName cfg name
             | [] => cfg
             end in
  runInit (withCreatedAt cfg now) w.

(** What the command framework does with the two: [RunE] is called
    only when [Args] accepts the arguments. *)
Definition execute (cfg : ProjectConfig) (args : list string) (now : Time)
    (w : World) : option error * World :=
  match Args cfg args with
  | Some err => (Some err, w)
  | None => RunE cfg args now w
  end.
End Command.

(** [validateConfig]: fills in the path, and the name in in-place mode,
    and refuses a new directory that is already there. *)
Definition validateConfig (cfg : ProjectConfig) (w : World)
    : option error * ProjectConfig :=
  let resolved :=
    if Here cfg then
      match Getwd w with
      | inl err =>
          inl (Wrap ErrCodeFileSystemError "failed to get current directory" err, cfg)
      | inr wd => inr (withName (withPath cfg wd) (filepath.Base wd))
      end
    else
      match Abs w (Name cfg) with
      | inl err =>
          inl (Wrap ErrCodeFileSystemError "failed to resolve project path" err,
               withPath cfg EmptyString)
      | inr path => inr (withPath cfg path)
      end in
  match resolved with
  | inl (err, cfg') => (Some err, cfg')
  | inr cfg' =>
      if negb (Here cfg') && exists_ w (Path cfg') then
        (Some (NewValidationError
                 ("Directory " +:+ Path cfg' +:+ " already exists")), cfg')
      else (None, cfg')
  end.

(** The last step of [prepareProjectDirectory]. *)
Definition absolute (projectPath : string) (w : World)
    : (error + string) * World :=
  match Abs w projectPath with
  | inl err =>
      (inl (Wrap ErrCodeFileSystemError "failed to get absolute path" err), w)
  | inr absPath => (inr absPath, w)
  end.

Definition prepareProjectDirectory (cfg : ProjectConfig) (w : World)
    : (error + string) * World :=
  if Here cfg then
    match Getwd w with
    | inl err =>
        (inl (Wrap ErrCodeFileSystemError "failed to get current directory" err), w)
    | inr wd =>
        match ReadDir w wd with
        | inl err =>
            (inl (Wrap ErrCodeFileSystemError
                    "failed to read current directory" err), w)
        | inr entries =>
            if Nat.ltb 0 (List.length entries) && negb (Force cfg) then
              (inl (New ErrCodeValidationError
                      "directory is not empty (use --force to override)"), w)
            else absolute wd w
        end
    end
  else
    let projectPath := filepath.Join ["."; Name cfg] in
    if exists_ w projectPath then
      (inl (New ErrCodeValidationError
              ("Directory " +:+ projectPath +:+ " already exists")), w)
    else
      match MkdirAll projectPath w with
      | (Some err, w') =>
          (inl (Wrap ErrCodeFileSystemError
                  "failed to create project directory" err), w')
      | (None, w') => absolute projectPath w'
      end.

(** The path under which the second loop of [processTemplates] writes a
    processed template: the name below the commands directory, placed
    in the directory of the assistant. *)
Definition commandPath (projectPath : string) (a : config.AIAssistant)
    (templateName : string) : string :=
  let commandName := TrimPrefix templateName "commands/" in
  filepath.Join [projectPath; config.Directory a; commandName].

(** That loop, over the processed templates in the order in which the
    map is visited. *)
Fixpoint copyCommands (projectPath : string) (a : config.AIAssistant)
    (processedTemplates : list (string * string)) (w : World)
    : option error * World :=
  match processedTemplates with
  | [] => (None, w)
  | (templateName, content) :: rest =>
      if HasPrefix templateName "commands/" then
        match WriteFile (commandPath projectPath a templateName) content w with
        | (Some err, w') =>
            (Some (Wrap ErrCodeFileSystemError
                     "failed to write command template" err), w')
        | (None, w') => copyCommands projectPath a rest w'
        end
      else copyCommands projectPath a rest w
  end.

Definition gitInit : list string := ["git"; "init"].
Definition gitAdd : list string := ["git"; "add"; "."].
Definition gitCommit : list string :=
  ["git"; "commit"; "-m"; "Initial commit - Specify project setup"].

Definition initializeGit (projectPath : string) (noGit : bool) (w : World)
    : option error * World :=
  if noGit then (None, w)
  else if exists_ w (filepath.Join [projectPath; ".git"]) then (None, w)
  else
    match Run projectPath gitInit w with
    | (Some err, w1) =>
        (Some (Wrap ErrCodeGitError "failed to initialize git repository" err), w1)
    | (None, w1) =>
        match Run projectPath gitAdd w1 with
        | (Some err, w2) =>
            (Some (Wrap ErrCodeGitError "failed to add files to git" err), w2)
        | (None, w2) =>
            match Run projectPath gitCommit w2 with
            | (Some err, w3) =>
                (Some (Wrap ErrCodeGitError
                         "failed to create initial commit" err), w3)
            | (None, w3) => (None, w3)
            end
        end
    end.

(** The text of an error, [Error()]. *)
Fixpoint errorText (e : error) : string :=
  match e with
  | Plain msg => msg
  | Coded _ message None => message
  | Coded _ message (Some cause) => message +:+ ": " +:+ errorText cause
  end.

(** Step 9 of [runInit]; [t1] and [t2] are the clock readings during
    the two calls of the tracker. *)
Definition gitStep (tracker : StepTracker) (projectPath : string)
    (cfg : ProjectConfig) (t1 t2 : Time) (w : World)
    : option error * StepTracker * World :=
  let tracker := Start tracker "git" EmptyString t1 in
  match initializeGit projectPath (NoGit cfg) w with
  | (Some err, w') => (Some err, Error tracker "git" (errorText err) t2, w')
  | (None, w') =>
      if negb (NoGit cfg)
      then (None, Complete tracker "git" "Git repository initialized" t2, w')
      else (None, Skip tracker "git" "Skipped" t2, w')
  end.

End cmd.

(** ** Sample bundles used by the evaluations below *)

Module samples.
Import templates.

Definition lines (ls : list string) : string := strings.Join ls newline.

(** A TOML command file: a comment line mentioning the argument token,
    then a prompt block that mentions it once. *)
Definition tomlTemplate : string :=
  lines [ "# usage: pass $ARGUMENTS on the command line";
          promptOpen;
          "Do $ARGUMENTS";
          tripleQuote ].

(** What the comment says must happen to [tomlTemplate] for an assistant
    whose argument syntax is the double-brace form: only the line inside
    the block changes. *)
Definition tomlScoped : string :=
  lines [ "# usage: pass $ARGUMENTS on the command line";
          promptOpen;
          "Do {{args}}";
          tripleQuote ].

(** What the processor returns for it. *)
Definition tomlRewritten : string :=
  lines [ "# usage: pass {{args}} on the command line";
          promptOpen;
          "Do {{args}}";
          tripleQuote ].

Definition scriptTemplate : string := "Run {SCRIPT} first".

Definition splicedAgent : string := "__AGE{SCRIPT}NT__".

Definition splicedArgs : string := "{{ar{SCRIPT}gs}}".

Definition bundle : EmbeddedAssets :=
  {| Templates :=
       list_to_map
         [ ("commands/specify.toml", tomlTemplate);
           ("commands/plan.md", scriptTemplate);
           ("commands/specify.md", "Specify $ARGUMENTS");
           ("spliced-agent.md", splicedAgent);
           ("spliced-args.md", splicedArgs) ];
     Scripts :=
       list_to_map
         (flat_map
            (fun n => [ ("bash/" +:+ n +:+ ".sh", "#!/bin/bash");
                        ("powershell/" +:+ n +:+ ".ps1", "# __AGENT__") ])
            scripts.scriptNames) |}.

(** The processors of the evaluations. *)
Definition claudeSh : Processor := NewProcessor bundle config.claude "sh".


End samples.

(** ** Sample worlds *)

Module sampleworlds.
Import configtypes os.

(** A working directory [/work] that holds a README and a directory
    [existing-dir]; every system call succeeds and so does every
    command. *)
Definition busy : World :=
  {| cwd := inr "/work";
     dirEntries := fun _ => inr ["README.md"; "existing-dir"];
     present := fun p => String.eqb p "existing-dir"
                         || String.eqb p "/work/existing-dir";
     mkdirError := fun _ => None;
     writeError := fun _ => None;
     runError := fun _ _ _ => None;
     created := [];
     trace := [];
     started := [] |}.

(** The same with an empty working directory. *)
Definition empty : World :=
  {| cwd := inr "/work";
     dirEntries := fun _ => inr [];
     present := fun _ => false;
     mkdirError := fun _ => None;
     writeError := fun _ => None;
     runError := fun _ _ _ => None;
     created := [];
     trace := [];
     started := [] |}.

(** An empty directory in which the commit fails. *)
Definition commitFails : World :=
  {| cwd := inr "/work";
     dirEntries := fun _ => inr [];
     present := fun _ => false;
     mkdirError := fun _ => None;
     writeError := fun _ => None;
     runError := fun _ _ argv =>
                   if existsb (String.eqb "commit") argv
                   then Some (Exited (errors.Plain "exit status 128")) else None;
     created := [];
     trace := [];
     started := [] |}.

(** An empty directory on a machine without git: no command can be
    started. *)
Definition gitMissing : World :=
  {| cwd := inr "/work";
     dirEntries := fun _ => inr [];
     present := fun _ => false;
     mkdirError := fun _ => None;
     writeError := fun _ => None;
     runError := fun _ _ _ =>
                   Some (NotStarted
                           (errors.Plain "executable file not found in $PATH"));
     created := [];
     trace := [];
     started := [] |}.

Definition request (name : string) (here force noGit : bool) : ProjectConfig :=
  {| Name := name; Path := EmptyString; AIAssistant := "copilot";
     ScriptType := "sh"; NoGit := noGit; Force := force; IgnoreTools := true;
     SkipTLS := false; Debug := false; GitHubToken := EmptyString;
     Here := here; CreatedAt := 0%Z |}.

End sampleworlds.

(** ** internal/templates/embedded.go: loading the bundle *)

Module loader.
Import strings errors templates.

(** One call of the walk function of [LoadEmbeddedAssets]: the walk
    reports an error for the path, or the entry is a directory, or it is a
    file whose bytes are read or cannot be read. *)
Inductive Entry : Type :=
| WalkError (path : string) (err : error)
| Dir (path : string)
| File (path content : string)
| Unreadable (path : string) (err : error).

Definition templatesRoot : string := "assets/templates/".
Definition scriptsRoot : string := "assets/scripts/".

(** The walk function. Paths of the embedded file system are
    slash-separated, so [filepath.ToSlash] leaves them as they are. *)
Definition visit (ea : EmbeddedAssets) (e : Entry) : error + EmbeddedAssets :=
  match e with
  | WalkError _ err => inl err
  | Dir _ => inr ea
  | Unreadable _ err => inl err
  | File path content =>
      if HasPrefix path templatesRoot then
        let relativePath := TrimPrefix path templatesRoot in
        if negb (filepath.isEmpty relativePath) then
          inr {| Templates := <[relativePath := content]> (Templates ea);
                 Scripts := Scripts ea |}
        else inr ea
      else if HasPrefix path scriptsRoot then
        let relativePath := TrimPrefix path scriptsRoot in
        if negb (filepath.isEmpty relativePath) then
          inr {| Templates := Templates ea;
                 Scripts := <[relativePath := content]> (Scripts ea) |}
        else inr ea
      else inr ea
  end.

(** [fs.WalkDir]: the entries are visited in order and the first error
    ends the walk. *)
Fixpoint walk (ea : EmbeddedAssets) (entries : list Entry) : error + EmbeddedAssets :=
  match entries with
  | [] => inr ea
  | e :: rest =>
      match visit ea e with
      | inl err => inl err
      | inr ea' => walk ea' rest
      end
  end.

Definition LoadEmbeddedAssets (entries : list Entry) : error + EmbeddedAssets :=
  walk {| Templates := ∅; Scripts := ∅ |} entries.

(** The loop of [ProcessAllTemplates] over the names [ListTemplates]
    returned; [orders] gives the iteration order of the replacement map
    during the processing of each template. *)
Fixpoint processEach (p : Processor) (orders : string -> list Placeholder)
    (names : list string) (processed : gmap string string)
    : error + gmap string string :=
  match names with
  | [] => inr processed
  | templateName :: rest =>
      match ProcessTemplate p (orders templateName) templateName with
      | inl err =>
          inl (Wrap ErrCodeTemplateError
                 ("failed to process template " +:+ templateName) err)
      | inr content =>
          processEach p orders rest (<[templateName := content]> processed)
      end
  end.

Definition ProcessAllTemplates (p : Processor) (orders : string -> list Placeholder)
    (names : list string) : error + gmap string string :=
  processEach p orders names ∅.

(** The loop of [GenerateAllScripts]. *)
Fixpoint generateEach (g : scripts.Generator)
    (orders : string -> list scripts.Placeholder)
    (names : list string) (generated : gmap string string)
    : error + gmap string string :=
  match names with
  | [] => inr generated
  | scriptName :: rest =>
      match scripts.GenerateScript g (orders scriptName) scriptName with
      | inl err =>
          inl (Wrap ErrCodeScriptError
                 ("failed to generate script " +:+ scriptName) err)
      | inr content =>
          generateEach g orders rest (<[scriptName := content]> generated)
      end
  end.

Definition GenerateAllScripts (g : scripts.Generator)
    (orders : string -> list scripts.Placeholder) : error + gmap string string :=
  generateEach g orders scripts.scriptNames ∅.

End loader.

(** ** internal/scripts/executor.go: the helpers on script types *)

Module executor.
Import errors.

Definition ValidateScriptType (scriptType : string) : option error :=
  if String.eqb scriptType config.ScriptTypeBash
     || String.eqb scriptType config.ScriptTypePowerShell
  then None
  else Some (NewValidationError ("unsupported script type: " +:+ scriptType)).

Definition GetScriptExtension (scriptType : string) : string :=
  if String.eqb scriptType config.ScriptTypeBash then ".sh"
  else if String.eqb scriptType config.ScriptTypePowerShell then ".ps1"
  else EmptyString.

End executor.

(** ** Package github: the release assets *)

Module github.
Import strings errors.

Record ReleaseAsset : Type := {
  AssetName : string;
  Size : Z;
  BrowserDownloadURL : string
}.

Record Release : Type := {
  TagName : string;
  Assets : list ReleaseAsset
}.

(** The loop of [FindTemplateAsset]. *)
Fixpoint firstMatch (pattern : string) (assets : list ReleaseAsset)
    : option ReleaseAsset :=
  match assets with
  | [] => None
  | asset :: rest =>
      if Contains (AssetName asset) pattern && HasSuffix (AssetName asset) ".zip"
      then Some asset
      else firstMatch pattern rest
  end.

Definition FindTemplateAsset (release : Release) (aiAssistant : string)
    : error + ReleaseAsset :=
  let pattern := "spec-kit-template-" +:+ aiAssistant +:+ "-" in
  match firstMatch pattern (Assets release) with
  | Some asset => inr asset
  | None => inl (NewAssetNotFound ("template asset for " +:+ aiAssistant))
  end.

End github.

(** ** cmd/init.go: the steps of the run and the run itself *)

Module orchestration.
Import strings errors configtypes os cmd.

(** What an invocation finds beside the file system: the tools on the
    search path, the walk of the embedded tree, the answer of the
    interactive selector, and the orders in which the Go maps are
    visited. *)
Record Host : Type := {
  lookPath : string -> bool;
  embedded : list loader.Entry;
  selectorRun : string -> gmap string string -> string -> string * option error;
  listTemplates : gmap string string -> list string;
  rangeTemplates : gmap string string -> list (string * string);
  rangeCommands : gmap string string -> list (string * string);
  rangeScripts : gmap string string -> list (string * string);
  templateOrder : string -> list templates.Placeholder;
  scriptOrder : string -> list scripts.Placeholder
}.

Definition withAIAssistant (cfg : ProjectConfig) (key : string) : ProjectConfig :=
  {| Name := Name cfg; Path := Path cfg; AIAssistant := key;
     ScriptType := ScriptType cfg; NoGit := NoGit cfg; Force := Force cfg;
     IgnoreTools := IgnoreTools cfg; SkipTLS := SkipTLS cfg; Debug := Debug cfg;
     GitHubToken := GitHubToken cfg; Here := Here cfg;
     CreatedAt := CreatedAt cfg |}.

Definition withScriptType (cfg : ProjectConfig) (key : string) : ProjectConfig :=
  {| Name := Name cfg; Path := Path cfg; AIAssistant := AIAssistant cfg;
     ScriptType := key; NoGit := NoGit cfg; Force := Force cfg;
     IgnoreTools := IgnoreTools cfg; SkipTLS := SkipTLS cfg; Debug := Debug cfg;
     GitHubToken := GitHubToken cfg; Here := Here cfg;
     CreatedAt := CreatedAt cfg |}.

(** [selectAssistant]: the flag when it is given, the selector
    otherwise; a key the registry does not have gives the zero profile in
    the second case. *)
Definition selectAssistant (h : Host) (cfg : ProjectConfig)
    : error + config.AIAssistant :=
  if negb (filepath.isEmpty (AIAssistant cfg)) then
    match config.AIAssistants !! AIAssistant cfg with
    | None =>
        inl (NewValidationError ("Unknown AI assistant: " +:+ AIAssistant cfg))
    | Some assistant => inr assistant
    end
  else
    match selectorRun h "Select your AI assistant" config.AIChoices "claude" with
    | (_, Some err) =>
        inl (Wrap ErrCodeValidationError "assistant selection failed" err)
    | (selected, None) =>
        inr (default config.zeroAssistant (config.AIAssistants !! selected))
    end.

Definition selectScriptType (h : Host) (cfg : ProjectConfig) : error + string :=
  if negb (filepath.isEmpty (ScriptType cfg)) then
    match config.ScriptTypes !! ScriptType cfg with
    | None =>
        inl (NewValidationError ("Unknown script type: " +:+ ScriptType cfg))
    | Some _ => inr (ScriptType cfg)
    end
  else
    match selectorRun h "Select your script type"
            (config.stName <$> config.ScriptTypes) "sh" with
    | (_, Some err) =>
        inl (Wrap ErrCodeValidationError "script type selection failed" err)
    | (selected, None) => inr selected
    end.

(** [checkRequiredTools]; a missing git only prints a warning. *)
Definition checkRequiredTools (h : Host) (assistant : config.AIAssistant)
    (ignoreTools : bool) : option error :=
  if ignoreTools then None
  else if negb (filepath.isEmpty (config.CLITool assistant))
          && negb (lookPath h (config.CLITool assistant))
  then Some (NewToolNotFound (config.CLITool assistant))
  else None.

(** The first loop of [processTemplates]: the three base directories. *)
Fixpoint makeDirs (projectPath : string) (dirs : list string) (w : World)
    : option error * World :=
  match dirs with
  | [] => (None, w)
  | dir :: rest =>
      match MkdirAll (filepath.Join [projectPath; dir]) w with
      | (Some err, w') =>
          (Some (Wrap ErrCodeFileSystemError "failed to create directory" err), w')
      | (None, w') => makeDirs projectPath rest w'
      end
  end.

(** The loop that writes every processed template below the templates
    directory of the project. *)
Fixpoint writeTemplates (projectPath : string)
    (processedTemplates : list (string * string)) (w : World)
    : option error * World :=
  match processedTemplates with
  | [] => (None, w)
  | (templateName, content) :: rest =>
      let templatePath :=
        filepath.Join [projectPath; ".specify"; "templates"; templateName] in
      match MkdirAll (filepath.Dir templatePath) w with
      | (Some err, w') =>
          (Some (Wrap ErrCodeFileSystemError
                   "failed to create template directory" err), w')
      | (None, w') =>
          match WriteFile templatePath content w' with
          | (Some err, w'') =>
              (Some (Wrap ErrCodeFileSystemError "failed to write template" err),
               w'')
          | (None, w'') => writeTemplates projectPath rest w''
          end
      end
  end.

Definition processTemplates (h : Host) (projectPath : string)
    (assistant : config.AIAssistant) (scriptType : string) (w : World)
    : option error * World :=
  match loader.LoadEmbeddedAssets (embedded h) with
  | inl err =>
      (Some (Wrap ErrCodeAssetNotFound "failed to load embedded assets" err), w)
  | inr assets =>
      let processor := templates.NewProcessor assets assistant scriptType in
      match makeDirs projectPath
              [".specify/templates"; ".specify/templates/commands";
               config.Directory assistant] w with
      | (Some err, w1) => (Some err, w1)
      | (None, w1) =>
          match loader.ProcessAllTemplates processor (templateOrder h)
                  (listTemplates h (templates.Templates assets)) with
          | inl err => (Some err, w1)
          | inr processedTemplates =>
              match writeTemplates projectPath
                      (rangeTemplates h processedTemplates) w1 with
              | (Some err, w2) => (Some err, w2)
              | (None, w2) =>
                  copyCommands projectPath assistant
                    (rangeCommands h processedTemplates) w2
              end
          end
      end
  end.

(** The loop of [generateScripts] that writes the generated scripts. The
    permission bits of the files are not part of the model. *)
Fixpoint writeScripts (scriptsDir scriptType : string)
    (generatedScripts : list (string * string)) (w : World)
    : option error * World :=
  match generatedScripts with
  | [] => (None, w)
  | (scriptName, content) :: rest =>
      let scriptPath :=
        filepath.Join
          [scriptsDir; scriptName +:+ executor.GetScriptExtension scriptType] in
      match MkdirAll scriptsDir w with
      | (Some err, w') =>
          (Some (Wrap ErrCodeFileSystemError
                   "failed to create scripts directory" err), w')
      | (None, w') =>
          match WriteFile scriptPath content w' with
          | (Some err, w'') =>
              (Some (Wrap ErrCodeFileSystemError "failed to write script" err), w'')
          | (None, w'') => writeScripts scriptsDir scriptType rest w''
          end
      end
  end.

Definition generateScripts (h : Host) (projectPath : string)
    (assistant : config.AIAssistant) (scriptType : string) (w : World)
    : option error * World :=
  match loader.LoadEmbeddedAssets (embedded h) with
  | inl err =>
      (Some (Wrap ErrCodeAssetNotFound "failed to load embedded assets" err), w)
  | inr assets =>
      let generator := scripts.NewGenerator assets assistant scriptType in
      match loader.GenerateAllScripts generator (scriptOrder h) with
      | inl err => (Some err, w)
      | inr generatedScripts =>
          writeScripts (filepath.Join [projectPath; ".specify"; "scripts"])
            scriptType (rangeScripts h generatedScripts) w
      end
  end.

(** The nine steps [runInit] registers, in their order. *)
Definition stepList : list (string * string) :=
  [ ("validate", "Validate configuration");
    ("assistant", "Select AI assistant");
    ("script", "Select script type");
    ("tools", "Check required tools");
    ("download", "Prepare project directory");
    ("extract", "Setup embedded assets");
    ("process", "Process templates");
    ("scripts", "Generate scripts");
    ("git", "Initialize git repository") ].

Definition newTracker : StepTracker :=
  fold_left (fun st step => Add st (fst step) (snd step)) stepList
    {| Title := "Initializing Specify Project"; Steps := [] |}.

(** What a run leaves: the error it returns, the tracker, the
    configuration as the steps filled it in, and the world. *)
Record Outcome : Type := {
  failure : option error;
  tracker : StepTracker;
  config_ : ProjectConfig;
  world : World
}.

(** [runInit]. The i-th call that changes the tracker reads the clock as
    [now i]; the last step is [gitStep]. What the run prints, the progress
    display at the start and the messages at the end, is not part of the
    model. *)
Definition runInit (h : Host) (now : nat -> Time) (cfg : ProjectConfig) (w : World)
    : Outcome :=
  let t := Start newTracker "validate" EmptyString (now 0) in
  match validateConfig cfg w with
  | (Some err, cfg) =>
      {| failure := Some err; tracker := Error t "validate" (errorText err) (now 1);
         config_ := cfg; world := w |}
  | (None, cfg) =>
  let t := Complete t "validate" "Configuration valid" (now 1) in
  let t := Start t "assistant" EmptyString (now 2) in
  match selectAssistant h cfg with
  | inl err =>
      {| failure := Some err; tracker := Error t "assistant" (errorText err) (now 3);
         config_ := cfg; world := w |}
  | inr assistant =>
  let cfg := withAIAssistant cfg (config.Key assistant) in
  let t := Complete t "assistant" ("Selected " +:+ config.Name assistant) (now 3) in
  let t := Start t "script" EmptyString (now 4) in
  match selectScriptType h cfg with
  | inl err =>
      {| failure := Some err; tracker := Error t "script" (errorText err) (now 5);
         config_ := cfg; world := w |}
  | inr scriptType =>
  let cfg := withScriptType cfg scriptType in
  let t := Complete t "script"
             ("Selected " +:+ match config.ScriptTypes !! scriptType with
                              | Some st => config.stName st
                              | None => EmptyString
                              end) (now 5) in
  let t := Start t "tools" EmptyString (now 6) in
  match checkRequiredTools h assistant (IgnoreTools cfg) with
  | Some err =>
      {| failure := Some err; tracker := Error t "tools" (errorText err) (now 7);
         config_ := cfg; world := w |}
  | None =>
  let t := Complete t "tools" "All tools available" (now 7) in
  let t := Start t "download" EmptyString (now 8) in
  match prepareProjectDirectory cfg w with
  | (inl err, w) =>
      {| failure := Some err; tracker := Error t "download" (errorText err) (now 9);
         config_ := cfg; world := w |}
  | (inr projectPath, w) =>
  let cfg := withPath cfg projectPath in
  let t := Complete t "download" "Project directory prepared" (now 9) in
  let t := Start t "extract" EmptyString (now 10) in
  let t := Complete t "extract" "Using embedded assets" (now 11) in
  let t := Start t "process" EmptyString (now 12) in
  match processTemplates h projectPath assistant scriptType w with
  | (Some err, w) =>
      {| failure := Some err; tracker := Error t "process" (errorText err) (now 13);
         config_ := cfg; world := w |}
  | (None, w) =>
  let t := Complete t "process" "Templates processed" (now 13) in
  let t := Start t "scripts" EmptyString (now 14) in
  match generateScripts h projectPath assistant scriptType w with
  | (Some err, w) =>
      {| failure := Some err; tracker := Error t "scripts" (errorText err) (now 15);
         config_ := cfg; world := w |}
  | (None, w) =>
  let t := Complete t "scripts" "Scripts generated" (now 15) in
  match gitStep t projectPath cfg (now 16) (now 17) w with
  | (result, t, w) =>
      {| failure := result; tracker := t; config_ := cfg; world := w |}
  end end end end end end end end.

End orchestration.

(** ** Notions used to state the further properties *)

Module derived.
Import strings templates.

(** The text has no line feed. *)
Definition oneLine (s : string) : Prop := Contains s newline = false.

(** What the TOML pass does to a line inside a prompt block. *)
Definition withArguments (p : Processor) (line : string) : string :=
  ReplaceAll (ReplaceAll line "$ARGUMENTS" (config.ArgFormat (assistant p)))
    "{{args}}" (config.ArgFormat (assistant p)).

(** The clock reading of the first Start call on the step [key]; the
    zero instant when there is none. *)
Fixpoint firstStart (key : string) (calls : list configtypes.Call)
    : configtypes.Time :=
  match calls with
  | [] => 0%Z
  | c :: rest =>
      if String.eqb (configtypes.callKey c) key
         && configtypes.isRunning (configtypes.statusOf (configtypes.operation c))
      then configtypes.callTime c
      else firstStart key rest
  end.

(** The keys of the steps of a tracker, in the order of the steps. *)
Definition keysOf (st : configtypes.StepTracker) : list string :=
  map configtypes.Key (configtypes.Steps st).

(** A use of the tracker: a step is added, or one of the four status
    calls is made. *)
Inductive TrackerUse : Type :=
| UseAdd (key label : string)
| UseCall (c : configtypes.Call).

Definition useTracker (st : configtypes.StepTracker) (u : TrackerUse)
    : configtypes.StepTracker :=
  match u with
  | UseAdd key label => configtypes.Add st key label
  | UseCall c => configtypes.perform st c
  end.

(** The paths of the files a walk reads. *)
Definition filePaths (entries : list loader.Entry) : list string :=
  flat_map (fun e => match e with
                     | loader.File path _ => [path]
                     | _ => []
                     end) entries.

(** What a visited entry contributes to the templates and to the
    scripts of the bundle: a key and the bytes stored under it. *)
Definition templateEntry (e : loader.Entry) : option (string * string) :=
  match e with
  | loader.File path content =>
      if HasPrefix path loader.templatesRoot
         && negb (filepath.isEmpty (TrimPrefix path loader.templatesRoot))
      then Some (TrimPrefix path loader.templatesRoot, content)
      else None
  | _ => None
  end.

Definition scriptEntry (e : loader.Entry) : option (string * string) :=
  match e with
  | loader.File path content =>
      if negb (HasPrefix path loader.templatesRoot)
         && HasPrefix path loader.scriptsRoot
         && negb (filepath.isEmpty (TrimPrefix path loader.scriptsRoot))
      then Some (TrimPrefix path loader.scriptsRoot, content)
      else None
  | _ => None
  end.

(** The error an entry stops the walk with. *)
Definition entryError (e : loader.Entry) : option errors.error :=
  match e with
  | loader.WalkError _ err | loader.Unreadable _ err => Some err
  | _ => None
  end.

(** The script is not in the bundle under the path the generator asks
    for. *)
Definition missingScript (g : scripts.Generator) (scriptName : string) : bool :=
  match GetScript (scripts.assets g) (scripts.getScriptPath g scriptName) with
  | Some _ => false
  | None => true
  end.

(** The statuses of the steps of a tracker, in the order of the steps. *)
Definition statusesOf (st : configtypes.StepTracker) : list configtypes.Status :=
  map configtypes.StepStatus (configtypes.Steps st).

(** The statuses of the nine steps after a run that stopped at step
    [failedAt], counted from zero, or that went through. *)
Definition runShape (failedAt : option nat) (noGit : bool)
    : list configtypes.Status :=
  match failedAt with
  | Some i =>
      repeat configtypes.StatusDone i ++ [configtypes.StatusError]
      ++ repeat configtypes.StatusPending (8 - i)
  | None =>
      repeat configtypes.StatusDone 8
      ++ [if noGit then configtypes.StatusSkipped else configtypes.StatusDone]
  end.

(** An effect on the file system, as opposed to a command. *)
Definition isFileEffect (e : os.Effect) : Prop :=
  match e with
  | os.Exec _ _ => False
  | _ => True
  end.

(** The world [w'] comes after [w]: its trace is the trace of [w]
    followed by effects that all satisfy [P]. *)
Definition after (P : os.Effect -> Prop) (w w' : os.World) : Prop :=
  exists effects, os.trace w' = os.trace w ++ effects /\ Forall P effects.


(** What the run does for one processed template, for one command
    template and for one generated script. *)
Definition templatePath (projectPath templateName : string) : string :=
  filepath.Join [projectPath; ".specify"; "templates"; templateName].




(** The three git commands of the last step, with the directory they
    run in. *)
Definition gitCommands : list (list string) :=
  [cmd.gitInit; cmd.gitAdd; cmd.gitCommit].

Definition gitEffects (projectPath : string) : list os.Effect :=
  map (os.Exec projectPath) gitCommands.

Definition gitProcesses (projectPath : string) : list (string * list string) :=
  map (pair projectPath) gitCommands.

(** The messages of the errors of the three commands, in their order. *)
Definition gitMessages : list string :=
  [ "failed to initialize git repository"; "failed to add files to git";
    "failed to create initial commit" ].

(** The walk meets no error. *)
Definition readable (e : loader.Entry) : Prop :=
  match e with
  | loader.WalkError _ _ | loader.Unreadable _ _ => False
  | _ => True
  end.

(** The byte [c] occurs in [s]. *)
Fixpoint occurs (c : ascii) (s : string) : bool :=
  match s with
  | EmptyString => false
  | String d rest => Ascii.eqb c d || occurs c rest
  end.

(** No byte of [token] occurs in [text]: the bytes of [text], put into
    a string, take no part in an occurrence of [token]. *)
Fixpoint foreign (text token : string) : bool :=
  match token with
  | EmptyString => true
  | String t rest => negb (occurs t text) && foreign text rest
  end.

(** The script placeholder nested in itself, after [n] replacements of
    the placeholder by the empty string. *)
Definition scriptErasures (n : nat) : string :=
  match n with
  | 0 => "{SC{SCRIPT}RIPT}"
  | 1 => "{SCRIPT}"
  | _ => EmptyString
  end.

End derived.

(** ** Sample hosts *)

Module samplehosts.
Import orchestration.

(** A host whose bundle is laid out as the repository documents it:
    scripts below [bash] and [powershell], one command template. Every
    tool is on the search path and the maps are visited in the order of
    their lists. *)
Definition documented : Host :=
  {| lookPath := fun _ => true;
     embedded :=
       [ loader.Dir "assets"; loader.Dir "assets/scripts";
         loader.Dir "assets/scripts/bash";
         loader.File "assets/scripts/bash/check-prerequisites.sh" "#!/bin/bash";
         loader.Dir "assets/scripts/powershell";
         loader.File "assets/scripts/powershell/check-prerequisites.ps1" "# ps";
         loader.Dir "assets/templates"; loader.Dir "assets/templates/commands";
         loader.File "assets/templates/commands/specify.md" "Specify $ARGUMENTS" ];
     selectorRun := fun _ _ default => (default, None);
     listTemplates := fun m => map fst (map_to_list m);
     rangeTemplates := fun m => map_to_list m;
     rangeCommands := fun m => map_to_list m;
     rangeScripts := fun m => map_to_list m;
     templateOrder := fun _ => templates.placeholders;
     scriptOrder := fun _ => scripts.placeholders |}.



End samplehosts.

(** * Properties *)

(** ** Facts about the string functions *)

Section StringFacts.
Import strings.

Lemma append_cons (c : ascii) (s t : string) :
  String c s +:+ t = String c (s +:+ t).
Proof. reflexivity. Qed.

Lemma HasPrefix_empty (s : string) : HasPrefix s EmptyString = true.
Proof. destruct s; reflexivity. Qed.

Lemma HasPrefix_cons (c d : ascii) (s t : string) :
  HasPrefix (String c s) (String d t) = true <-> c = d /\ HasPrefix s t = true.
Proof.
  unfold HasPrefix; simpl.
  destruct (Ascii.ascii_dec d c) as [->|Hne]; split.
  - intros H; split; [reflexivity | exact H].
  - intros [_ H]; exact H.
  - discriminate.
  - intros [Heq _]; congruence.
Qed.

Lemma HasPrefix_split (old : string) :
  forall s, HasPrefix s old = true -> s = old +:+ dropBytes (String.length old) s.
Proof.
  induction old as [|d old IH]; intros s H.
  - destruct s; reflexivity.
  - destruct s as [|c s]; [discriminate H |].
    apply HasPrefix_cons in H as [-> H].
    cbn [String.length dropBytes]. rewrite append_cons.
    f_equal. apply IH, H.
Qed.

Lemma dropBytes_length (n : nat) :
  forall s, String.length (dropBytes n s) <= String.length s.
Proof.
  induction n as [|n IH]; intros [|c s]; simpl; try lia.
  specialize (IH s). lia.
Qed.

Lemma replaceFrom_skip (old new : string) :
  forall s k, replaceFrom old new k s = replaceFrom old new 0 (dropBytes k s).
Proof.
  induction s as [|c s IH]; intros [|k]; try reflexivity.
  simpl. apply IH.
Qed.

(** A text without any occurrence of [old] is returned as it is. *)
Lemma ReplaceAll_absent (old new : string) :
  forall s, Contains s old = false -> ReplaceAll s old new = s.
Proof.
  unfold ReplaceAll. destruct old as [|d old]; [reflexivity |].
  induction s as [|c s IH]; intros H; [reflexivity |].
  cbn [Contains] in H. apply orb_false_iff in H as [Hp Hc].
  cbn [replaceFrom]. rewrite Hp. f_equal. apply IH, Hc.
Qed.

(** Replacing a token by itself changes nothing. *)
Lemma ReplaceAll_same (old : string) : forall s, ReplaceAll s old old = s.
Proof.
  unfold ReplaceAll. destruct old as [|d old]; [reflexivity |].
  intros s. remember (String.length s) as n eqn:Hn.
  assert (Hle : String.length s <= n) by lia. clear Hn.
  revert s Hle. induction n as [|n IH]; intros [|c s] Hle;
    try reflexivity; simpl in Hle; [lia |].
  cbn [replaceFrom].
  destruct (HasPrefix (String c s) (String d old)) eqn:Hp.
  - rewrite replaceFrom_skip, IH.
    + apply HasPrefix_split in Hp. rewrite Hp at 1.
      cbn [String.length dropBytes]. rewrite Nat.sub_succ, Nat.sub_0_r.
      reflexivity.
    + pose proof (dropBytes_length (String.length (String d old) - 1) s). lia.
  - f_equal. apply IH. lia.
Qed.

End StringFacts.

(** ** Iteration orders *)

Section Orders.
Import templates.

Lemma order_listed (o : list Placeholder) :
  IterationOrder o -> In o (permutations placeholders).
Proof.
  intros Ho. apply list_elem_of_In, permutations_Permutation.
  symmetry. exact Ho.
Qed.

Lemma listed_order (o : list Placeholder) :
  bool_decide (o ∈ permutations placeholders) = true -> IterationOrder o.
Proof.
  intros H. apply bool_decide_eq_true in H.
  apply permutations_Permutation in H. unfold IterationOrder.
  symmetry. exact H.
Qed.

(** A property with a boolean test holds for every iteration order as
    soon as the test passes on the twenty-four orders. *)
Lemma every_order (P : list Placeholder -> Prop)
    (test : list Placeholder -> bool) :
  (forall o, test o = true -> P o) ->
  forallb test (permutations placeholders) = true ->
  forall o, IterationOrder o -> P o.
Proof.
  intros Htest Hall o Ho. apply Htest.
  rewrite List.forallb_forall in Hall. apply Hall, order_listed, Ho.
Qed.

Lemma result_eqb_eq r expected :
  result_eqb r expected = true -> r = inr expected.
Proof.
  destruct r as [e|out]; simpl; [discriminate |].
  intros H. apply String.eqb_eq in H. congruence.
Qed.

Lemma replaceEach_app (p : Processor) (o1 o2 : list Placeholder) :
  forall content,
    replaceEach p (o1 ++ o2) content = replaceEach p o2 (replaceEach p o1 content).
Proof.
  induction o1 as [|k o1 IH]; intros content; [reflexivity |].
  simpl. apply IH.
Qed.

End Orders.

(** ** The template processor *)

Section ProcessorProperties.
Import templates samples.

(** C1. The scoping of [processTOMLTemplate] has no effect, because
    [applyReplacements] has already rewritten the whole text: for the
    TOML assistant gemini and a template with the argument token once
    in a comment line and once inside the prompt block, every iteration
    order of the map yields the text with both occurrences replaced,
    not the text with only the occurrence inside the block replaced. *)
Theorem toml_comment_line_is_rewritten (order : list Placeholder) :
  IterationOrder order ->
  ProcessTemplate (NewProcessor bundle config.gemini "sh") order
    "commands/specify.toml" = inr tomlRewritten
  /\ tomlRewritten <> tomlScoped.
Proof.
  intros Ho. split; [| vm_compute; discriminate].
  revert order Ho.
  apply (every_order _ (fun o =>
    result_eqb (ProcessTemplate (NewProcessor bundle config.gemini "sh") o
                  "commands/specify.toml") tomlRewritten)).
  - intros o. apply result_eqb_eq.
  - vm_compute. reflexivity.
Qed.

Lemma toml_comment_line_is_rewritten_witness :
  IterationOrder placeholders
  /\ ProcessTemplate (NewProcessor bundle config.gemini "sh") placeholders
       "commands/specify.toml" = inr tomlRewritten.
Proof.
  split.
  - apply Permutation_refl.
  - apply (toml_comment_line_is_rewritten placeholders), Permutation_refl.
Defined.

(** C2. The script placeholder is erased, not resolved: the common
    replacements map it to the empty string before the pass of the
    format looks for it. For a Markdown assistant with the posix script
    type and for a prompt-file assistant with the PowerShell script
    type, every iteration order turns the sample text into the text
    with nothing where the placeholder stood. *)
Theorem script_placeholder_is_erased (order : list Placeholder) :
  IterationOrder order ->
  ProcessTemplate (NewProcessor bundle config.claude "sh") order
    "commands/plan.md" = inr "Run  first"
  /\ ProcessTemplate (NewProcessor bundle config.copilot "ps") order
       "commands/plan.md" = inr "Run  first".
Proof.
  revert order.
  apply (every_order _ (fun o =>
    result_eqb (ProcessTemplate (NewProcessor bundle config.claude "sh") o
                  "commands/plan.md") "Run  first"
    && result_eqb (ProcessTemplate (NewProcessor bundle config.copilot "ps") o
                     "commands/plan.md") "Run  first")).
  - intros o H. apply andb_true_iff in H as [H1 H2].
    split; apply result_eqb_eq; assumption.
  - vm_compute. reflexivity.
Qed.

Lemma script_placeholder_is_erased_witness :
  IterationOrder placeholders
  /\ ProcessTemplate (NewProcessor bundle config.claude "sh") placeholders
       "commands/plan.md" = inr "Run  first".
Proof.
  split.
  - apply Permutation_refl.
  - apply (script_placeholder_is_erased placeholders), Permutation_refl.
Defined.

(** C10. The order in which the map is iterated shows in the output,
    because the script placeholder is replaced by the empty string: its
    removal can assemble another token, which is then replaced or not
    according to the order. For the registry assistant claude with the
    posix script type, two iteration orders turn the template with the
    script placeholder inside the agent token into different bytes, and
    so do two orders that differ only in the places of the two argument
    replacements, for the template with the script placeholder inside an
    argument token. *)
Theorem output_depends_on_iteration_order :
  (IterationOrder [AGENT; ARGUMENTS; ARGS; SCRIPT]
   /\ IterationOrder [SCRIPT; AGENT; ARGUMENTS; ARGS]
   /\ GetTemplate (assets claudeSh) "spliced-agent.md" = Some "__AGE{SCRIPT}NT__"
   /\ ProcessTemplate claudeSh [AGENT; ARGUMENTS; ARGS; SCRIPT] "spliced-agent.md"
      = inr "__AGENT__"
   /\ ProcessTemplate claudeSh [SCRIPT; AGENT; ARGUMENTS; ARGS] "spliced-agent.md"
      = inr "claude")
  /\ (IterationOrder [ARGUMENTS; SCRIPT; ARGS; AGENT]
      /\ IterationOrder [ARGS; SCRIPT; ARGUMENTS; AGENT]
      /\ GetTemplate (assets claudeSh) "spliced-args.md" = Some "{{ar{SCRIPT}gs}}"
      /\ ProcessTemplate claudeSh [ARGUMENTS; SCRIPT; ARGS; AGENT] "spliced-args.md"
         = inr "$ARGUMENTS"
      /\ ProcessTemplate claudeSh [ARGS; SCRIPT; ARGUMENTS; AGENT] "spliced-args.md"
         = inr "{{args}}").
Proof.
  repeat split; try (apply listed_order; vm_compute; reflexivity);
    vm_compute; reflexivity.
Qed.

(** Every assistant of the registry uses one of the two argument tokens
    as its own argument syntax. *)
Lemma registry_ArgFormat (a : config.AIAssistant) :
  In a config.registry ->
  config.ArgFormat a = token ARGUMENTS \/ config.ArgFormat a = token ARGS.
Proof.
  unfold config.registry. simpl.
  intros H. repeat (destruct H as [<-|H]; [simpl; auto |]). contradiction.
Qed.

(** Hence the two argument replacements commute: one of them rewrites a
    token into itself. *)
Lemma argument_replacements_commute (p : Processor) (content : string) :
  In (assistant p) config.registry ->
  replaceEach p [ARGUMENTS; ARGS] content = replaceEach p [ARGS; ARGUMENTS] content.
Proof.
  intros H. apply registry_ArgFormat in H.
  cbn [replaceEach replacement].
  destruct H as [-> | ->]; rewrite !ReplaceAll_same; reflexivity.
Qed.

(** For every assistant of the registry, every script type, bundle and
    template name, two runs of [ProcessTemplate] whose iteration orders
    differ only by the exchange of the two argument replacements next to
    each other return the same result. *)
Lemma adjacent_argument_order_is_irrelevant
    (p : Processor) (before after : list Placeholder) (templateName : string) :
  In (assistant p) config.registry ->
  ProcessTemplate p (before ++ ARGUMENTS :: ARGS :: after) templateName
  = ProcessTemplate p (before ++ ARGS :: ARGUMENTS :: after) templateName.
Proof.
  intros H. unfold ProcessTemplate.
  destruct (GetTemplate (assets p) templateName) as [template|]; [| reflexivity].
  f_equal. unfold processContent, applyReplacements.
  rewrite !replaceEach_app.
  change (ARGUMENTS :: ARGS :: after) with ([ARGUMENTS; ARGS] ++ after).
  change (ARGS :: ARGUMENTS :: after) with ([ARGS; ARGUMENTS] ++ after).
  rewrite !replaceEach_app.
  rewrite (argument_replacements_commute p _ H). reflexivity.
Qed.

End ProcessorProperties.

(** ** Idempotence of the substitution *)

Section Idempotence.
Import strings derived.

Lemma processor_replaceEach_fixed (p : templates.Processor) (out : string) :
  (forall k, Contains out (templates.token k) = true ->
             templates.replacement p k = templates.token k) ->
  forall order, templates.replaceEach p order out = out.
Proof.
  intros Hout. induction order as [|k order IH]; [reflexivity |].
  cbn [templates.replaceEach].
  destruct (Contains out (templates.token k)) eqn:Hc.
  - rewrite (Hout k Hc), ReplaceAll_same. exact IH.
  - rewrite (ReplaceAll_absent _ _ _ Hc). exact IH.
Qed.

Lemma generator_replaceEach_fixed (g : scripts.Generator) (out : string) :
  (forall k, Contains out (scripts.token k) = true ->
             scripts.replacement g k = scripts.token k) ->
  forall order, scripts.replaceEach g order out = out.
Proof.
  intros Hout. induction order as [|k order IH]; [reflexivity |].
  cbn [scripts.replaceEach].
  destruct (Contains out (scripts.token k)) eqn:Hc.
  - rewrite (Hout k Hc), ReplaceAll_same. exact IH.
  - rewrite (ReplaceAll_absent _ _ _ Hc). exact IH.
Qed.

Lemma erasures_other_pass (p : templates.Processor) (k : templates.Placeholder)
    (n : nat) :
  k <> templates.SCRIPT ->
  ReplaceAll (scriptErasures n) (templates.token k) (templates.replacement p k)
  = scriptErasures n.
Proof.
  intros Hk. apply ReplaceAll_absent.
  destruct n as [|[|n]]; destruct k; try reflexivity; contradiction.
Qed.

Lemma erasures_script_pass (p : templates.Processor) (n : nat) :
  ReplaceAll (scriptErasures n) (templates.token templates.SCRIPT)
    (templates.replacement p templates.SCRIPT)
  = scriptErasures (S n).
Proof. destruct n as [|[|n]]; reflexivity. Qed.

(** Every script pass of an iteration erases one level of the nested
    placeholder, and the other passes leave it alone. *)
Lemma replaceEach_erasures (p : templates.Processor) :
  forall order n,
    templates.replaceEach p order (scriptErasures n)
    = scriptErasures (n + count_occ templates.Placeholder_eq_dec order
                            templates.SCRIPT).
Proof.
  induction order as [|k order IH]; intros n.
  - cbn [templates.replaceEach count_occ]. rewrite Nat.add_0_r. reflexivity.
  - cbn [templates.replaceEach count_occ].
    destruct (templates.Placeholder_eq_dec k templates.SCRIPT) as [-> | Hk].
    + rewrite erasures_script_pass, IH. f_equal. lia.
    + rewrite (erasures_other_pass p k n Hk), IH. reflexivity.
Qed.

Lemma script_pass_once (order : list templates.Placeholder) :
  templates.IterationOrder order ->
  count_occ templates.Placeholder_eq_dec order templates.SCRIPT = 1.
Proof.
  intros Ho. unfold templates.IterationOrder in Ho.
  rewrite (Permutation_count_occ templates.Placeholder_eq_dec) in Ho.
  rewrite Ho. reflexivity.
Qed.

Lemma foreign_head (text : string) (t : ascii) (rest : string) :
  foreign text (String t rest) = true ->
  occurs t text = false /\ foreign text rest = true.
Proof.
  cbn [foreign]. intros H. apply andb_true_iff in H as [H1 H2].
  apply negb_true_iff in H1. split; assumption.
Qed.

(** An occurrence of a token does not start inside a text in which the
    first byte of the token does not occur. *)
Lemma Contains_after_foreign (t : ascii) (rest : string) :
  forall text x,
    occurs t text = false ->
    Contains (text +:+ x) (String t rest) = Contains x (String t rest).
Proof.
  induction text as [|c text IH]; intros x H; [reflexivity |].
  cbn [occurs] in H. apply orb_false_iff in H as [Hc Ht].
  rewrite append_cons. cbn [Contains].
  destruct (HasPrefix (String c (text +:+ x)) (String t rest)) eqn:Hp.
  - apply HasPrefix_cons in Hp as [-> _].
    rewrite Ascii.eqb_refl in Hc. discriminate Hc.
  - cbn [orb]. apply IH, Ht.
Qed.

(** An occurrence of a token that starts the text after the replacement
    by a foreign, non-empty text started the text before. *)
Lemma HasPrefix_replaced (old new : string) :
  new <> EmptyString ->
  forall s token,
    foreign new token = true ->
    HasPrefix (replaceFrom old new 0 s) token = true ->
    HasPrefix s token = true.
Proof.
  intros Hnew. induction s as [|c s IH]; intros token Hf H; [exact H |].
  destruct token as [|t token]; [reflexivity |].
  apply foreign_head in Hf as [Ht Hf].
  cbn [replaceFrom] in H.
  destruct (HasPrefix (String c s) old).
  - destruct new as [|n new]; [contradiction |].
    rewrite append_cons in H. apply HasPrefix_cons in H as [<- _].
    cbn [occurs] in Ht. rewrite Ascii.eqb_refl in Ht. discriminate Ht.
  - apply HasPrefix_cons in H as [-> H].
    apply HasPrefix_cons. split; [reflexivity |]. apply IH; assumption.
Qed.

(** The replacement by a foreign, non-empty text leaves no occurrence of
    the token it replaces. *)
Lemma replaced_token_is_gone (old new : string) :
  old <> EmptyString -> new <> EmptyString -> foreign new old = true ->
  forall s, Contains (ReplaceAll s old new) old = false.
Proof.
  intros Hold Hnew Hf s. unfold ReplaceAll.
  destruct old as [|d old]; [contradiction |].
  pose proof (foreign_head _ _ _ Hf) as [Hd _].
  assert (H : forall s skip,
             Contains (replaceFrom (String d old) new skip s) (String d old)
             = false); [| apply H].
  clear s. induction s as [|c s IH]; intros skip; [reflexivity |].
  destruct skip as [|skip]; [| apply IH].
  cbn [replaceFrom].
  destruct (HasPrefix (String c s) (String d old)) eqn:Hp.
  - rewrite (Contains_after_foreign d old new _ Hd). apply IH.
  - cbn [Contains]. rewrite IH, orb_false_r.
    destruct (HasPrefix (String c (replaceFrom (String d old) new 0 s))
                (String d old)) eqn:Hq; [| reflexivity].
    assert (Hs : HasPrefix (String c s) (String d old) = true).
    { apply (HasPrefix_replaced (String d old) new Hnew (String c s) _ Hf).
      cbn [replaceFrom]. rewrite Hp. exact Hq. }
    congruence.
Qed.

(** The replacement by a foreign, non-empty text brings no occurrence of
    a token into a text that had none. *)
Lemma no_token_is_made (old new token : string) :
  new <> EmptyString -> foreign new token = true ->
  forall s, Contains s token = false -> Contains (ReplaceAll s old new) token = false.
Proof.
  intros Hnew Hf s Hs. unfold ReplaceAll.
  destruct old as [|d old]; [exact Hs |].
  destruct token as [|t token]; [destruct s; discriminate Hs |].
  pose proof (foreign_head _ _ _ Hf) as [Ht _].
  assert (H : forall s skip,
             Contains s (String t token) = false ->
             Contains (replaceFrom (String d old) new skip s) (String t token)
             = false); [| apply H, Hs].
  clear s Hs. induction s as [|c s IH]; intros skip Hs; [exact Hs |].
  cbn [Contains] in Hs. apply orb_false_iff in Hs as [Hp Hc].
  destruct skip as [|skip]; [| apply IH, Hc].
  cbn [replaceFrom].
  destruct (HasPrefix (String c s) (String d old)) eqn:Hold.
  - rewrite (Contains_after_foreign t token new _ Ht). apply IH, Hc.
  - cbn [Contains]. rewrite (IH 0 Hc), orb_false_r.
    destruct (HasPrefix (String c (replaceFrom (String d old) new 0 s))
                (String t token)) eqn:Hq; [| reflexivity].
    assert (Hs : HasPrefix (String c s) (String t token) = true).
    { apply (HasPrefix_replaced (String d old) new Hnew (String c s) _ Hf).
      cbn [replaceFrom]. rewrite Hold. exact Hq. }
    congruence.
Qed.

(** The keys of the registry and the two script references share no
    byte with the two tokens of the generator. *)
Lemma registry_key_is_foreign (a : config.AIAssistant) :
  In a config.registry ->
  config.Key a <> EmptyString
  /\ forall k, foreign (config.Key a) (scripts.token k) = true.
Proof.
  unfold config.registry. cbn [In]. intros H.
  repeat (destruct H as [<- | H];
          [split; [discriminate | intros []; reflexivity] |]).
  contradiction.
Qed.

Lemma script_reference_is_foreign (g : scripts.Generator) :
  scripts.getScriptReference g <> EmptyString
  /\ forall k, foreign (scripts.getScriptReference g) (scripts.token k) = true.
Proof.
  unfold scripts.getScriptReference.
  destruct (String.eqb (scripts.scriptType g) config.ScriptTypeBash);
    [| destruct (String.eqb (scripts.scriptType g) config.ScriptTypePowerShell)];
    (split; [discriminate | intros []; reflexivity]).
Qed.

(** After one iteration of the map of the generator, for an assistant of
    the registry, neither token occurs in the text. *)
Lemma generated_text_has_no_token (g : scripts.Generator)
    (order : list scripts.Placeholder) (content : string) :
  In (scripts.assistant g) config.registry ->
  scripts.IterationOrder order ->
  forall k, Contains (scripts.applyReplacements g order content) (scripts.token k)
            = false.
Proof.
  intros Ha Ho.
  destruct (registry_key_is_foreign _ Ha) as [Hkey Hkeys].
  destruct (script_reference_is_foreign g) as [Href Hrefs].
  assert (Hnew : forall k, scripts.replacement g k <> EmptyString)
    by (intros []; assumption).
  assert (Hforeign : forall k k',
             foreign (scripts.replacement g k) (scripts.token k') = true)
    by (intros [] k'; [apply Hkeys | apply Hrefs]).
  assert (Htoken : forall k, scripts.token k <> EmptyString)
    by (intros []; discriminate).
  assert (Hpair : forall k1 k2 k,
             k = k1 \/ k = k2 ->
             Contains (scripts.applyReplacements g [k1; k2] content)
               (scripts.token k) = false).
  { intros k1 k2 k Hk. unfold scripts.applyReplacements.
    cbn [scripts.replaceEach].
    assert (Hdec : k = k2 \/ k <> k2)
      by (destruct k, k2; auto; right; discriminate).
    destruct Hdec as [-> | Hne].
    - apply replaced_token_is_gone; auto.
    - destruct Hk as [-> | ->]; [| contradiction].
      apply no_token_is_made; auto.
      apply replaced_token_is_gone; auto. }
  unfold scripts.IterationOrder, scripts.placeholders in Ho.
  apply Permutation_sym, Permutation_length_2_inv in Ho as [-> | ->];
    intros []; apply Hpair; auto.
Qed.

(** C6. The substitution of the processor is not idempotent, because
    it replaces the script placeholder by the empty string: for every
    profile and script type and all iteration orders of the two passes,
    one pass turns the script placeholder nested in itself into the
    script placeholder, and the next pass over that output erases it. The
    substitution of the generator, which replaces the script placeholder
    by the script reference, is idempotent: for every assistant of the
    registry, every script type, input text and iteration order, a
    further pass returns the output of the first unchanged. *)
Theorem template_substitution_is_not_idempotent_script_substitution_is :
  (forall (p : templates.Processor) (first second : list templates.Placeholder),
      templates.IterationOrder first -> templates.IterationOrder second ->
      templates.applyReplacements p first "{SC{SCRIPT}RIPT}" = "{SCRIPT}"
      /\ templates.applyReplacements p second
           (templates.applyReplacements p first "{SC{SCRIPT}RIPT}")
         = EmptyString)
  /\ (forall (g : scripts.Generator) (first second : list scripts.Placeholder)
             (content : string),
        In (scripts.assistant g) config.registry ->
        scripts.IterationOrder first ->
        scripts.applyReplacements g second
          (scripts.applyReplacements g first content)
        = scripts.applyReplacements g first content).
Proof.
  split.
  - intros p first second Hfirst Hsecond. unfold templates.applyReplacements.
    change "{SC{SCRIPT}RIPT}" with (scriptErasures 0).
    rewrite !replaceEach_erasures, (script_pass_once _ Hfirst),
      (script_pass_once _ Hsecond).
    split; reflexivity.
  - intros g first second content Ha Hfirst.
    apply generator_replaceEach_fixed. intros k Hk.
    rewrite (generated_text_has_no_token g first content Ha Hfirst k) in Hk.
    discriminate Hk.
Qed.

Lemma template_substitution_is_not_idempotent_script_substitution_is_witness :
  (templates.applyReplacements samples.claudeSh templates.placeholders
     "{SC{SCRIPT}RIPT}" = "{SCRIPT}"
   /\ templates.applyReplacements samples.claudeSh templates.placeholders
        (templates.applyReplacements samples.claudeSh templates.placeholders
           "{SC{SCRIPT}RIPT}") = EmptyString)
  /\ scripts.applyReplacements
       (scripts.NewGenerator samples.bundle config.copilot "ps")
       [scripts.SCRIPT; scripts.AGENT]
       (scripts.applyReplacements
          (scripts.NewGenerator samples.bundle config.copilot "ps")
          scripts.placeholders "__AG__AGENT__ENT__ runs {SC{SCRIPT}RIPT}")
     = scripts.applyReplacements
         (scripts.NewGenerator samples.bundle config.copilot "ps")
         scripts.placeholders "__AG__AGENT__ENT__ runs {SC{SCRIPT}RIPT}".
Proof.
  split.
  - apply (proj1 template_substitution_is_not_idempotent_script_substitution_is
             samples.claudeSh templates.placeholders templates.placeholders);
      apply Permutation_refl.
  - apply (proj2 template_substitution_is_not_idempotent_script_substitution_is
             (scripts.NewGenerator samples.bundle config.copilot "ps")
             scripts.placeholders [scripts.SCRIPT; scripts.AGENT]).
    + cbn. auto.
    + apply Permutation_refl.
Defined.

End Idempotence.

(** ** The script generator *)

Section GeneratorProperties.
Import scripts.

(** C4. The generator looks a script up under the short script-type
    key, not under the directory of the bundle: for every script name
    the posix type asks for the path under sh and the PowerShell type
    for the path under ps. With the bundle laid out under bash and
    powershell, as the repository documents it, the four known scripts
    are therefore not found. *)
Theorem script_lookup_uses_the_short_key (ea : templates.EmbeddedAssets)
    (a : config.AIAssistant) (scriptName : string) :
  getScriptPath (NewGenerator ea a config.ScriptTypeBash) scriptName
    = "sh/" +:+ scriptName +:+ ".sh"
  /\ getScriptPath (NewGenerator ea a config.ScriptTypePowerShell) scriptName
    = "ps/" +:+ scriptName +:+ ".ps1"
  /\ Forall (fun n =>
        templates.GetScript samples.bundle ("bash/" +:+ n +:+ ".sh") <> None
        /\ forall order,
             GenerateScript (NewGenerator samples.bundle a config.ScriptTypeBash)
               order n
             = inl (errors.NewAssetNotFound ("script template " +:+ n)))
      scriptNames.
Proof.
  split; [reflexivity | split; [reflexivity |]].
  unfold scriptNames.
  repeat (apply Forall_cons; split;
          [split; [vm_compute; discriminate | intros order; reflexivity] |]).
  apply Forall_nil. exact I.
Qed.

End GeneratorProperties.

(** ** The step tracker *)

Section TrackerProperties.
Import configtypes.

Lemma stepOf_find (k : string) (st : StepTracker) :
  stepOf k st = find (hasKey k) (Steps st).
Proof. reflexivity. Qed.

Lemma perform_update (st : StepTracker) (c : Call) :
  perform st c
  = update st (callKey c) (statusOf (operation c)) (callDetail c) (callTime c).
Proof. unfold perform. destruct (operation c); reflexivity. Qed.

Lemma updateFirst_found (key : string) (status : Status) (detail : string)
    (now : Time) :
  forall steps s,
    find (hasKey key) steps = Some s ->
    exists steps',
      updateFirst key status detail now steps = Some steps'
      /\ find (hasKey key) steps' = Some (touch status detail now s).
Proof.
  induction steps as [|x steps IH]; intros s H; [discriminate H |].
  cbn [find updateFirst] in *. unfold hasKey in H at 1.
  destruct (String.eqb (Key x) key) eqn:Hx.
  - injection H as <-. eexists; split; [reflexivity |].
    cbn [find]. unfold hasKey at 1. cbn [Key touch]. rewrite Hx. reflexivity.
  - destruct (IH s H) as (steps' & -> & Hfind).
    eexists; split; [reflexivity |].
    cbn [find]. unfold hasKey at 1. rewrite Hx. exact Hfind.
Qed.

Lemma updateFirst_missing (key : string) (status : Status) (detail : string)
    (now : Time) :
  forall steps,
    find (hasKey key) steps = None ->
    updateFirst key status detail now steps = None.
Proof.
  induction steps as [|x steps IH]; intros H; [reflexivity |].
  cbn [find updateFirst] in *. unfold hasKey in H at 1.
  destruct (String.eqb (Key x) key); [discriminate H |].
  rewrite (IH H). reflexivity.
Qed.

Lemma updateFirst_other (key k : string) (status : Status) (detail : string)
    (now : Time) :
  key <> k ->
  forall steps steps',
    updateFirst key status detail now steps = Some steps' ->
    find (hasKey k) steps' = find (hasKey k) steps.
Proof.
  intros Hne. induction steps as [|x steps IH]; intros steps' H; [discriminate H |].
  cbn [updateFirst] in H.
  destruct (String.eqb (Key x) key) eqn:Hx.
  - injection H as <-. cbn [find]. unfold hasKey at 1 3. cbn [Key touch].
    apply String.eqb_eq in Hx.
    destruct (String.eqb (Key x) k) eqn:Hk; [| reflexivity].
    apply String.eqb_eq in Hk. congruence.
  - destruct (updateFirst key status detail now steps) as [rest|] eqn:Hrest;
      [| discriminate H].
    injection H as <-. cbn [find]. rewrite (IH rest eq_refl). reflexivity.
Qed.

Lemma find_app_last (k : string) (x : Step) :
  forall steps,
    find (hasKey k) (steps ++ [x])
    = match find (hasKey k) steps with
      | Some s => Some s
      | None => if hasKey k x then Some x else None
      end.
Proof.
  induction steps as [|y steps IH]; [reflexivity |].
  cbn [app find]. destruct (hasKey k y); [reflexivity | exact IH].
Qed.

(** A call on the key of a step changes that step as [touch] says. *)
Lemma stepOf_update_same (st : StepTracker) (k : string) (s : Step)
    (status : Status) (detail : string) (now : Time) :
  stepOf k st = Some s ->
  stepOf k (update st k status detail now) = Some (touch status detail now s).
Proof.
  rewrite !stepOf_find. unfold update. intros H.
  destruct (updateFirst_found k status detail now _ _ H) as (steps' & -> & Hfind).
  exact Hfind.
Qed.

(** A call on another key leaves the step alone. *)
Lemma stepOf_update_other (st : StepTracker) (key k : string)
    (status : Status) (detail : string) (now : Time) :
  key <> k ->
  stepOf k (update st key status detail now) = stepOf k st.
Proof.
  rewrite !stepOf_find. unfold update. intros Hne.
  destruct (updateFirst key status detail now (Steps st)) as [steps'|] eqn:Hup.
  - cbn [Steps]. exact (updateFirst_other key k status detail now Hne _ _ Hup).
  - cbn [Steps]. rewrite find_app_last.
    destruct (find (hasKey k) (Steps st)); [reflexivity |].
    unfold hasKey; cbn [Key].
    destruct (String.eqb key k) eqn:Hk; [| reflexivity].
    apply String.eqb_eq in Hk. contradiction.
Qed.

(** After a call on a key, the step of that key has the status of the
    call, whether the step was there or is added by the call. *)
Lemma stepOf_update_status (st : StepTracker) (key : string)
    (status : Status) (detail : string) (now : Time) :
  exists s,
    stepOf key (update st key status detail now) = Some s
    /\ StepStatus s = status.
Proof.
  destruct (stepOf key st) as [s|] eqn:Hs.
  - exists (touch status detail now s). split; [| reflexivity].
    apply stepOf_update_same, Hs.
  - rewrite stepOf_find in *. unfold update.
    rewrite (updateFirst_missing key status detail now _ Hs). cbn [Steps].
    rewrite find_app_last, Hs. unfold hasKey; cbn [Key].
    rewrite String.eqb_refl. eexists; split; reflexivity.
Qed.

Lemma statusOf_not_pending (o : Operation) : statusOf o <> StatusPending.
Proof. destruct o; discriminate. Qed.

(** C7. Take a step of the tracker and any sequence of Start, Complete,
    Error and Skip calls, on its key or on others, whose clock readings
    are not the zero instant. The step is still there afterwards; if it
    had left Pending it has not returned to it; if its end time was
    unset, it is now the reading of the first call that moved the step
    into Done, Error or Skipped (and still unset when there was none);
    and if its end time was set, it has not been overwritten. *)
Theorem step_leaves_pending_for_good_and_ends_once
    (k : string) (calls : list Call) :
  Forall (fun c => callTime c <> 0%Z) calls ->
  forall (st : StepTracker) (s : Step),
    stepOf k st = Some s ->
    exists s',
      stepOf k (run calls st) = Some s'
      /\ (StepStatus s <> StatusPending -> StepStatus s' <> StatusPending)
      /\ (IsZero (Ended s) = true -> Ended s' = firstTerminal k calls)
      /\ (IsZero (Ended s) = false -> Ended s' = Ended s).
Proof.
  induction 1 as [|c calls Hc Hcalls IH]; intros st s Hs.
  - exists s. cbn [run fold_left firstTerminal].
    repeat split; auto.
    unfold IsZero. intros Hz. apply Z.eqb_eq in Hz. exact Hz.
  - cbn [run fold_left]. fold (run calls (perform st c)).
    rewrite perform_update. cbn [firstTerminal].
    destruct (String.eqb (callKey c) k) eqn:Hk.
    + apply String.eqb_eq in Hk. rewrite Hk.
      pose proof (stepOf_update_same st k s (statusOf (operation c))
                    (callDetail c) (callTime c) Hs) as Hs1.
      destruct (IH _ _ Hs1) as (s' & Hs' & Hstatus & Hset & Hkeep).
      exists s'. split; [exact Hs' |].
      cbn [touch StepStatus Ended] in Hstatus, Hset, Hkeep.
      split; [intros _; apply Hstatus, statusOf_not_pending |].
      cbn [andb]. unfold IsZero in *.
      destruct (isTerminal (statusOf (operation c))); cbn [andb] in *.
      * split; intros Hz; rewrite Hz in Hset, Hkeep.
        -- apply Hkeep. apply Z.eqb_neq. exact Hc.
        -- apply Hkeep. exact Hz.
      * split; intros Hz; [apply Hset, Hz | apply Hkeep, Hz].
    + assert (Hne : callKey c <> k).
      { intros Heq. apply String.eqb_eq in Heq. congruence. }
      pose proof (stepOf_update_other st (callKey c) k (statusOf (operation c))
                    (callDetail c) (callTime c) Hne) as Hs1.
      rewrite Hs in Hs1.
      destruct (IH _ _ Hs1) as (s' & Hs' & Hstatus & Hset & Hkeep).
      exists s'. cbn [andb]. repeat split; assumption.
Qed.

Lemma step_leaves_pending_for_good_and_ends_once_witness :
  let st := Add {| Title := "Initializing Specify Project"; Steps := [] |}
              "git" "Initialize git repository" in
  let calls :=
    [ {| operation := OpStart; callKey := "git"; callDetail := EmptyString;
         callTime := 3%Z |};
      {| operation := OpSkip; callKey := "git"; callDetail := "Skipped";
         callTime := 5%Z |};
      {| operation := OpComplete; callKey := "tools"; callDetail := EmptyString;
         callTime := 6%Z |};
      {| operation := OpError; callKey := "git"; callDetail := "late";
         callTime := 9%Z |} ] in
  exists s',
    stepOf "git" (run calls st) = Some s'
    /\ Ended s' = 5%Z.
Proof.
  intros st calls.
  assert (Htimes : Forall (fun c => callTime c <> 0%Z) calls).
  { repeat constructor; discriminate. }
  destruct (step_leaves_pending_for_good_and_ends_once "git" calls Htimes st
              {| Key := "git"; Label := "Initialize git repository";
                 StepStatus := StatusPending; Detail := EmptyString;
                 Started := 0%Z; Ended := 0%Z |} eq_refl)
    as (s' & Hs' & _ & Hset & _).
  exists s'. split; [exact Hs' |]. apply Hset. reflexivity.
Defined.

End TrackerProperties.

(** ** The init command *)

Section InitProperties.
Import configtypes os cmd errors.

(** C3. The copy of a command template keeps the name of the template,
    whatever the format of the assistant: for the template
    [commands/specify.md] the file written for copilot, a prompt-file
    assistant, is [specify.md] in its prompts directory, not
    [specify.prompt.md], and the file written for gemini, a TOML
    assistant, is [specify.md], not [specify.toml]. *)
Theorem command_copy_keeps_the_template_name :
  commandPath "/work/demo" config.copilot "commands/specify.md"
    = "/work/demo/.github/prompts/specify.md"
  /\ commandPath "/work/demo" config.gemini "commands/specify.md"
    = "/work/demo/.gemini/commands/specify.md"
  /\ snd (copyCommands "/work/demo" config.copilot
            [("commands/specify.md", "Specify $ARGUMENTS");
             ("spec-template.md", "# Spec")] sampleworlds.empty)
     = record (Write "/work/demo/.github/prompts/specify.md" "Specify $ARGUMENTS")
         [] sampleworlds.empty
  /\ forall (projectPath templateName : string) (a b : config.AIAssistant),
       config.Directory a = config.Directory b ->
       commandPath projectPath a templateName = commandPath projectPath b templateName.
Proof.
  repeat split; try (vm_compute; reflexivity).
  intros projectPath templateName a b H. unfold commandPath. rewrite H.
  reflexivity.
Qed.

(** C5. Directory preparation. In in-place mode, once the working
    directory is known and listed: a non-empty directory is refused with
    a validation error when force is off, and accepted when force is on;
    an empty directory is accepted without force. In new-directory
    mode a target path that is already there is refused with a
    validation error, by [prepareProjectDirectory] and by
    [validateConfig], whatever the value of force. A refusal leaves the
    world as it was. *)
Theorem force_rescues_only_the_in_place_mode (cfg : ProjectConfig) (w : World) :
  (Here cfg = true ->
   forall wd entries,
     Getwd w = inr wd -> ReadDir w wd = inr entries ->
     (entries <> [] -> Force cfg = false ->
      prepareProjectDirectory cfg w
      = (inl (New ErrCodeValidationError
                "directory is not empty (use --force to override)"), w))
     /\ (entries <> [] -> Force cfg = true ->
         exists root, Abs w wd = inr root
                      /\ prepareProjectDirectory cfg w = (inr root, w))
     /\ (entries = [] ->
         exists root, Abs w wd = inr root
                      /\ prepareProjectDirectory cfg w = (inr root, w)))
  /\ (Here cfg = false ->
      exists_ w (filepath.Join ["."; Name cfg]) = true ->
      prepareProjectDirectory cfg w
      = (inl (New ErrCodeValidationError
                ("Directory " +:+ filepath.Join ["."; Name cfg]
                 +:+ " already exists")), w))
  /\ (Here cfg = false ->
      forall path,
        Abs w (Name cfg) = inr path -> exists_ w path = true ->
        fst (validateConfig cfg w)
        = Some (NewValidationError ("Directory " +:+ path +:+ " already exists"))).
Proof.
  split; [| split].
  - intros Hhere wd entries Hwd Hdir.
    assert (Habs : exists root, Abs w wd = inr root).
    { unfold Abs. rewrite Hwd. destruct (filepath.IsAbs wd); eauto. }
    destruct Habs as [root Habs].
    unfold prepareProjectDirectory. rewrite Hhere, Hwd, Hdir.
    unfold absolute. rewrite Habs.
    split; [| split].
    + intros Hne Hforce. rewrite Hforce.
      destruct entries; [contradiction | reflexivity].
    + intros _ Hforce. rewrite Hforce, andb_false_r. eauto.
    + intros ->. cbn. eauto.
  - intros Hhere Hthere. unfold prepareProjectDirectory.
    rewrite Hhere, Hthere. reflexivity.
  - intros Hhere path Habs Hthere. unfold validateConfig.
    rewrite Hhere, Habs. cbn [Here withPath Path negb andb].
    rewrite Hhere, Hthere. reflexivity.
Qed.

Lemma force_rescues_only_the_in_place_mode_witness :
  (exists err,
      prepareProjectDirectory (sampleworlds.request EmptyString true false false)
        sampleworlds.busy = (inl err, sampleworlds.busy)
      /\ codeOf err = Some ErrCodeValidationError)
  /\ prepareProjectDirectory (sampleworlds.request EmptyString true true false)
       sampleworlds.busy = (inr "/work", sampleworlds.busy)
  /\ prepareProjectDirectory (sampleworlds.request EmptyString true false false)
       sampleworlds.empty = (inr "/work", sampleworlds.empty)
  /\ (exists err,
        prepareProjectDirectory (sampleworlds.request "existing-dir" false true false)
          sampleworlds.busy = (inl err, sampleworlds.busy)
        /\ codeOf err = Some ErrCodeValidationError).
Proof.
  split; [| split; [| split]].
  - eexists. split.
    + apply (proj1 (force_rescues_only_the_in_place_mode
                      (sampleworlds.request EmptyString true false false)
                      sampleworlds.busy) eq_refl "/work"
               ["README.md"; "existing-dir"] eq_refl eq_refl).
      * discriminate.
      * reflexivity.
    + reflexivity.
  - destruct (proj1 (force_rescues_only_the_in_place_mode
                       (sampleworlds.request EmptyString true true false)
                       sampleworlds.busy) eq_refl "/work"
                ["README.md"; "existing-dir"] eq_refl eq_refl)
      as (_ & Hforce & _).
    destruct Hforce as (root & Habs & Hrun); [discriminate | reflexivity |].
    vm_compute in Habs. injection Habs as <-. exact Hrun.
  - destruct (proj1 (force_rescues_only_the_in_place_mode
                       (sampleworlds.request EmptyString true false false)
                       sampleworlds.empty) eq_refl "/work" [] eq_refl eq_refl)
      as (_ & _ & Hempty).
    destruct Hempty as (root & Habs & Hrun); [reflexivity |].
    vm_compute in Habs. injection Habs as <-. exact Hrun.
  - eexists. split.
    + apply (proj1 (proj2 (force_rescues_only_the_in_place_mode
                             (sampleworlds.request "existing-dir" false true false)
                             sampleworlds.busy)) eq_refl).
      vm_compute. reflexivity.
    + reflexivity.
Defined.

(** C8. When the project name and the here flag are both given, or
    neither is, the argument validator returns an error and the command
    stops there: [runInit] is not entered, whatever it does, and the
    world is the one the command started in. In the other cases the
    validator accepts and the command body runs. *)
Theorem name_and_here_exclude_each_other
    (runInit : ProjectConfig -> World -> option error * World)
    (cfg : ProjectConfig) (args : list string) (now : Time) (w : World) :
  ((Here cfg = true /\ args <> []) \/ (Here cfg = false /\ args = []) ->
   exists msg,
     Args cfg args = Some (Plain msg)
     /\ execute runInit cfg args now w = (Some (Plain msg), w))
  /\ ((Here cfg = true /\ args = []) \/ (Here cfg = false /\ args <> []) ->
      Args cfg args = None
      /\ execute runInit cfg args now w = RunE runInit cfg args now w).
Proof.
  unfold execute, Args.
  split; intros [[Hhere Hargs] | [Hhere Hargs]]; rewrite Hhere.
  - destruct args; [contradiction |]. eexists; split; reflexivity.
  - subst args. eexists; split; reflexivity.
  - subst args. split; reflexivity.
  - destruct args; [contradiction |]. split; reflexivity.
Qed.

Lemma name_and_here_exclude_each_other_witness :
  let wreck (_ : ProjectConfig) (w : World) :=
    (@None error, record (Mkdir "/work/demo") ["/work/demo"] w) in
  execute wreck (sampleworlds.request EmptyString true false false)
    ["demo"] 7%Z sampleworlds.empty
  = (Some (Plain "cannot specify both project name and --here flag"),
     sampleworlds.empty)
  /\ execute wreck (sampleworlds.request EmptyString false false false)
       [] 7%Z sampleworlds.empty
     = (Some (Plain "must specify either a project name or use --here flag"),
        sampleworlds.empty).
Proof.
  intros wreck. split.
  - destruct (proj1 (name_and_here_exclude_each_other wreck
                       (sampleworlds.request EmptyString true false false)
                       ["demo"] 7%Z sampleworlds.empty))
      as (msg & Hargs & Hrun).
    + left. split; [reflexivity | discriminate].
    + vm_compute in Hargs. injection Hargs as <-. exact Hrun.
  - destruct (proj1 (name_and_here_exclude_each_other wreck
                       (sampleworlds.request EmptyString false false false)
                       [] 7%Z sampleworlds.empty))
      as (msg & Hargs & Hrun).
    + right. split; reflexivity.
    + vm_compute in Hargs. injection Hargs as <-. exact Hrun.
Defined.

(** C9. The git step. When the caller opted out, or when the marker
    [.git] is at the target root, [initializeGit] succeeds and runs no
    command; the tracker then shows the step as Skipped in the first
    case and as Done in the second. In every other case the first thing
    done is [git init]; an error that comes back carries the git error
    code, and the failure of any of the three commands brings one back,
    which the tracker shows as Error. *)
Theorem git_step_skipped_or_already_satisfied
    (tracker : StepTracker) (projectPath : string) (cfg : ProjectConfig)
    (t1 t2 : Time) (w : World) :
  let marker := exists_ w (filepath.Join [projectPath; ".git"]) in
  let statusAfter (r : option error * StepTracker * World) :=
    option_map StepStatus (stepOf "git" (snd (fst r))) in
  let w1 := record (Exec projectPath gitInit) [] w in
  let w2 := record (Exec projectPath gitAdd) [] w1 in
  (NoGit cfg = true ->
   initializeGit projectPath (NoGit cfg) w = (None, w)
   /\ fst (fst (gitStep tracker projectPath cfg t1 t2 w)) = None
   /\ statusAfter (gitStep tracker projectPath cfg t1 t2 w) = Some StatusSkipped)
  /\ (NoGit cfg = false -> marker = true ->
      initializeGit projectPath (NoGit cfg) w = (None, w)
      /\ fst (fst (gitStep tracker projectPath cfg t1 t2 w)) = None
      /\ statusAfter (gitStep tracker projectPath cfg t1 t2 w) = Some StatusDone)
  /\ (NoGit cfg = false -> marker = false ->
      (exists more,
          trace (snd (initializeGit projectPath (NoGit cfg) w))
          = trace w ++ Exec projectPath gitInit :: more)
      /\ (forall err,
            fst (initializeGit projectPath (NoGit cfg) w) = Some err ->
            codeOf err = Some ErrCodeGitError
            /\ statusAfter (gitStep tracker projectPath cfg t1 t2 w)
               = Some StatusError)
      /\ (runError w (trace w) projectPath gitInit <> None
          \/ runError w (trace w1) projectPath gitAdd <> None
          \/ runError w (trace w2) projectPath gitCommit <> None ->
          exists err, fst (initializeGit projectPath (NoGit cfg) w) = Some err)).
Proof.
  intros marker statusAfter w1 w2.
  assert (Hstatus : forall st status detail now,
             option_map StepStatus (stepOf "git" (update st "git" status detail now))
             = Some status).
  { intros st status detail now.
    destruct (stepOf_update_status st "git" status detail now) as (s & -> & <-).
    reflexivity. }
  split; [| split].
  - intros Hno. unfold statusAfter, gitStep. rewrite Hno. cbn.
    repeat split. apply Hstatus.
  - intros Hno Hmarker. unfold statusAfter, gitStep, initializeGit.
    rewrite Hno. fold marker. rewrite Hmarker. cbn.
    repeat split. apply Hstatus.
  - intros Hno Hmarker. unfold statusAfter, gitStep, initializeGit.
    rewrite Hno. fold marker. rewrite Hmarker.
    cbv beta iota zeta delta [Run]. fold w1.
    destruct (runError w (trace w) projectPath gitInit) as [[e1|e1]|] eqn:H1.
    1, 2: (split; [exists []; reflexivity |];
           split; [intros err [= <-]; split; [reflexivity | apply Hstatus] |];
           intros _; eauto).
    change (runError (launch projectPath gitInit w1)) with (runError w).
    change (trace (launch projectPath gitInit w1)) with (trace w1).
    destruct (runError w (trace w1) projectPath gitAdd) as [[e2|e2]|] eqn:H2.
    1, 2: (split; [exists [Exec projectPath gitAdd]; cbn; rewrite <- app_assoc;
                   reflexivity |];
           split; [intros err [= <-]; split; [reflexivity | apply Hstatus] |];
           intros _; eauto).
    change (runError (launch projectPath gitAdd
                        (record (Exec projectPath gitAdd) []
                           (launch projectPath gitInit w1))))
      with (runError w).
    change (trace (launch projectPath gitAdd
                     (record (Exec projectPath gitAdd) []
                        (launch projectPath gitInit w1))))
      with (trace w2).
    destruct (runError w (trace w2) projectPath gitCommit) as [[e3|e3]|] eqn:H3.
    1, 2: (split; [exists [Exec projectPath gitAdd; Exec projectPath gitCommit];
                   cbn; rewrite <- !app_assoc; reflexivity |];
           split; [intros err [= <-]; split; [reflexivity | apply Hstatus] |];
           intros _; eauto).
    split; [exists [Exec projectPath gitAdd; Exec projectPath gitCommit];
            cbn; rewrite <- !app_assoc; reflexivity |].
    split; [intros err [=] |].
    intros [H | [H | H]]; contradiction.
Qed.

Lemma git_step_skipped_or_already_satisfied_witness :
  let tracker := Add {| Title := "Initializing Specify Project"; Steps := [] |}
                   "git" "Initialize git repository" in
  (initializeGit "/work" true sampleworlds.commitFails
   = (None, sampleworlds.commitFails)
   /\ option_map StepStatus
        (stepOf "git"
           (snd (fst (gitStep tracker "/work"
                        (sampleworlds.request EmptyString true false true)
                        3%Z 4%Z sampleworlds.commitFails))))
      = Some StatusSkipped)
  /\ exists err,
       fst (initializeGit "/work" false sampleworlds.commitFails) = Some err.
Proof.
  intros tracker. split.
  - destruct (proj1 (git_step_skipped_or_already_satisfied tracker "/work"
                       (sampleworlds.request EmptyString true false true)
                       3%Z 4%Z sampleworlds.commitFails) eq_refl)
      as (Hinit & _ & Hstatus).
    split; [exact Hinit | exact Hstatus].
  - destruct (proj2 (proj2 (git_step_skipped_or_already_satisfied tracker "/work"
                       (sampleworlds.request EmptyString true false false)
                       3%Z 4%Z sampleworlds.commitFails)) eq_refl eq_refl)
      as (_ & _ & Hfail).
    apply Hfail. right. right. vm_compute. discriminate.
Defined.

End InitProperties.

(** * Further properties *)

(** ** Lines *)

Section LineFacts.
Import strings derived.

Lemma oneLine_cons (c : ascii) (s : string) :
  oneLine (String c s) <-> c <> LF /\ oneLine s.
Proof.
  unfold oneLine, newline. cbn [Contains]. unfold HasPrefix at 1. cbn [String.prefix].
  destruct (Ascii.ascii_dec LF c) as [<-|Hne].
  - split; [| intros [H _]; contradiction].
    destruct s; discriminate.
  - cbn [orb]. split; [intros H; split; [congruence | exact H] | intros [_ H]; exact H].
Qed.

Lemma oneLine_empty : oneLine EmptyString.
Proof. reflexivity. Qed.

Lemma SplitByte_not_nil (sep : ascii) (s : string) : SplitByte sep s <> [].
Proof.
  induction s as [|c s IH]; cbn [SplitByte]; [discriminate |].
  destruct (Ascii.eqb c sep); [discriminate |].
  destruct (SplitByte sep s); [contradiction | discriminate].
Qed.

(** Splitting at line feeds and joining again gives the text back. *)
Lemma Join_SplitByte (s : string) : Join (SplitByte LF s) newline = s.
Proof.
  induction s as [|c s IH]; [reflexivity |].
  cbn [SplitByte]. destruct (Ascii.eqb c LF) eqn:Hc.
  - apply Ascii.eqb_eq in Hc. subst c.
    pose proof (SplitByte_not_nil LF s) as Hne.
    destruct (SplitByte LF s) as [|f fs]; [contradiction |].
    change (Join (EmptyString :: f :: fs) newline)
      with (EmptyString +:+ newline +:+ Join (f :: fs) newline).
    rewrite IH. reflexivity.
  - pose proof (SplitByte_not_nil LF s) as Hne.
    destruct (SplitByte LF s) as [|f fs]; [contradiction |].
    destruct fs as [|g fs].
    + cbn [Join] in *. rewrite IH. reflexivity.
    + change (Join (String c f :: g :: fs) newline)
        with (String c f +:+ newline +:+ Join (g :: fs) newline).
      change (Join (f :: g :: fs) newline)
        with (f +:+ newline +:+ Join (g :: fs) newline) in IH.
      rewrite append_cons, IH. reflexivity.
Qed.

Lemma SplitByte_oneLine (l : string) : oneLine l -> SplitByte LF l = [l].
Proof.
  induction l as [|c l IH]; intros H; [reflexivity |].
  apply oneLine_cons in H as [Hc Hl]. cbn [SplitByte].
  destruct (Ascii.eqb c LF) eqn:Heq; [apply Ascii.eqb_eq in Heq; contradiction |].
  rewrite (IH Hl). reflexivity.
Qed.

Lemma SplitByte_line (l rest : string) :
  oneLine l -> SplitByte LF (l +:+ String LF rest) = l :: SplitByte LF rest.
Proof.
  induction l as [|c l IH]; intros H.
  - cbn. reflexivity.
  - apply oneLine_cons in H as [Hc Hl]. rewrite append_cons. cbn [SplitByte].
    destruct (Ascii.eqb c LF) eqn:Heq; [apply Ascii.eqb_eq in Heq; contradiction |].
    rewrite (IH Hl). reflexivity.
Qed.

(** Every element of a split is one line. *)
Lemma SplitByte_lines (s : string) : Forall oneLine (SplitByte LF s).
Proof.
  induction s as [|c s IH]; cbn [SplitByte].
  - constructor; [apply oneLine_empty | constructor].
  - destruct (Ascii.eqb c LF) eqn:Hc.
    + constructor; [apply oneLine_empty | exact IH].
    + pose proof (SplitByte_not_nil LF s) as Hne.
      destruct (SplitByte LF s) as [|f fs]; [contradiction |].
      inversion IH as [|? ? Hf Hfs]; subst.
      constructor; [| exact Hfs].
      apply oneLine_cons. split; [| exact Hf].
      intros ->. discriminate Hc.
Qed.

(** Joining lines and splitting again gives the lines back. *)
Lemma SplitByte_Join (ls : list string) :
  ls <> [] -> Forall oneLine ls -> SplitByte LF (Join ls newline) = ls.
Proof.
  induction ls as [|l ls IH]; intros Hne Hall; [contradiction |].
  inversion Hall as [|? ? Hl Hls]; subst.
  destruct ls as [|m ls].
  - cbn [Join]. apply SplitByte_oneLine, Hl.
  - change (Join (l :: m :: ls) newline)
      with (l +:+ String LF (Join (m :: ls) newline)).
    rewrite (SplitByte_line _ _ Hl), IH; [reflexivity | discriminate | exact Hls].
Qed.

Lemma HasPrefix_line (old : string) :
  oneLine old ->
  forall l rest, HasPrefix (l +:+ String LF rest) old = HasPrefix l old.
Proof.
  induction old as [|d old IH]; intros Hold l rest.
  - rewrite !HasPrefix_empty. reflexivity.
  - apply oneLine_cons in Hold as [Hd Hold].
    destruct l as [|c l].
    + change (EmptyString +:+ String LF rest) with (String LF rest).
      unfold HasPrefix. cbn.
      destruct (Ascii.ascii_dec d LF); [contradiction | reflexivity].
    + rewrite append_cons. unfold HasPrefix. cbn [String.prefix].
      destruct (Ascii.ascii_dec d c); [apply IH, Hold | reflexivity].
Qed.

Lemma HasPrefix_length (s old : string) :
  HasPrefix s old = true -> String.length old <= String.length s.
Proof.
  revert s. induction old as [|d old IH]; intros s H; [cbn; lia |].
  destruct s as [|c s]; [discriminate H |].
  apply HasPrefix_cons in H as [_ H]. cbn. specialize (IH s H). lia.
Qed.

Lemma append_assoc (a b c : string) : (a +:+ b) +:+ c = a +:+ (b +:+ c).
Proof.
  induction a as [|x a IH]; [reflexivity |].
  rewrite !append_cons, IH. reflexivity.
Qed.

Lemma replaceFrom_line (old new : string) (d : ascii) (rest : string) :
  oneLine (String d old) ->
  forall l k,
    oneLine l -> k <= String.length l ->
    replaceFrom (String d old) new k (l +:+ String LF rest)
    = replaceFrom (String d old) new k l
      +:+ String LF (replaceFrom (String d old) new 0 rest).
Proof.
  intros Hold. induction l as [|c l IH]; intros k Hl Hk.
  - cbn in Hk. assert (k = 0) by lia. subst k.
    change (EmptyString +:+ String LF rest) with (String LF rest).
    cbn [replaceFrom].
    replace (HasPrefix (String LF rest) (String d old)) with false; [reflexivity |].
    apply oneLine_cons in Hold as [Hd _].
    unfold HasPrefix. cbn. destruct (Ascii.ascii_dec d LF); [contradiction | reflexivity].
  - apply oneLine_cons in Hl as [Hc Hl]. rewrite append_cons.
    destruct k as [|k].
    + cbn [replaceFrom].
      rewrite <- append_cons, (HasPrefix_line _ Hold (String c l) rest).
      destruct (HasPrefix (String c l) (String d old)) eqn:Hp.
      * apply HasPrefix_length in Hp. cbn [String.length] in Hp.
        rewrite IH; [| exact Hl | cbn [String.length]; lia].
        rewrite append_assoc. reflexivity.
      * rewrite IH; [| exact Hl | lia]. rewrite append_cons. reflexivity.
    + cbn [replaceFrom]. apply IH; [exact Hl | cbn in Hk; lia].
Qed.

(** A token without a line feed is replaced line by line. *)
Lemma ReplaceAll_line (old new l rest : string) :
  oneLine old -> oneLine l ->
  ReplaceAll (l +:+ String LF rest) old new
  = ReplaceAll l old new +:+ String LF (ReplaceAll rest old new).
Proof.
  intros Hold Hl. unfold ReplaceAll. destruct old as [|d old]; [reflexivity |].
  apply replaceFrom_line; [exact Hold | exact Hl | lia].
Qed.

Lemma ReplaceAll_lines (old new : string) (f : string -> string) :
  oneLine old ->
  (forall l, f l = ReplaceAll l old new) ->
  forall ls,
    ls <> [] -> Forall oneLine ls ->
    Join (map f ls) newline = ReplaceAll (Join ls newline) old new.
Proof.
  intros Hold Hf. induction ls as [|l ls IH]; intros Hne Hall; [contradiction |].
  inversion Hall as [|? ? Hl Hls]; subst.
  destruct ls as [|m ls].
  - cbn [map Join]. apply Hf.
  - change (Join (l :: m :: ls) newline)
      with (l +:+ String LF (Join (m :: ls) newline)).
    change (Join (map f (l :: m :: ls)) newline)
      with (f l +:+ String LF (Join (map f (m :: ls)) newline)).
    rewrite (ReplaceAll_line _ _ _ _ Hold Hl), IH, Hf;
      [reflexivity | discriminate | exact Hls].
Qed.

Lemma HasPrefix_app (l x t : string) :
  HasPrefix l t = true -> HasPrefix (l +:+ x) t = true.
Proof.
  revert l. induction t as [|d t IH]; intros l H; [apply HasPrefix_empty |].
  destruct l as [|c l]; [discriminate H |].
  apply HasPrefix_cons in H as [-> H]. rewrite append_cons.
  apply HasPrefix_cons. split; [reflexivity | apply IH, H].
Qed.

Lemma Contains_app_l (l x t : string) :
  Contains l t = true -> Contains (l +:+ x) t = true.
Proof.
  induction l as [|c l IH]; intros H.
  - cbn [Contains] in H. apply (HasPrefix_app EmptyString x) in H.
    change (EmptyString +:+ x) with x in *.
    destruct x; cbn [Contains]; [exact H | rewrite H; reflexivity].
  - rewrite append_cons. cbn [Contains] in *.
    apply orb_true_iff in H as [H | H]; apply orb_true_iff.
    + left. rewrite <- append_cons. apply HasPrefix_app, H.
    + right. apply IH, H.
Qed.

Lemma Contains_app_r (l x t : string) :
  Contains x t = true -> Contains (l +:+ x) t = true.
Proof.
  intros H. induction l as [|c l IH]; [exact H |].
  rewrite append_cons. cbn [Contains]. rewrite IH. apply orb_true_r.
Qed.

(** A token that does not occur in a text occurs in none of its lines. *)
Lemma Contains_lines (t : string) (ls : list string) :
  Contains (Join ls newline) t = false ->
  Forall (fun l => Contains l t = false) ls.
Proof.
  induction ls as [|l ls IH]; intros H; [constructor |].
  destruct ls as [|m ls].
  - cbn [Join] in H. constructor; [exact H | constructor].
  - change (Join (l :: m :: ls) newline)
      with (l +:+ (newline +:+ Join (m :: ls) newline)) in H.
    constructor.
    + destruct (Contains l t) eqn:Hl; [| reflexivity].
      rewrite (Contains_app_l _ _ _ Hl) in H. discriminate H.
    + apply IH. destruct (Contains (Join (m :: ls) newline) t) eqn:Hr; [| reflexivity].
      rewrite (Contains_app_r l _ t (Contains_app_r newline _ t Hr)) in H.
      discriminate H.
Qed.

End LineFacts.

(** ** The format passes of the processor *)

Section FormatPasses.
Import strings templates derived.

Lemma markdown_lines_replace (p : Processor) (content : string) :
  processMarkdownTemplate p content
  = ReplaceAll content "{SCRIPT}" (getScriptPath p).
Proof.
  unfold processMarkdownTemplate.
  rewrite <- (Join_SplitByte content) at 2.
  apply ReplaceAll_lines.
  - reflexivity.
  - intros l. destruct (Contains l "{SCRIPT}") eqn:Hc; [reflexivity |].
    symmetry. apply ReplaceAll_absent, Hc.
  - apply SplitByte_not_nil.
  - apply SplitByte_lines.
Qed.

(** X1. The line loop of the Markdown pass computes the replacement of
    the script placeholder over the whole text: line feeds and every
    other byte are kept, and the Markdown pass and the prompt-file pass
    are the same function. *)
Theorem markdown_pass_replaces_over_the_whole_text (p : Processor) (content : string) :
  processMarkdownTemplate p content
  = ReplaceAll content "{SCRIPT}" (getScriptPath p)
  /\ processMarkdownTemplate p content = processPromptTemplate p content.
Proof.
  split; [apply markdown_lines_replace |].
  rewrite markdown_lines_replace. reflexivity.
Qed.

Lemma Contains_self (t : string) : Contains t t = true.
Proof.
  assert (H : HasPrefix t t = true).
  { induction t as [|c t IH]; [reflexivity |].
    apply HasPrefix_cons. split; [reflexivity | exact IH]. }
  destruct t; cbn [Contains]; [exact H | rewrite H; reflexivity].
Qed.

Lemma Contains_longer_token (a b : string) :
  forall l, Contains l (a +:+ b) = true -> Contains l b = true.
Proof.
  assert (Hp : forall l, HasPrefix l (a +:+ b) = true -> Contains l b = true).
  { intros l H. apply HasPrefix_split in H. rewrite H, append_assoc.
    apply Contains_app_r, Contains_app_l, Contains_self. }
  induction l as [|c l IH]; intros H; cbn [Contains] in H.
  - apply Hp, H.
  - apply orb_true_iff in H as [H | H]; [apply Hp, H |].
    cbn [Contains]. rewrite (IH H). apply orb_true_r.
Qed.

Lemma no_quote_no_opening (l : string) :
  Contains l tripleQuote = false -> Contains l promptOpen = false.
Proof.
  intros H. destruct (Contains l promptOpen) eqn:Ho; [| reflexivity].
  apply Contains_longer_token in Ho. congruence.
Qed.

Lemma tomlLines_outside (p : Processor) (ls : list string) :
  Forall (fun l => Contains l promptOpen = false) ls ->
  tomlLines p false ls = ls.
Proof.
  induction 1 as [|l ls Hl _ IH]; [reflexivity |].
  cbn [tomlLines]. rewrite Hl. cbn [andb]. rewrite IH. reflexivity.
Qed.

Lemma tomlLines_inside (p : Processor) (body rest : list string) :
  Forall (fun l => Contains l tripleQuote = false) body ->
  tomlLines p true (body ++ rest)
  = map (withArguments p) body ++ tomlLines p true rest.
Proof.
  induction 1 as [|l ls Hl _ IH]; [reflexivity |].
  cbn [app tomlLines map]. rewrite (no_quote_no_opening _ Hl), Hl.
  cbn [andb]. rewrite IH. reflexivity.
Qed.

Lemma tomlLines_app_outside (p : Processor) (header rest : list string) :
  Forall (fun l => Contains l promptOpen = false) header ->
  tomlLines p false (header ++ rest) = header ++ tomlLines p false rest.
Proof.
  induction 1 as [|l ls Hl _ IH]; [reflexivity |].
  cbn [app tomlLines]. rewrite Hl. cbn [andb]. rewrite IH. reflexivity.
Qed.

(** X2. The TOML pass rewrites a prompt block and nothing else. For a
    text made of header lines without the opening marker, a line with the
    opening marker, body lines without a triple quote, a closing line with
    a triple quote, and trailer lines without the opening marker, the pass
    substitutes the argument tokens in the opening line and in the body,
    and returns the header, the closing line and the trailer byte for
    byte. *)
Theorem toml_pass_rewrites_the_block_only
    (p : Processor) (header : list string) (opening : string)
    (body : list string) (closing : string) (trailer : list string) :
  Forall oneLine (header ++ opening :: body ++ closing :: trailer) ->
  Forall (fun l => Contains l promptOpen = false) header ->
  Contains opening promptOpen = true ->
  Forall (fun l => Contains l tripleQuote = false) body ->
  Contains closing tripleQuote = true ->
  Contains closing promptOpen = false ->
  Forall (fun l => Contains l promptOpen = false) trailer ->
  processTOMLTemplate p
    (Join (header ++ opening :: body ++ closing :: trailer) newline)
  = Join (header ++ withArguments p opening
            :: map (withArguments p) body ++ closing :: trailer) newline.
Proof.
  intros Hlines Hheader Hopen Hbody Hclose Hclose' Htrailer.
  unfold processTOMLTemplate.
  rewrite SplitByte_Join; [| destruct header; discriminate | exact Hlines].
  f_equal. rewrite (tomlLines_app_outside _ _ _ Hheader). f_equal.
  cbn [tomlLines]. rewrite Hopen. fold (withArguments p opening). f_equal.
  rewrite (tomlLines_inside _ _ _ Hbody). f_equal.
  cbn [tomlLines]. rewrite Hclose', Hclose. cbn [andb]. f_equal.
  apply tomlLines_outside, Htrailer.
Qed.

Lemma toml_pass_rewrites_the_block_only_witness :
  processTOMLTemplate (NewProcessor samples.bundle config.gemini "sh")
    samples.tomlTemplate
  = samples.tomlScoped.
Proof.
  apply (toml_pass_rewrites_the_block_only
           (NewProcessor samples.bundle config.gemini "sh")
           ["# usage: pass $ARGUMENTS on the command line"] promptOpen
           ["Do $ARGUMENTS"] tripleQuote []).
  - repeat constructor.
  - repeat constructor.
  - reflexivity.
  - repeat constructor.
  - reflexivity.
  - reflexivity.
  - constructor.
Defined.

(** X3. A TOML text in which the opening marker of a prompt block does
    not occur is returned byte for byte by the TOML pass. *)
Theorem toml_pass_keeps_a_text_without_block (p : Processor) (content : string) :
  Contains content promptOpen = false ->
  processTOMLTemplate p content = content.
Proof.
  intros H. unfold processTOMLTemplate.
  rewrite tomlLines_outside; [apply Join_SplitByte |].
  apply Contains_lines. rewrite Join_SplitByte. exact H.
Qed.

Lemma toml_pass_keeps_a_text_without_block_witness :
  processTOMLTemplate (NewProcessor samples.bundle config.qwen "ps")
    "description = $ARGUMENTS"
  = "description = $ARGUMENTS".
Proof.
  apply toml_pass_keeps_a_text_without_block. reflexivity.
Defined.

Lemma tomlLines_without_tokens (p : Processor) (ls : list string) :
  Forall (fun l => Contains l "$ARGUMENTS" = false) ls ->
  Forall (fun l => Contains l "{{args}}" = false) ls ->
  forall inPrompt, tomlLines p inPrompt ls = ls.
Proof.
  induction 1 as [|l ls Hl _ IH]; intros Hargs inPrompt; [reflexivity |].
  inversion Hargs as [|? ? Hl' Hls']; subst.
  cbn [tomlLines]. rewrite (ReplaceAll_absent _ _ _ Hl), (ReplaceAll_absent _ _ _ Hl').
  rewrite (IH Hls'). destruct (Contains l promptOpen);
    [reflexivity | destruct (inPrompt && Contains l tripleQuote); [reflexivity |]].
  destruct inPrompt; reflexivity.
Qed.

(** X4. A template in which none of the four placeholder tokens occurs
    comes out of [ProcessTemplate] byte for byte, for every assistant
    profile and file format, every script type and every iteration order
    of the map. *)
Theorem template_without_placeholders_is_unchanged
    (p : Processor) (order : list Placeholder) (templateName template : string) :
  GetTemplate (assets p) templateName = Some template ->
  (forall k, Contains template (token k) = false) ->
  ProcessTemplate p order templateName = inr template.
Proof.
  intros Hget Hfree. unfold ProcessTemplate. rewrite Hget. f_equal.
  unfold processContent, applyReplacements.
  rewrite processor_replaceEach_fixed;
    [| intros k Hk; rewrite (Hfree k) in Hk; discriminate Hk].
  destruct (config.Format (assistant p)).
  - rewrite markdown_lines_replace.
    apply ReplaceAll_absent, (Hfree SCRIPT).
  - unfold processTOMLTemplate.
    rewrite tomlLines_without_tokens; [apply Join_SplitByte | |].
    + apply Contains_lines. rewrite Join_SplitByte. exact (Hfree ARGUMENTS).
    + apply Contains_lines. rewrite Join_SplitByte. exact (Hfree ARGS).
  - apply ReplaceAll_absent, (Hfree SCRIPT).
  - reflexivity.
Qed.

Lemma template_without_placeholders_is_unchanged_witness :
  ProcessTemplate
    (NewProcessor
       {| Templates := {[ "spec-template.md" := "# Feature specification" ]};
          Scripts := ∅ |} config.gemini "ps")
    [SCRIPT; ARGS; AGENT; ARGUMENTS] "spec-template.md"
  = inr "# Feature specification".
Proof.
  apply template_without_placeholders_is_unchanged.
  - reflexivity.
  - intros []; reflexivity.
Defined.

End FormatPasses.

(** ** More on the step tracker *)

Section TrackerBookkeeping.
Import configtypes derived.

Lemma find_none_not_in (key : string) :
  forall steps, find (hasKey key) steps = None -> ~ In key (map Key steps).
Proof.
  induction steps as [|x steps IH]; intros H; [intros [] |].
  cbn [find] in H. unfold hasKey in H at 1.
  destruct (String.eqb (Key x) key) eqn:Hx; [discriminate H |].
  intros [Heq | Hin]; [| exact (IH H Hin)].
  rewrite Heq, String.eqb_refl in Hx. discriminate Hx.
Qed.

Lemma find_some_in (key : string) :
  forall steps s, find (hasKey key) steps = Some s -> In key (map Key steps).
Proof.
  intros steps s H. apply find_some in H as [Hin Hk].
  unfold hasKey in Hk. apply String.eqb_eq in Hk. subst key.
  apply in_map, Hin.
Qed.

Lemma updateFirst_keys (key : string) (status : Status) (detail : string)
    (now : Time) :
  forall steps steps',
    updateFirst key status detail now steps = Some steps' ->
    map Key steps' = map Key steps /\ map Label steps' = map Label steps.
Proof.
  induction steps as [|x steps IH]; intros steps' H; [discriminate H |].
  cbn [updateFirst] in H. destruct (String.eqb (Key x) key).
  - injection H as <-. split; reflexivity.
  - destruct (updateFirst key status detail now steps) as [rest|]; [| discriminate H].
    injection H as <-. destruct (IH rest eq_refl) as [Hk Hl].
    cbn [map]. rewrite Hk, Hl. split; reflexivity.
Qed.

Lemma NoDup_snoc (x : string) :
  forall l, NoDup l -> ~ In x l -> NoDup (l ++ [x]).
Proof.
  induction l as [|y l IH]; intros Hnd Hx.
  - constructor; [rewrite list_elem_of_In; intros [] | constructor].
  - apply NoDup_cons in Hnd as [Hy Hnd]. cbn [app]. apply NoDup_cons. split.
    + rewrite list_elem_of_In in *. rewrite in_app_iff. intros [H | [H | []]].
      * exact (Hy H).
      * apply Hx. left. symmetry. exact H.
    + apply IH; [exact Hnd |]. intros H. apply Hx. right. exact H.
Qed.

Lemma update_steps
    (st : StepTracker) (key : string) (status : Status) (detail : string)
    (now : Time) :
  match stepOf key st with
  | Some _ =>
      keysOf (update st key status detail now) = keysOf st
      /\ map Label (Steps (update st key status detail now)) = map Label (Steps st)
  | None =>
      Steps (update st key status detail now)
      = Steps st ++ [ {| Key := key; Label := key; StepStatus := status;
                         Detail := detail; Started := 0%Z; Ended := 0%Z |} ]
  end.
Proof.
  rewrite stepOf_find. unfold keysOf, update.
  destruct (find (hasKey key) (Steps st)) as [s|] eqn:Hfind.
  - destruct (updateFirst_found key status detail now _ _ Hfind) as (steps' & Hup & _).
    rewrite Hup. cbn [Steps]. exact (updateFirst_keys _ _ _ _ _ _ Hup).
  - rewrite (updateFirst_missing key status detail now _ Hfind). reflexivity.
Qed.

(** X5. A status call never removes or reorders steps: the keys of the
    tracker afterwards are the keys before, followed by the key of the
    call when no step carried it, in which case the step it appends is
    labelled by its key, has the status and the detail of the call and no
    start or end time, also when the status is Running or terminal. The
    labels of the steps that were there are kept. *)
Theorem update_keeps_the_steps_in_place
    (st : StepTracker) (key : string) (status : Status) (detail : string)
    (now : Time) :
  match stepOf key st with
  | Some _ =>
      keysOf (update st key status detail now) = keysOf st
      /\ map Label (Steps (update st key status detail now)) = map Label (Steps st)
  | None =>
      Steps (update st key status detail now)
      = Steps st ++ [ {| Key := key; Label := key; StepStatus := status;
                         Detail := detail; Started := 0%Z; Ended := 0%Z |} ]
  end.
Proof. apply update_steps. Qed.

Lemma Add_present (st : StepTracker) (key label : string) :
  In key (keysOf st) -> Add st key label = st.
Proof.
  unfold Add, keysOf. intros Hin.
  replace (existsb (fun s => String.eqb (Key s) key) (Steps st)) with true;
    [reflexivity |].
  symmetry. apply existsb_exists. apply in_map_iff in Hin as (s & Hs & Hin).
  exists s. split; [exact Hin | rewrite Hs; apply String.eqb_refl].
Qed.

Lemma Add_absent (st : StepTracker) (key label : string) :
  ~ In key (keysOf st) ->
  Steps (Add st key label)
  = Steps st ++ [ {| Key := key; Label := label; StepStatus := StatusPending;
                     Detail := EmptyString; Started := 0%Z; Ended := 0%Z |} ].
Proof.
  unfold Add, keysOf. intros Hout.
  replace (existsb (fun s => String.eqb (Key s) key) (Steps st)) with false;
    [reflexivity |].
  symmetry. apply not_true_is_false. intros H.
  apply existsb_exists in H as (s & Hin & Hs). apply String.eqb_eq in Hs.
  apply Hout. rewrite <- Hs. apply in_map, Hin.
Qed.

(** X6. Adding a step under a key that is already there changes
    nothing: the step keeps its status, detail and times and is not set
    back to Pending. Adding under a new key appends one Pending step with
    the given label and no times. *)
Theorem add_never_resets_a_step (st : StepTracker) (key label : string) :
  (forall s, stepOf key st = Some s -> Add st key label = st)
  /\ (stepOf key st = None ->
      Steps (Add st key label)
      = Steps st ++ [ {| Key := key; Label := label; StepStatus := StatusPending;
                         Detail := EmptyString; Started := 0%Z; Ended := 0%Z |} ]).
Proof.
  split.
  - intros s H. apply Add_present. unfold keysOf.
    rewrite stepOf_find in H. exact (find_some_in _ _ _ H).
  - intros H. apply Add_absent. unfold keysOf.
    rewrite stepOf_find in H. exact (find_none_not_in _ _ H).
Qed.

Lemma useTracker_keeps_keys_unique (st : StepTracker) (u : TrackerUse) :
  NoDup (keysOf st) -> NoDup (keysOf (useTracker st u)).
Proof.
  intros Hnd. destruct u as [key label | c]; cbn [useTracker].
  - destruct (in_dec String.string_dec key (keysOf st)) as [Hin | Hout].
    + rewrite (Add_present _ _ _ Hin). exact Hnd.
    + unfold keysOf. rewrite (Add_absent _ _ _ Hout), map_app.
      apply NoDup_snoc; assumption.
  - rewrite perform_update.
    pose proof (update_steps st (callKey c)
                  (statusOf (operation c)) (callDetail c) (callTime c)) as H.
    destruct (stepOf (callKey c) st) eqn:Hs.
    + destruct H as [-> _]. exact Hnd.
    + unfold keysOf. rewrite H, map_app. apply NoDup_snoc; [exact Hnd |].
      rewrite stepOf_find in Hs. exact (find_none_not_in _ _ Hs).
Qed.

(** X7. The keys of the steps stay pairwise distinct: a tracker whose
    keys are distinct, such as the empty one, still has distinct keys
    after any sequence of Add, Start, Complete, Error and Skip, so a key
    always designates at most one step. *)
Theorem step_keys_stay_distinct (uses : list TrackerUse) :
  forall st : StepTracker,
    NoDup (keysOf st) -> NoDup (keysOf (fold_left useTracker uses st)).
Proof.
  induction uses as [|u uses IH]; intros st Hnd; [exact Hnd |].
  cbn [fold_left]. apply IH, useTracker_keeps_keys_unique, Hnd.
Qed.

Lemma step_keys_stay_distinct_witness :
  NoDup (keysOf
    (fold_left useTracker
       [ UseAdd "validate" "Validate configuration";
         UseCall {| operation := OpStart; callKey := "validate";
                    callDetail := EmptyString; callTime := 2%Z |};
         UseAdd "validate" "again";
         UseCall {| operation := OpSkip; callKey := "git";
                    callDetail := "Skipped"; callTime := 3%Z |};
         UseAdd "git" "Initialize git repository" ]
       {| Title := "Initializing Specify Project"; Steps := [] |})).
Proof.
  apply step_keys_stay_distinct. constructor.
Defined.

(** X8. The start time of a step is written once. For a step of the
    tracker and any sequence of status calls whose clock readings are not
    the zero instant: if the start time was unset it becomes the reading
    of the first Start call on the step (and stays unset when there is
    none), if it was set it is not overwritten, and the key and the label
    of the step never change. *)
Theorem step_starts_once (k : string) (calls : list Call) :
  Forall (fun c => callTime c <> 0%Z) calls ->
  forall (st : StepTracker) (s : Step),
    stepOf k st = Some s ->
    exists s',
      stepOf k (run calls st) = Some s'
      /\ Key s' = Key s /\ Label s' = Label s
      /\ (IsZero (Started s) = true -> Started s' = firstStart k calls)
      /\ (IsZero (Started s) = false -> Started s' = Started s).
Proof.
  induction 1 as [|c calls Hc Hcalls IH]; intros st s Hs.
  - exists s. cbn [run fold_left firstStart]. repeat split; auto.
    unfold IsZero. intros Hz. apply Z.eqb_eq in Hz. exact Hz.
  - cbn [run fold_left]. fold (run calls (perform st c)).
    rewrite perform_update. cbn [firstStart].
    destruct (String.eqb (callKey c) k) eqn:Hk.
    + apply String.eqb_eq in Hk. rewrite Hk.
      pose proof (stepOf_update_same st k s (statusOf (operation c))
                    (callDetail c) (callTime c) Hs) as Hs1.
      destruct (IH _ _ Hs1) as (s' & Hs' & Hkey & Hlabel & Hset & Hkeep).
      exists s'. split; [exact Hs' |].
      cbn [touch Key Label Started] in Hkey, Hlabel, Hset, Hkeep.
      split; [exact Hkey | split; [exact Hlabel |]].
      cbn [andb]. unfold IsZero in *.
      destruct (isRunning (statusOf (operation c))); cbn [andb] in *.
      * split; intros Hz; rewrite Hz in Hset, Hkeep.
        -- apply Hkeep. apply Z.eqb_neq. exact Hc.
        -- apply Hkeep. exact Hz.
      * split; intros Hz; [apply Hset, Hz | apply Hkeep, Hz].
    + assert (Hne : callKey c <> k).
      { intros Heq. apply String.eqb_eq in Heq. congruence. }
      pose proof (stepOf_update_other st (callKey c) k (statusOf (operation c))
                    (callDetail c) (callTime c) Hne) as Hs1.
      rewrite Hs in Hs1.
      destruct (IH _ _ Hs1) as (s' & Hs' & Hrest).
      exists s'. cbn [andb]. split; assumption.
Qed.

Lemma step_starts_once_witness :
  exists s',
    stepOf "process"
      (run [ {| operation := OpStart; callKey := "process";
                callDetail := EmptyString; callTime := 4%Z |};
             {| operation := OpError; callKey := "process";
                callDetail := "failed"; callTime := 6%Z |};
             {| operation := OpStart; callKey := "process";
                callDetail := "retry"; callTime := 8%Z |} ]
         (Add {| Title := "Initializing Specify Project"; Steps := [] |}
            "process" "Process templates")) = Some s'
    /\ Label s' = "Process templates" /\ Started s' = 4%Z.
Proof.
  destruct (step_starts_once "process"
              [ {| operation := OpStart; callKey := "process";
                   callDetail := EmptyString; callTime := 4%Z |};
                {| operation := OpError; callKey := "process";
                   callDetail := "failed"; callTime := 6%Z |};
                {| operation := OpStart; callKey := "process";
                   callDetail := "retry"; callTime := 8%Z |} ])
    with (st := Add {| Title := "Initializing Specify Project"; Steps := [] |}
                  "process" "Process templates")
         (s := {| Key := "process"; Label := "Process templates";
                  StepStatus := StatusPending; Detail := EmptyString;
                  Started := 0%Z; Ended := 0%Z |})
    as (s' & Hs' & _ & Hlabel & Hset & _).
  - repeat constructor; discriminate.
  - reflexivity.
  - exists s'. split; [exact Hs' |]. split; [exact Hlabel |].
    apply Hset. reflexivity.
Defined.

End TrackerBookkeeping.

(** ** Loading the bundle *)

Section Loading.
Import strings errors templates loader derived.

Lemma visit_result (ea ea' : EmbeddedAssets) (e : Entry) :
  visit ea e = inr ea' ->
  Templates ea' = match templateEntry e with
                  | Some (k, v) => <[k := v]> (Templates ea)
                  | None => Templates ea
                  end
  /\ Scripts ea' = match scriptEntry e with
                   | Some (k, v) => <[k := v]> (Scripts ea)
                   | None => Scripts ea
                   end.
Proof.
  destruct e as [path err | path | path content | path err];
    cbn [visit templateEntry scriptEntry]; try discriminate;
    try (intros [= <-]; split; reflexivity).
  destruct (HasPrefix path templatesRoot); cbn [negb andb].
  - destruct (filepath.isEmpty (TrimPrefix path templatesRoot));
      intros [= <-]; split; reflexivity.
  - destruct (HasPrefix path scriptsRoot); cbn [andb];
      [| intros [= <-]; split; reflexivity].
    destruct (filepath.isEmpty (TrimPrefix path scriptsRoot));
      intros [= <-]; split; reflexivity.
Qed.

Lemma visit_readable (ea : EmbeddedAssets) (e : Entry) :
  readable e -> exists ea', visit ea e = inr ea'.
Proof.
  destruct e as [path err | path | path content | path err]; cbn [readable visit];
    try contradiction; intros _; eauto.
  destruct (HasPrefix path templatesRoot);
    [destruct (filepath.isEmpty (TrimPrefix path templatesRoot)); cbn; eauto |].
  destruct (HasPrefix path scriptsRoot);
    [destruct (filepath.isEmpty (TrimPrefix path scriptsRoot)); cbn; eauto | eauto].
Qed.

(** The two buckets are filled in the same way; the facts about the walk
    are proved once for a bucket [bucket] filled by [hit]. *)
Section Bucket.
Variable bucket : EmbeddedAssets -> gmap string string.
Variable hit : Entry -> option (string * string).
Hypothesis Hvisit :
  forall ea ea' e,
    visit ea e = inr ea' ->
    bucket ea' = match hit e with
                 | Some (k, v) => <[k := v]> (bucket ea)
                 | None => bucket ea
                 end.

Lemma walk_sound :
  forall entries ea a,
    walk ea entries = inr a ->
    forall k v,
      bucket a !! k = Some v ->
      (exists e, In e entries /\ hit e = Some (k, v)) \/ bucket ea !! k = Some v.
Proof.
  induction entries as [|e entries IH]; intros ea a Hwalk k v Hk.
  - injection Hwalk as <-. right. exact Hk.
  - cbn [walk] in Hwalk. destruct (visit ea e) as [err | ea'] eqn:He; [discriminate |].
    destruct (IH _ _ Hwalk k v Hk) as [(e' & Hin & Hhit) | Hacc].
    + left. exists e'. split; [right; exact Hin | exact Hhit].
    + rewrite (Hvisit _ _ _ He) in Hacc.
      destruct (hit e) as [[k' v'] |] eqn:Hhit; [| right; exact Hacc].
      destruct (decide (k' = k)) as [-> | Hne].
      * rewrite lookup_insert_eq in Hacc. injection Hacc as ->.
        left. exists e. split; [left; reflexivity | exact Hhit].
      * rewrite lookup_insert_ne in Hacc by exact Hne. right. exact Hacc.
Qed.

Lemma walk_keeps :
  forall entries ea a,
    walk ea entries = inr a ->
    forall k v,
      bucket ea !! k = Some v ->
      (forall e v', In e entries -> hit e <> Some (k, v')) ->
      bucket a !! k = Some v.
Proof.
  induction entries as [|e entries IH]; intros ea a Hwalk k v Hk Hfree.
  - injection Hwalk as <-. exact Hk.
  - cbn [walk] in Hwalk. destruct (visit ea e) as [err | ea'] eqn:He; [discriminate |].
    apply (IH _ _ Hwalk).
    + rewrite (Hvisit _ _ _ He).
      destruct (hit e) as [[k' v'] |] eqn:Hhit; [| exact Hk].
      destruct (decide (k' = k)) as [-> | Hne].
      * exfalso. apply (Hfree e v'); [left; reflexivity | exact Hhit].
      * rewrite lookup_insert_ne by exact Hne. exact Hk.
    + intros e' v' Hin. apply Hfree. right. exact Hin.
Qed.

Lemma walk_complete :
  forall entries ea a,
    walk ea entries = inr a ->
    forall e k v,
      In e entries -> hit e = Some (k, v) ->
      (forall front back e' v',
          entries = front ++ e :: back -> In e' back -> hit e' <> Some (k, v')) ->
      bucket a !! k = Some v.
Proof.
  induction entries as [|x entries IH]; intros ea a Hwalk e k v Hin Hhit Hlast;
    [destruct Hin |].
  cbn [walk] in Hwalk. destruct (visit ea x) as [err | ea'] eqn:Hx; [discriminate |].
  destruct Hin as [-> | Hin].
  - apply (walk_keeps _ _ _ Hwalk).
    + rewrite (Hvisit _ _ _ Hx), Hhit. apply lookup_insert_eq.
    + intros e' v' Hin'. exact (Hlast [] entries e' v' eq_refl Hin').
  - apply (IH _ _ Hwalk e k v Hin Hhit).
    intros front back e' v' -> Hin'.
    exact (Hlast (x :: front) back e' v' eq_refl Hin').
Qed.

End Bucket.

Lemma HasPrefix_append (pre rest : string) : HasPrefix (pre +:+ rest) pre = true.
Proof.
  induction pre as [|c pre IH]; [apply HasPrefix_empty |].
  rewrite append_cons. apply HasPrefix_cons. split; [reflexivity | exact IH].
Qed.

Lemma TrimPrefix_append (pre rest : string) : TrimPrefix (pre +:+ rest) pre = rest.
Proof.
  unfold TrimPrefix. rewrite HasPrefix_append.
  induction pre as [|c pre IH]; [destruct rest; reflexivity |].
  rewrite append_cons. cbn [String.length dropBytes]. exact IH.
Qed.

Lemma TrimPrefix_split (path pre : string) :
  HasPrefix path pre = true -> path = pre +:+ TrimPrefix path pre.
Proof.
  intros H. unfold TrimPrefix. rewrite H. apply HasPrefix_split, H.
Qed.

Lemma isEmpty_false (s : string) : filepath.isEmpty s = false <-> s <> EmptyString.
Proof. destruct s; cbn; split; congruence. Qed.

Lemma templateEntry_iff (e : Entry) (k v : string) :
  templateEntry e = Some (k, v)
  <-> k <> EmptyString /\ e = File (templatesRoot +:+ k) v.
Proof.
  split.
  - destruct e as [| | path content |]; cbn [templateEntry]; try discriminate.
    destruct (HasPrefix path templatesRoot) eqn:Hp; [| discriminate].
    destruct (filepath.isEmpty (TrimPrefix path templatesRoot)) eqn:He;
      [discriminate |].
    cbn [negb andb]. intros [= <- <-]. split; [apply isEmpty_false, He |].
    f_equal. apply TrimPrefix_split, Hp.
  - intros [Hk ->]. cbn [templateEntry].
    rewrite HasPrefix_append, TrimPrefix_append.
    apply isEmpty_false in Hk. rewrite Hk. reflexivity.
Qed.

Lemma scriptEntry_iff (e : Entry) (k v : string) :
  scriptEntry e = Some (k, v)
  <-> k <> EmptyString /\ e = File (scriptsRoot +:+ k) v.
Proof.
  split.
  - destruct e as [| | path content |]; cbn [scriptEntry]; try discriminate.
    destruct (HasPrefix path templatesRoot); [discriminate |].
    destruct (HasPrefix path scriptsRoot) eqn:Hp; [| discriminate].
    destruct (filepath.isEmpty (TrimPrefix path scriptsRoot)) eqn:He;
      [discriminate |].
    cbn [negb andb]. intros [= <- <-]. split; [apply isEmpty_false, He |].
    f_equal. apply TrimPrefix_split, Hp.
  - intros [Hk ->]. cbn [scriptEntry].
    replace (HasPrefix (scriptsRoot +:+ k) templatesRoot) with false
      by reflexivity.
    rewrite HasPrefix_append, TrimPrefix_append.
    apply isEmpty_false in Hk. rewrite Hk. reflexivity.
Qed.

Lemma filePaths_app (a b : list Entry) :
  filePaths (a ++ b) = filePaths a ++ filePaths b.
Proof. unfold filePaths. apply flat_map_app. Qed.

Lemma filePaths_in (path content : string) (entries : list Entry) :
  In (File path content) entries -> In path (filePaths entries).
Proof.
  intros H. unfold filePaths. apply in_flat_map.
  exists (File path content). split; [exact H | left; reflexivity].
Qed.

Lemma no_later_file (entries front back : list Entry) (path v v' : string) :
  NoDup (filePaths entries) ->
  entries = front ++ File path v :: back ->
  ~ In (File path v') back.
Proof.
  intros Hnd -> Hin. rewrite filePaths_app in Hnd.
  apply NoDup_app in Hnd as (_ & _ & Hnd).
  change (filePaths (File path v :: back)) with (path :: filePaths back) in Hnd.
  apply NoDup_cons in Hnd as [Hout _]. apply Hout, list_elem_of_In.
  exact (filePaths_in _ _ _ Hin).
Qed.

Lemma walk_total (entries : list Entry) :
  Forall readable entries -> forall ea, exists a, walk ea entries = inr a.
Proof.
  induction 1 as [|e entries He _ IH]; intros ea; [eexists; reflexivity |].
  cbn [walk]. destruct (visit_readable ea e He) as [ea' ->]. apply IH.
Qed.

Lemma walk_app (front back : list Entry) :
  forall ea,
    walk ea (front ++ back)
    = match walk ea front with
      | inl err => inl err
      | inr a => walk a back
      end.
Proof.
  induction front as [|e front IH]; intros ea; [reflexivity |].
  cbn [app walk]. destruct (visit ea e); [reflexivity | apply IH].
Qed.

(** X9. Loading mirrors the embedded tree. When the walk meets no error
    and visits every file once, the load succeeds, and a template or a
    script is found under a name exactly when the tree holds a file under
    the templates root, respectively the scripts root, followed by that
    name, and then with the bytes of that file; the empty name is never
    bound, and files elsewhere in the tree are in neither map. *)
Theorem loaded_bundle_mirrors_the_embedded_tree (entries : list Entry) :
  Forall readable entries ->
  NoDup (filePaths entries) ->
  exists ea,
    LoadEmbeddedAssets entries = inr ea
    /\ forall name content,
         (GetTemplate ea name = Some content
          <-> name <> EmptyString
              /\ In (File (templatesRoot +:+ name) content) entries)
         /\ (GetScript ea name = Some content
             <-> name <> EmptyString
                 /\ In (File (scriptsRoot +:+ name) content) entries).
Proof.
  intros Hread Hnd. unfold LoadEmbeddedAssets.
  destruct (walk_total entries Hread {| Templates := ∅; Scripts := ∅ |})
    as [ea Hwalk].
  exists ea. split; [exact Hwalk |].
  assert (HT : forall a a' e, visit a e = inr a' ->
             Templates a' = match templateEntry e with
                            | Some (k, v) => <[k := v]> (Templates a)
                            | None => Templates a
                            end)
    by (intros a a' e H; exact (proj1 (visit_result a a' e H))).
  assert (HS : forall a a' e, visit a e = inr a' ->
             Scripts a' = match scriptEntry e with
                          | Some (k, v) => <[k := v]> (Scripts a)
                          | None => Scripts a
                          end)
    by (intros a a' e H; exact (proj2 (visit_result a a' e H))).
  intros name content. unfold GetTemplate, GetScript. split; split.
  - intros Hk.
    destruct (walk_sound Templates templateEntry HT _ _ _ Hwalk _ _ Hk)
      as [(e & Hin & Hhit) | Hempty]; [| cbn in Hempty; discriminate Hempty].
    apply templateEntry_iff in Hhit as [Hname ->]. split; assumption.
  - intros [Hname Hin].
    apply (walk_complete Templates templateEntry HT _ _ _ Hwalk
             (File (templatesRoot +:+ name) content)).
    + exact Hin.
    + apply templateEntry_iff. split; [exact Hname | reflexivity].
    + intros front back e' v' Heq Hin' Hhit.
      apply templateEntry_iff in Hhit as [_ ->].
      exact (no_later_file _ _ _ _ _ _ Hnd Heq Hin').
  - intros Hk.
    destruct (walk_sound Scripts scriptEntry HS _ _ _ Hwalk _ _ Hk)
      as [(e & Hin & Hhit) | Hempty]; [| cbn in Hempty; discriminate Hempty].
    apply scriptEntry_iff in Hhit as [Hname ->]. split; assumption.
  - intros [Hname Hin].
    apply (walk_complete Scripts scriptEntry HS _ _ _ Hwalk
             (File (scriptsRoot +:+ name) content)).
    + exact Hin.
    + apply scriptEntry_iff. split; [exact Hname | reflexivity].
    + intros front back e' v' Heq Hin' Hhit.
      apply scriptEntry_iff in Hhit as [_ ->].
      exact (no_later_file _ _ _ _ _ _ Hnd Heq Hin').
Qed.

Lemma loaded_bundle_mirrors_the_embedded_tree_witness :
  exists ea,
    LoadEmbeddedAssets
      [ Dir "assets"; Dir "assets/scripts"; Dir "assets/scripts/bash";
        File "assets/scripts/bash/setup-plan.sh" "#!/bin/bash";
        Dir "assets/templates"; File "assets/templates/plan-template.md" "# Plan" ]
    = inr ea
    /\ GetTemplate ea "plan-template.md" = Some "# Plan"
    /\ GetScript ea "bash/setup-plan.sh" = Some "#!/bin/bash".
Proof.
  destruct (loaded_bundle_mirrors_the_embedded_tree
              [ Dir "assets"; Dir "assets/scripts"; Dir "assets/scripts/bash";
                File "assets/scripts/bash/setup-plan.sh" "#!/bin/bash";
                Dir "assets/templates";
                File "assets/templates/plan-template.md" "# Plan" ])
    as (ea & Hload & Hfind).
  - repeat constructor.
  - cbn. apply NoDup_cons. split; [rewrite list_elem_of_In; cbn; intuition discriminate |].
    apply NoDup_cons. split; [rewrite list_elem_of_In; intros [] | constructor].
  - exists ea. split; [exact Hload |]. split.
    + apply (proj1 (Hfind "plan-template.md" "# Plan")).
      split; [discriminate | cbn; auto 10].
    + apply (proj2 (Hfind "bash/setup-plan.sh" "#!/bin/bash")).
      split; [discriminate | cbn; auto 10].
Defined.

(** X10. The load fails with the first error of the walk: when the
    entries before an unreadable file, or before an entry the walk reports
    an error for, are all readable, [LoadEmbeddedAssets] returns that
    error, whatever follows. *)
Theorem load_stops_at_the_first_error
    (front : list Entry) (e : Entry) (back : list Entry) (err : error) :
  Forall readable front ->
  entryError e = Some err ->
  LoadEmbeddedAssets (front ++ e :: back) = inl err.
Proof.
  intros Hfront He. unfold LoadEmbeddedAssets. rewrite walk_app.
  destruct (walk_total front Hfront {| Templates := ∅; Scripts := ∅ |}) as [a ->].
  destruct e; cbn [entryError] in He; try discriminate He;
    injection He as ->; reflexivity.
Qed.

Lemma load_stops_at_the_first_error_witness :
  LoadEmbeddedAssets
    ([ Dir "assets"; File "assets/templates/spec-template.md" "# Spec" ]
     ++ Unreadable "assets/templates/plan-template.md" (Plain "input/output error")
     :: [ File "assets/scripts/bash/setup-plan.sh" "#!/bin/bash" ])
  = inl (Plain "input/output error").
Proof.
  apply load_stops_at_the_first_error; [repeat constructor | reflexivity].
Defined.

End Loading.

(** ** Processing all templates, generating all scripts *)

Section Batches.
Import strings errors templates loader derived.

Lemma processEach_result (p : Processor) (orders : string -> list Placeholder) :
  forall names acc,
    (forall n, In n names -> is_Some (Templates (assets p) !! n)) ->
    exists processed,
      processEach p orders names acc = inr processed
      /\ forall n,
           (In n names ->
            processed !! n
            = processContent p (orders n) <$> Templates (assets p) !! n)
           /\ (~ In n names -> processed !! n = acc !! n).
Proof.
  induction names as [|x names IH]; intros acc Hdom.
  - exists acc. split; [reflexivity |]. intros n. split; [intros [] | reflexivity].
  - cbn [processEach]. unfold ProcessTemplate, GetTemplate.
    destruct (Hdom x (or_introl eq_refl)) as [template Hx]. rewrite Hx.
    destruct (IH (<[x := processContent p (orders x) template]> acc))
      as (processed & Hrun & Hlookup).
    { intros n Hn. apply Hdom. right. exact Hn. }
    exists processed. split; [exact Hrun |].
    intros n. destruct (Hlookup n) as [Hin Hout]. split.
    + intros [-> | Hn]; [| exact (Hin Hn)].
      destruct (in_dec String.string_dec n names) as [Hn | Hn]; [exact (Hin Hn) |].
      rewrite (Hout Hn), lookup_insert_eq, Hx. reflexivity.
    + intros Hn. rewrite Hout by (intros H; apply Hn; right; exact H).
      apply lookup_insert_ne. intros ->. apply Hn. left. reflexivity.
Qed.

Lemma ProcessAllTemplates_result
    (p : Processor) (orders : string -> list Placeholder) (names : list string) :
  (forall n, In n names <-> is_Some (Templates (assets p) !! n)) ->
  exists processed,
    ProcessAllTemplates p orders names = inr processed
    /\ forall n,
         processed !! n
         = processContent p (orders n) <$> Templates (assets p) !! n.
Proof.
  intros Hnames. unfold ProcessAllTemplates.
  destruct (processEach_result p orders names ∅) as (processed & Hrun & Hlookup).
  { intros n Hn. apply Hnames, Hn. }
  exists processed. split; [exact Hrun |].
  intros n. destruct (Hlookup n) as [Hin Hout].
  destruct (in_dec String.string_dec n names) as [Hn | Hn]; [exact (Hin Hn) |].
  rewrite (Hout Hn), lookup_empty.
  destruct (Templates (assets p) !! n) eqn:Ht; [| reflexivity].
  exfalso. apply Hn, Hnames. rewrite Ht. eauto.
Qed.

(** X11. [ProcessAllTemplates] cannot fail: the names it processes are
    the keys of the template map, so every lookup succeeds. Its result
    binds exactly those names, each to the processed bytes of its
    template, whatever the order in which the names are listed. *)
Theorem all_templates_are_processed
    (p : Processor) (orders : string -> list Placeholder) (names : list string) :
  (forall n, In n names <-> is_Some (Templates (assets p) !! n)) ->
  exists processed,
    ProcessAllTemplates p orders names = inr processed
    /\ forall n,
         processed !! n
         = processContent p (orders n) <$> Templates (assets p) !! n.
Proof. apply ProcessAllTemplates_result. Qed.

Lemma all_templates_are_processed_witness :
  exists processed,
    ProcessAllTemplates
      (NewProcessor
         {| Templates := {[ "spec-template.md" := "# Spec for __AGENT__" ]};
            Scripts := ∅ |} config.roo "sh")
      (fun _ => placeholders) ["spec-template.md"] = inr processed
    /\ processed !! "spec-template.md" = Some "# Spec for roo"
    /\ processed !! "plan-template.md" = None.
Proof.
  destruct (all_templates_are_processed
              (NewProcessor
                 {| Templates := {[ "spec-template.md" := "# Spec for __AGENT__" ]};
                    Scripts := ∅ |} config.roo "sh")
              (fun _ => placeholders) ["spec-template.md"])
    as (processed & Hrun & Hlookup).
  - intros n. cbn [assets NewProcessor Templates In]. split.
    + intros [<- | []]. rewrite lookup_singleton_eq. eauto.
    + intros [v Hv]. apply lookup_singleton_Some in Hv as [-> _]. left. reflexivity.
  - exists processed. split; [exact Hrun |].
    split; rewrite Hlookup; vm_compute; reflexivity.
Defined.

Lemma generateEach_result (g : scripts.Generator)
    (orders : string -> list scripts.Placeholder) :
  forall names acc,
    match find (missingScript g) names with
    | Some n =>
        generateEach g orders names acc
        = inl (Wrap ErrCodeScriptError ("failed to generate script " +:+ n)
                 (NewAssetNotFound ("script template " +:+ n)))
    | None =>
        exists generated,
          generateEach g orders names acc = inr generated
          /\ forall n,
               (In n names ->
                generated !! n
                = scripts.applyReplacements g (orders n)
                    <$> GetScript (scripts.assets g) (scripts.getScriptPath g n))
               /\ (~ In n names -> generated !! n = acc !! n)
    end.
Proof.
  induction names as [|x names IH]; intros acc.
  - cbn [find]. exists acc. split; [reflexivity |].
    intros n. split; [intros [] | reflexivity].
  - cbn [find generateEach]. unfold scripts.GenerateScript, missingScript at 1.
    destruct (GetScript (scripts.assets g) (scripts.getScriptPath g x))
      as [script|] eqn:Hx; [| reflexivity].
    specialize (IH (<[x := scripts.applyReplacements g (orders x) script]> acc)).
    destruct (find (missingScript g) names) as [m|]; [exact IH |].
    destruct IH as (generated & Hrun & Hlookup).
    exists generated. split; [exact Hrun |].
    intros n. destruct (Hlookup n) as [Hin Hout]. split.
    + intros [-> | Hn]; [| exact (Hin Hn)].
      destruct (in_dec String.string_dec n names) as [Hn | Hn]; [exact (Hin Hn) |].
      rewrite (Hout Hn), lookup_insert_eq, Hx. reflexivity.
    + intros Hn. rewrite Hout by (intros H; apply Hn; right; exact H).
      apply lookup_insert_ne. intros ->. apply Hn. left. reflexivity.
Qed.

Lemma GenerateAllScripts_result
    (g : scripts.Generator) (orders : string -> list scripts.Placeholder) :
  match find (missingScript g) scripts.scriptNames with
  | Some n =>
      GenerateAllScripts g orders
      = inl (Wrap ErrCodeScriptError ("failed to generate script " +:+ n)
               (NewAssetNotFound ("script template " +:+ n)))
  | None =>
      exists generated,
        GenerateAllScripts g orders = inr generated
        /\ forall n,
             (In n scripts.scriptNames ->
              generated !! n
              = scripts.applyReplacements g (orders n)
                  <$> GetScript (scripts.assets g) (scripts.getScriptPath g n))
             /\ (~ In n scripts.scriptNames -> generated !! n = None)
  end.
Proof.
  unfold GenerateAllScripts.
  pose proof (generateEach_result g orders scripts.scriptNames ∅) as H.
  destruct (find (missingScript g) scripts.scriptNames); [exact H |].
  destruct H as (generated & Hrun & Hlookup).
  exists generated. split; [exact Hrun |].
  intros n. destruct (Hlookup n) as [Hin Hout]. split; [exact Hin |].
  intros Hn. rewrite (Hout Hn). apply lookup_empty.
Qed.

(** X12. [GenerateAllScripts] is all or nothing. If one of the four
    script names is not in the bundle under the path the generator asks
    for, the call fails with the script error that wraps the
    asset-not-found error of the first such name, and returns no script.
    Otherwise it returns a map whose keys are the four script names (not
    the paths), each bound to its substituted text. *)
Theorem scripts_are_generated_all_or_none
    (g : scripts.Generator) (orders : string -> list scripts.Placeholder) :
  match find (missingScript g) scripts.scriptNames with
  | Some n =>
      GenerateAllScripts g orders
      = inl (Wrap ErrCodeScriptError ("failed to generate script " +:+ n)
               (NewAssetNotFound ("script template " +:+ n)))
  | None =>
      exists generated,
        GenerateAllScripts g orders = inr generated
        /\ forall n,
             (In n scripts.scriptNames ->
              generated !! n
              = scripts.applyReplacements g (orders n)
                  <$> GetScript (scripts.assets g) (scripts.getScriptPath g n))
             /\ (~ In n scripts.scriptNames -> generated !! n = None)
  end.
Proof. apply GenerateAllScripts_result. Qed.

End Batches.

(** ** Script types *)

Section ScriptTypeProperties.
Import strings errors.

Lemma ScriptTypes_lookup (st : string) :
  config.ScriptTypes !! st
  = if String.eqb st "sh"
    then Some {| config.stKey := "sh"; config.stName := "POSIX Shell (bash/zsh)";
                 config.Extension := ".sh"; config.Platform := "unix" |}
    else if String.eqb st "ps"
    then Some {| config.stKey := "ps"; config.stName := "PowerShell";
                 config.Extension := ".ps1"; config.Platform := "windows" |}
    else None.
Proof.
  unfold config.ScriptTypes. cbn [list_to_map foldr uncurry fst snd].
  destruct (String.eqb st "sh") eqn:Hsh.
  - apply String.eqb_eq in Hsh. subst st. apply lookup_insert_eq.
  - apply String.eqb_neq in Hsh. rewrite lookup_insert_ne by congruence.
    destruct (String.eqb st "ps") eqn:Hps.
    + apply String.eqb_eq in Hps. subst st. apply lookup_insert_eq.
    + apply String.eqb_neq in Hps. rewrite lookup_insert_ne by congruence.
      apply lookup_empty.
Qed.

(** X13. The places that interpret a script type agree on the two
    registered types and differ on every other string. A type is accepted
    by [ValidateScriptType] exactly when it is a key of [ScriptTypes]; for
    such a type [GetScriptExtension], the extension of the registry, the
    extension of the path the generator looks up and the setup script the
    processor names all agree. For any other string [GetScriptExtension]
    gives the empty extension, while the generator and the processor fall
    back to the posix extension without an error. *)
Theorem script_type_helpers_agree (st scriptName : string)
    (ea : templates.EmbeddedAssets) (a : config.AIAssistant) :
  (executor.ValidateScriptType st = None <-> is_Some (config.ScriptTypes !! st))
  /\ (forall t,
        config.ScriptTypes !! st = Some t ->
        executor.GetScriptExtension st = config.Extension t
        /\ config.stKey t = st
        /\ scripts.getScriptPath (scripts.NewGenerator ea a st) scriptName
           = st +:+ "/" +:+ scriptName +:+ config.Extension t
        /\ templates.getScriptName (templates.NewProcessor ea a st)
           = "setup" +:+ config.Extension t)
  /\ (config.ScriptTypes !! st = None ->
      executor.GetScriptExtension st = EmptyString
      /\ scripts.getScriptPath (scripts.NewGenerator ea a st) scriptName
         = st +:+ "/" +:+ scriptName +:+ ".sh"
      /\ templates.getScriptName (templates.NewProcessor ea a st) = "setup.sh").
Proof.
  rewrite ScriptTypes_lookup.
  unfold executor.ValidateScriptType, executor.GetScriptExtension,
    scripts.getScriptPath, templates.getScriptName,
    config.ScriptTypeBash, config.ScriptTypePowerShell.
  cbn [scripts.scriptType scripts.NewGenerator templates.scriptType
       templates.NewProcessor].
  destruct (String.eqb st "sh") eqn:Hsh; [| destruct (String.eqb st "ps") eqn:Hps];
    cbn [orb].
  - apply String.eqb_eq in Hsh. subst st.
    split; [split; eauto |]. split; [| discriminate].
    intros t [= <-]. repeat split.
  - apply String.eqb_eq in Hps. subst st.
    split; [split; eauto |]. split; [| discriminate].
    intros t [= <-]. repeat split.
  - split; [split; [discriminate | intros [? [=]]] |].
    split; [discriminate |]. intros _. repeat split.
Qed.

End ScriptTypeProperties.

(** ** Release assets *)

Section ReleaseAssets.
Import strings errors github.

(** X14. [FindTemplateAsset] returns the first asset of the release
    whose name contains the template prefix of the assistant, the
    assistant key and a dash, and ends in the zip extension: the assets
    before it do not qualify. It fails with the asset-not-found error
    exactly when no asset of the release qualifies. *)
Theorem first_matching_asset_is_found (release : Release) (aiAssistant : string) :
  let pattern := "spec-kit-template-" +:+ aiAssistant +:+ "-" in
  let qualifies (asset : ReleaseAsset) :=
    Contains (AssetName asset) pattern && HasSuffix (AssetName asset) ".zip" in
  match FindTemplateAsset release aiAssistant with
  | inr asset =>
      exists before after,
        Assets release = before ++ asset :: after
        /\ qualifies asset = true
        /\ Forall (fun other => qualifies other = false) before
  | inl err =>
      err = NewAssetNotFound ("template asset for " +:+ aiAssistant)
      /\ Forall (fun other => qualifies other = false) (Assets release)
  end.
Proof.
  intros pattern qualifies. unfold FindTemplateAsset. fold pattern.
  induction (Assets release) as [|x assets IH]; cbn [firstMatch].
  - split; [reflexivity | constructor].
  - fold (qualifies x). destruct (qualifies x) eqn:Hx.
    + exists [], assets. repeat split; [exact Hx | constructor].
    + destruct (firstMatch pattern assets) as [asset|].
      * destruct IH as (before & after & -> & Hq & Hbefore).
        exists (x :: before), after. repeat split; [exact Hq |].
        constructor; assumption.
      * destruct IH as [_ Hall]. split; [reflexivity |].
        constructor; assumption.
Qed.

End ReleaseAssets.

(** ** The run *)

Section RunProperties.
Import strings errors configtypes os cmd orchestration derived.

Lemma validateConfig_NoGit (cfg cfg' : ProjectConfig) (w : World)
    (r : option error) :
  validateConfig cfg w = (r, cfg') -> NoGit cfg' = NoGit cfg /\ Here cfg' = Here cfg.
Proof.
  intros H. unfold validateConfig in H.
  destruct (Here cfg) eqn:Hh.
  - destruct (Getwd w) as [e | wd].
    + injection H as _ <-. split; [reflexivity | exact Hh].
    + cbn [Here withName withPath Path] in H. rewrite Hh in H. cbn [negb andb] in H.
      injection H as _ <-. split; [reflexivity | exact Hh].
  - destruct (Abs w (Name cfg)) as [e | path].
    + injection H as _ <-. split; [reflexivity | exact Hh].
    + cbn [Here withPath Path] in H. rewrite Hh in H. cbn [negb andb] in H.
      destruct (exists_ w path); injection H as _ <-;
        (split; [reflexivity | exact Hh]).
Qed.

(** The leaf of the case analysis in which the run stopped at step [i]. *)
Ltac stopped_at i :=
  split; [reflexivity |]; exists (Some i);
  split; [reflexivity |];
  split; [split; intros H; discriminate H |];
  split; [intros j [= <-]; lia |];
  intros j [= <-] Hlt; first [reflexivity | exfalso; lia].

(** X15. The statuses of the tracker after a run say where it stopped.
    The nine steps are always there in their order. A run that returns no
    error leaves the first eight Done and the git step Done, or Skipped
    when git was opted out. A run that returns an error leaves exactly one
    step in Error, the steps before it Done and the steps after it
    Pending; and when that step is one of the first four, nothing was
    created, written or run. *)
Theorem run_stops_at_the_first_failing_step
    (h : Host) (now : nat -> Time) (cfg : ProjectConfig) (w : World) :
  let out := runInit h now cfg w in
  keysOf (tracker out) = map fst stepList
  /\ exists failedAt,
       statusesOf (tracker out) = runShape failedAt (NoGit cfg)
       /\ (failedAt = None <-> failure out = None)
       /\ (forall i, failedAt = Some i -> i < 9)
       /\ (forall i, failedAt = Some i -> i < 4 -> world out = w).
Proof.
  cbv zeta. unfold runInit.
  destruct (validateConfig cfg w) as [[err|] cfg1] eqn:Hvalidate.
  { stopped_at 0. }
  pose proof (proj1 (validateConfig_NoGit _ _ _ _ Hvalidate)) as Hgit.
  destruct (selectAssistant h cfg1) as [err | assistant].
  { stopped_at 1. }
  destruct (selectScriptType h (withAIAssistant cfg1 (config.Key assistant)))
    as [err | scriptType].
  { stopped_at 2. }
  destruct (checkRequiredTools h assistant _) as [err |].
  { stopped_at 3. }
  destruct (prepareProjectDirectory _ w) as [[err | projectPath] w1].
  { stopped_at 4. }
  destruct (processTemplates h projectPath assistant scriptType w1) as [[err|] w2].
  { stopped_at 6. }
  destruct (generateScripts h projectPath assistant scriptType w2) as [[err|] w3].
  { stopped_at 7. }
  unfold gitStep. cbn [NoGit withPath withScriptType withAIAssistant].
  rewrite Hgit.
  destruct (initializeGit projectPath (NoGit cfg) w3) as [[err|] w4].
  { stopped_at 8. }
  destruct (NoGit cfg); (split; [reflexivity |]); exists None;
    (split; [reflexivity |]); (split; [split; reflexivity |]);
    split; intros i [=].
Qed.

Lemma registry_entry (k : string) (a : config.AIAssistant) :
  config.AIAssistants !! k = Some a -> In a config.registry /\ config.Key a = k.
Proof.
  unfold config.AIAssistants. intros H.
  apply elem_of_list_to_map_2, list_elem_of_In, in_map_iff in H
    as (a' & [= <- <-] & Hin).
  split; [exact Hin | reflexivity].
Qed.

(** X16. Flags are checked against the registries, answers of the
    selector are not. An assistant chosen by flag is an entry of the
    registry stored under that very key, and a script type chosen by flag
    is returned as given and is one of the two registered keys. Without a
    flag, an answer of the selector that the assistant registry does not
    have gives the zero profile without an error, and any answer of the
    script-type selector is returned as the script type. *)
Theorem flags_are_checked_selector_answers_are_not (h : Host) (cfg : ProjectConfig) :
  (forall a,
      AIAssistant cfg <> EmptyString -> selectAssistant h cfg = inr a ->
      In a config.registry /\ config.Key a = AIAssistant cfg)
  /\ (forall st,
        ScriptType cfg <> EmptyString -> selectScriptType h cfg = inr st ->
        st = ScriptType cfg /\ (st = "sh" \/ st = "ps"))
  /\ (forall selected,
        AIAssistant cfg = EmptyString ->
        selectorRun h "Select your AI assistant" config.AIChoices "claude"
        = (selected, None) ->
        config.AIAssistants !! selected = None ->
        selectAssistant h cfg = inr config.zeroAssistant)
  /\ (forall selected,
        ScriptType cfg = EmptyString ->
        selectorRun h "Select your script type"
          (config.stName <$> config.ScriptTypes) "sh" = (selected, None) ->
        selectScriptType h cfg = inr selected).
Proof.
  unfold selectAssistant, selectScriptType. repeat split.
  - apply isEmpty_false in H. rewrite H in H0. cbn [negb] in H0.
    destruct (config.AIAssistants !! AIAssistant cfg) eqn:Ha; [| discriminate H0].
    injection H0 as ->. exact (proj1 (registry_entry _ _ Ha)).
  - apply isEmpty_false in H. rewrite H in H0. cbn [negb] in H0.
    destruct (config.AIAssistants !! AIAssistant cfg) eqn:Ha; [| discriminate H0].
    injection H0 as ->. exact (proj2 (registry_entry _ _ Ha)).
  - apply isEmpty_false in H. rewrite H in H0. cbn [negb] in H0.
    destruct (config.ScriptTypes !! ScriptType cfg); [| discriminate H0].
    injection H0 as <-. reflexivity.
  - apply isEmpty_false in H. rewrite H in H0. cbn [negb] in H0.
    rewrite ScriptTypes_lookup in H0.
    destruct (String.eqb (ScriptType cfg) "sh") eqn:Hsh.
    + injection H0 as <-. left. apply String.eqb_eq, Hsh.
    + destruct (String.eqb (ScriptType cfg) "ps") eqn:Hps; [| discriminate H0].
      injection H0 as <-. right. apply String.eqb_eq, Hps.
  - intros selected -> Hrun Hmissing. cbn [filepath.isEmpty negb].
    rewrite Hrun, Hmissing. reflexivity.
  - intros selected -> Hrun. cbn [filepath.isEmpty negb]. rewrite Hrun. reflexivity.
Qed.

Lemma IsAbs_Clean (path : string) :
  filepath.IsAbs path = true -> filepath.IsAbs (filepath.Clean path) = true.
Proof.
  intros H. unfold filepath.Clean. rewrite H.
  unfold filepath.slash. rewrite append_cons. cbn [filepath.isEmpty].
  apply HasPrefix_cons. split; [reflexivity | apply HasPrefix_empty].
Qed.

Lemma IsAbs_Join (wd : string) (rest : list string) :
  filepath.IsAbs wd = true -> filepath.IsAbs (filepath.Join (wd :: rest)) = true.
Proof.
  intros H. cbn [filepath.Join].
  destruct wd as [|c wd]; [discriminate H |]. cbn [filepath.isEmpty].
  apply IsAbs_Clean. destruct rest as [|x rest]; [exact H |].
  change (strings.Join (String c wd :: x :: rest) filepath.slash)
    with (String c wd +:+ (filepath.slash +:+ strings.Join (x :: rest) filepath.slash)).
  unfold filepath.IsAbs in *. apply HasPrefix_app, H.
Qed.

Lemma Abs_absolute (w : World) (wd path root : string) :
  Getwd w = inr wd -> filepath.IsAbs wd = true ->
  Abs w path = inr root -> filepath.IsAbs root = true.
Proof.
  intros Hwd Habs. unfold Abs. rewrite Hwd.
  destruct (filepath.IsAbs path) eqn:Hp; intros [= <-].
  - apply IsAbs_Clean, Hp.
  - change (filepath.IsAbs (filepath.Join [wd; path]) = true).
    apply IsAbs_Join, Habs.
Qed.

(** X17. What directory preparation does to the disk. In in-place mode
    it changes nothing, whether it succeeds or fails. In new-directory
    mode a success means that the relative project path did not exist and
    that exactly one directory, that path, was made. In both modes the
    root it returns is an absolute path when the working directory is
    one. *)
Theorem prepare_makes_one_directory_or_none
    (cfg : ProjectConfig) (w w' : World) (r : error + string) :
  prepareProjectDirectory cfg w = (r, w') ->
  (Here cfg = true -> w' = w)
  /\ (forall root,
        Here cfg = false -> r = inr root ->
        exists_ w (filepath.Join ["."; Name cfg]) = false
        /\ trace w' = trace w ++ [Mkdir (filepath.Join ["."; Name cfg])]
        /\ exists_ w' (filepath.Join ["."; Name cfg]) = true)
  /\ (forall root wd,
        r = inr root -> Getwd w = inr wd -> filepath.IsAbs wd = true ->
        filepath.IsAbs root = true).
Proof.
  unfold prepareProjectDirectory, absolute. intros H.
  destruct (Here cfg).
  - destruct (Getwd w) as [e | wd] eqn:Hwd.
    { injection H as <- <-. repeat split; try discriminate. }
    destruct (ReadDir w wd) as [e | entries].
    { injection H as <- <-. repeat split; try discriminate. }
    destruct (Nat.ltb 0 (List.length entries) && negb (Force cfg)).
    { injection H as <- <-. repeat split; try discriminate. }
    destruct (Abs w wd) as [e | root] eqn:Habs; injection H as <- <-.
    + repeat split; discriminate.
    + split; [reflexivity |]. split; [discriminate |].
      intros root' wd' [= <-] [= <-] Hroot.
      exact (Abs_absolute _ _ _ _ Hwd Hroot Habs).
  - split; [discriminate |].
    destruct (exists_ w (filepath.Join ["."; Name cfg])) eqn:Hthere.
    { injection H as <- <-. split; intros; discriminate. }
    unfold MkdirAll in H.
    destruct (mkdirError w (filepath.Join ["."; Name cfg])).
    { injection H as <- <-. split; intros; discriminate. }
    set (w1 := record (Mkdir (filepath.Join ["."; Name cfg]))
                 [filepath.Join ["."; Name cfg]] w) in *.
    destruct (Abs w1 (filepath.Join ["."; Name cfg])) as [e | root] eqn:Habs;
      injection H as <- <-.
    + split; intros; discriminate.
    + split.
      * intros root' _ _. split; [reflexivity |]. split; [reflexivity |].
        unfold exists_, w1. cbn [created record present].
        rewrite existsb_app. cbn [existsb]. rewrite String.eqb_refl.
        rewrite !orb_true_r. reflexivity.
      * intros root' wd [= <-] Hwd Hroot.
        exact (Abs_absolute w1 _ _ _ Hwd Hroot Habs).
Qed.

Lemma prepare_makes_one_directory_or_none_witness :
  trace (snd (prepareProjectDirectory
                (sampleworlds.request "demo" false false false)
                sampleworlds.busy))
  = [Mkdir "demo"]
  /\ fst (prepareProjectDirectory
            (sampleworlds.request "demo" false false false) sampleworlds.busy)
     = inr "/work/demo".
Proof.
  destruct (prepareProjectDirectory
              (sampleworlds.request "demo" false false false) sampleworlds.busy)
    as [r w'] eqn:Hrun.
  assert (Hr : r = inr "/work/demo").
  { vm_compute in Hrun. injection Hrun as <- _. reflexivity. }
  destruct (prepare_makes_one_directory_or_none _ _ _ _ Hrun) as (_ & Hnew & _).
  destruct (Hnew "/work/demo" eq_refl Hr) as (_ & Htrace & _).
  split; [exact Htrace | exact Hr].
Defined.

(** X18. What validation returns when it accepts. The configuration it
    hands back keeps the mode; its path is absolute when the working
    directory is; in in-place mode the path is the working directory and
    the name its last element, and nothing on disk is looked at; in
    new-directory mode the path is not there yet. *)
Theorem validation_resolves_the_target
    (cfg cfg' : ProjectConfig) (w : World) (wd : string) :
  Getwd w = inr wd -> filepath.IsAbs wd = true ->
  validateConfig cfg w = (None, cfg') ->
  Here cfg' = Here cfg
  /\ filepath.IsAbs (Path cfg') = true
  /\ (Here cfg = true -> Path cfg' = wd /\ Name cfg' = filepath.Base wd)
  /\ (Here cfg = false -> Name cfg' = Name cfg /\ exists_ w (Path cfg') = false).
Proof.
  intros Hwd Habs H.
  split; [exact (proj2 (validateConfig_NoGit _ _ _ _ H)) |].
  unfold validateConfig in H. rewrite Hwd in H.
  destruct (Here cfg) eqn:Hh.
  - cbn [Here withName withPath Path] in H. rewrite Hh in H. cbn [negb andb] in H.
    injection H as <-. cbn [Path Name withName withPath].
    split; [exact Habs |]. split; [split; reflexivity | discriminate].
  - destruct (Abs w (Name cfg)) as [e | path] eqn:Hp; [discriminate H |].
    cbn [Here withPath Path] in H. rewrite Hh in H. cbn [negb andb] in H.
    destruct (exists_ w path) eqn:Hthere; [discriminate H |].
    injection H as <-. cbn [Path Name withPath].
    split; [exact (Abs_absolute _ _ _ _ Hwd Habs Hp) |].
    split; [discriminate |]. intros _. split; [reflexivity | exact Hthere].
Qed.

Lemma validation_resolves_the_target_witness :
  validateConfig (sampleworlds.request EmptyString true false false)
    sampleworlds.busy
  = (None, withName (withPath (sampleworlds.request EmptyString true false false)
                       "/work") "work")
  /\ filepath.IsAbs
       (Path (withName (withPath (sampleworlds.request EmptyString true false false)
                          "/work") "work")) = true.
Proof.
  split; [reflexivity |].
  exact (proj1 (proj2 (validation_resolves_the_target
                         (sampleworlds.request EmptyString true false false)
                         (withName (withPath
                                      (sampleworlds.request EmptyString true false false)
                                      "/work") "work")
                         sampleworlds.busy "/work" eq_refl eq_refl eq_refl))).
Defined.










(** X21. The three git commands are run in the project directory in the
    order init, add, commit, and the first failure ends the sequence.
    When git was not opted out and no marker is at the root: a success
    means that Run was called for exactly the three commands and that
    the three processes ran. An error means that the commands before the
    failing one ran, that Run was called for the failing one and for none
    after it, that the failing command ran too unless the failure is
    that it could not be started, and that the error wraps the cause of
    the failure under the git error code with the message of that
    command. *)
Theorem git_commands_stop_at_the_first_failure (projectPath : string) (w : World) :
  exists_ w (filepath.Join [projectPath; ".git"]) = false ->
  (fst (initializeGit projectPath false w) = None ->
   trace (snd (initializeGit projectPath false w))
   = trace w ++ gitEffects projectPath
   /\ started (snd (initializeGit projectPath false w))
      = started w ++ gitProcesses projectPath)
  /\ (forall err,
        fst (initializeGit projectPath false w) = Some err ->
        exists n argv failed msg,
          nth_error gitCommands n = Some argv
          /\ nth_error gitMessages n = Some msg
          /\ runError w (trace w ++ firstn n (gitEffects projectPath))
               projectPath argv = Some failed
          /\ err = Wrap ErrCodeGitError msg (causeOf failed)
          /\ trace (snd (initializeGit projectPath false w))
             = trace w ++ firstn (S n) (gitEffects projectPath)
          /\ started (snd (initializeGit projectPath false w))
             = started w
               ++ firstn (if hasRun failed then S n else n)
                    (gitProcesses projectPath)).
Proof.
  intros Hmarker. unfold initializeGit. rewrite Hmarker.
  cbv beta iota zeta delta [Run].
  set (w1 := record (Exec projectPath gitInit) [] w).
  set (v1 := launch projectPath gitInit w1).
  set (w2 := record (Exec projectPath gitAdd) [] v1).
  set (v2 := launch projectPath gitAdd w2).
  set (w3 := record (Exec projectPath gitCommit) [] v2).
  set (v3 := launch projectPath gitCommit w3).
  assert (T1 : trace v1 = trace w ++ firstn 1 (gitEffects projectPath))
    by reflexivity.
  assert (T2 : trace v2 = trace w ++ firstn 2 (gitEffects projectPath))
    by (cbn; rewrite <- app_assoc; reflexivity).
  assert (T3 : trace v3 = trace w ++ gitEffects projectPath)
    by (cbn; rewrite <- !app_assoc; reflexivity).
  assert (S1 : started v1 = started w ++ firstn 1 (gitProcesses projectPath))
    by reflexivity.
  assert (S2 : started v2 = started w ++ firstn 2 (gitProcesses projectPath))
    by (cbn; rewrite <- app_assoc; reflexivity).
  assert (S3 : started v3 = started w ++ gitProcesses projectPath)
    by (cbn; rewrite <- !app_assoc; reflexivity).
  destruct (runError w (trace w) projectPath gitInit) as [f1|] eqn:H1.
  { split; [destruct f1; discriminate |]. intros err Herr.
    exists 0, gitInit, f1, "failed to initialize git repository".
    split; [reflexivity |]. split; [reflexivity |].
    split; [cbn [firstn]; rewrite app_nil_r; exact H1 |].
    destruct f1; injection Herr as <-;
      (split; [reflexivity |]); (split; [exact T1 |]); cbn [hasRun snd].
    - cbn [firstn]. rewrite app_nil_r. reflexivity.
    - exact S1. }
  change (runError v1) with (runError w).
  change (trace v1) with (trace w ++ firstn 1 (gitEffects projectPath)).
  fold w2. fold v2.
  destruct (runError w (trace w ++ firstn 1 (gitEffects projectPath))
              projectPath gitAdd) as [f2|] eqn:H2.
  { split; [destruct f2; discriminate |]. intros err Herr.
    exists 1, gitAdd, f2, "failed to add files to git".
    split; [reflexivity |]. split; [reflexivity |]. split; [exact H2 |].
    destruct f2; injection Herr as <-;
      (split; [reflexivity |]); cbn [hasRun snd].
    - split; [cbn; rewrite <- app_assoc; reflexivity | exact S1].
    - split; [exact T2 | exact S2]. }
  change (runError v2) with (runError w). rewrite T2.
  fold w3. fold v3.
  destruct (runError w (trace w ++ firstn 2 (gitEffects projectPath))
              projectPath gitCommit) as [f3|] eqn:H3.
  { split; [destruct f3; discriminate |]. intros err Herr.
    exists 2, gitCommit, f3, "failed to create initial commit".
    split; [reflexivity |]. split; [reflexivity |]. split; [exact H3 |].
    destruct f3; injection Herr as <-;
      (split; [reflexivity |]); cbn [hasRun snd].
    - split; [cbn; rewrite <- !app_assoc; reflexivity | exact S2].
    - split; [exact T3 | exact S3]. }
  split; [intros _; split; [exact T3 | exact S3] | intros err [=]].
Qed.

Lemma git_commands_stop_at_the_first_failure_witness :
  (exists err,
      fst (initializeGit "/work" false sampleworlds.gitMissing) = Some err
      /\ trace (snd (initializeGit "/work" false sampleworlds.gitMissing))
         = [Exec "/work" gitInit]
      /\ started (snd (initializeGit "/work" false sampleworlds.gitMissing)) = [])
  /\ (exists err,
        fst (initializeGit "/work" false sampleworlds.commitFails) = Some err
        /\ started (snd (initializeGit "/work" false sampleworlds.commitFails))
           = gitProcesses "/work").
Proof.
  split.
  - exists (Wrap ErrCodeGitError "failed to initialize git repository"
              (Plain "executable file not found in $PATH")).
    split; [reflexivity |].
    destruct (proj2 (git_commands_stop_at_the_first_failure "/work"
                       sampleworlds.gitMissing eq_refl)
                (Wrap ErrCodeGitError "failed to initialize git repository"
                   (Plain "executable file not found in $PATH")) eq_refl)
      as (n & argv & failed & msg & Hnth & Hmsg & Hfail & Herr & Htrace & Hstarted).
    injection Herr as <- Hcause. unfold gitMessages in Hmsg.
    destruct n as [|[|[|[|n]]]]; cbn [nth_error] in Hmsg; try discriminate Hmsg.
    vm_compute in Hfail. injection Hfail as <-.
    split; [exact Htrace | exact Hstarted].
  - exists (Wrap ErrCodeGitError "failed to create initial commit"
              (Plain "exit status 128")).
    split; [reflexivity |].
    destruct (proj2 (git_commands_stop_at_the_first_failure "/work"
                       sampleworlds.commitFails eq_refl)
                (Wrap ErrCodeGitError "failed to create initial commit"
                   (Plain "exit status 128")) eq_refl)
      as (n & argv & failed & msg & Hnth & Hmsg & Hfail & Herr & Htrace & Hstarted).
    injection Herr as <- Hcause. unfold gitMessages in Hmsg.
    destruct n as [|[|[|[|n]]]]; cbn [nth_error] in Hmsg; try discriminate Hmsg.
    unfold gitCommands in Hnth. cbn [nth_error] in Hnth. injection Hnth as <-.
    vm_compute in Hfail. injection Hfail as <-.
    exact Hstarted.
Defined.

Lemma loaded_script_is_a_file (entries : list loader.Entry)
    (ea : templates.EmbeddedAssets) (name content : string) :
  loader.LoadEmbeddedAssets entries = inr ea ->
  templates.GetScript ea name = Some content ->
  In (loader.File (loader.scriptsRoot +:+ name) content) entries.
Proof.
  intros Hload Hget.
  assert (HS : forall a a' e, loader.visit a e = inr a' ->
             templates.Scripts a' = match scriptEntry e with
                                    | Some (k, v) => <[k := v]> (templates.Scripts a)
                                    | None => templates.Scripts a
                                    end)
    by (intros a a' e H; exact (proj2 (visit_result a a' e H))).
  destruct (walk_sound templates.Scripts scriptEntry HS _ _ _ Hload _ _ Hget)
    as [(e & Hin & Hhit) | Hempty]; [| cbn in Hempty; discriminate Hempty].
  apply scriptEntry_iff in Hhit as [_ ->]. exact Hin.
Qed.

Lemma generateScripts_needs_the_short_key
    (h : Host) (projectPath : string) (a : config.AIAssistant)
    (scriptType : string) (w : World) :
  scriptType = "sh" \/ scriptType = "ps" ->
  (forall path content,
      In (loader.File path content) (embedded h) ->
      HasPrefix path "assets/scripts/sh/" = false
      /\ HasPrefix path "assets/scripts/ps/" = false) ->
  exists err, generateScripts h projectPath a scriptType w = (Some err, w).
Proof.
  intros Htype Hlayout. unfold generateScripts.
  destruct (loader.LoadEmbeddedAssets (embedded h)) as [e | assets] eqn:Hload;
    [eauto |].
  pose proof (GenerateAllScripts_result
                (scripts.NewGenerator assets a scriptType) (scriptOrder h)) as H.
  assert (Hmissing : missingScript (scripts.NewGenerator assets a scriptType)
                       "check-prerequisites" = true).
  { unfold missingScript. cbn [scripts.assets scripts.NewGenerator].
    destruct (templates.GetScript assets _) as [content|] eqn:Hget; [| reflexivity].
    apply (loaded_script_is_a_file _ _ _ _ Hload) in Hget.
    destruct (Hlayout _ _ Hget) as [Hsh Hps].
    destruct Htype as [-> | ->]; [discriminate Hsh | discriminate Hps]. }
  unfold scripts.scriptNames in H. cbn [find] in H. rewrite Hmissing in H.
  rewrite H. eauto.
Qed.

(** X22. With the bundle laid out as the repository documents it, no
    script below a directory named by a short script-type key, a run whose
    script type is given by flag never succeeds: whatever the assistant,
    the mode and the state of the disk, it returns an error, and the git
    step is never reached. *)
Theorem run_fails_when_no_script_is_under_the_short_key
    (h : Host) (now : nat -> Time) (cfg : ProjectConfig) (w : World) :
  ScriptType cfg = "sh" \/ ScriptType cfg = "ps" ->
  (forall path content,
      In (loader.File path content) (embedded h) ->
      HasPrefix path "assets/scripts/sh/" = false
      /\ HasPrefix path "assets/scripts/ps/" = false) ->
  failure (runInit h now cfg w) <> None
  /\ option_map StepStatus (stepOf "git" (tracker (runInit h now cfg w)))
     = Some StatusPending.
Proof.
  intros Htype Hlayout. unfold runInit.
  destruct (validateConfig cfg w) as [[err|] cfg1] eqn:Hvalidate;
    [split; [discriminate | reflexivity] |].
  assert (Hst : ScriptType cfg1 = ScriptType cfg).
  { unfold validateConfig in Hvalidate.
    destruct (Here cfg) eqn:Hh.
    - destruct (Getwd w); [discriminate Hvalidate |].
      cbn [Here withName withPath Path] in Hvalidate. rewrite Hh in Hvalidate.
      cbn [negb andb] in Hvalidate. injection Hvalidate as <-. reflexivity.
    - destruct (Abs w (Name cfg)) as [e | path]; [discriminate Hvalidate |].
      cbn [Here withPath Path] in Hvalidate. rewrite Hh in Hvalidate.
      cbn [negb andb] in Hvalidate.
      destruct (exists_ w path); [discriminate Hvalidate |].
      injection Hvalidate as <-. reflexivity. }
  destruct (selectAssistant h cfg1) as [err | assistant];
    [split; [discriminate | reflexivity] |].
  destruct (selectScriptType h (withAIAssistant cfg1 (config.Key assistant)))
    as [err | scriptType] eqn:Hselect; [split; [discriminate | reflexivity] |].
  assert (Hscript : scriptType = "sh" \/ scriptType = "ps").
  { unfold selectScriptType in Hselect. cbn [ScriptType withAIAssistant] in Hselect.
    rewrite Hst in Hselect.
    destruct Htype as [Heq | Heq]; rewrite Heq in Hselect;
      vm_compute in Hselect; injection Hselect as <-; auto. }
  destruct (checkRequiredTools h assistant _) as [err |];
    [split; [discriminate | reflexivity] |].
  destruct (prepareProjectDirectory _ w) as [[err | projectPath] w1];
    [split; [discriminate | reflexivity] |].
  destruct (processTemplates h projectPath assistant scriptType w1) as [[err|] w2];
    [split; [discriminate | reflexivity] |].
  destruct (generateScripts_needs_the_short_key h projectPath assistant scriptType
              w2 Hscript Hlayout) as [err ->].
  split; [discriminate | reflexivity].
Qed.

Lemma run_fails_when_no_script_is_under_the_short_key_witness :
  exists err,
    failure (runInit samplehosts.documented (fun i => Z.of_nat (S i))
               (sampleworlds.request "demo" false false true) sampleworlds.empty)
    = Some err.
Proof.
  destruct (failure (runInit samplehosts.documented (fun i => Z.of_nat (S i))
                       (sampleworlds.request "demo" false false true)
                       sampleworlds.empty)) as [err|] eqn:Hrun; [eauto |].
  exfalso.
  apply (proj1 (run_fails_when_no_script_is_under_the_short_key
                  samplehosts.documented (fun i => Z.of_nat (S i))
                  (sampleworlds.request "demo" false false true) sampleworlds.empty
                  (or_introl eq_refl)
                  (fun path content Hin =>
                     ltac:(cbn [embedded samplehosts.documented In] in Hin;
                           repeat (destruct Hin as [Heq | Hin];
                                   [try discriminate Heq; injection Heq as <- _;
                                    split; reflexivity |]);
                           destruct Hin)))).
  exact Hrun.
Defined.

Lemma after_refl (P : Effect -> Prop) (w : World) : after P w w.
Proof. exists []. rewrite app_nil_r. split; [reflexivity | constructor]. Qed.

Lemma after_trans (P : Effect -> Prop) (w1 w2 w3 : World) :
  after P w1 w2 -> after P w2 w3 -> after P w1 w3.
Proof.
  intros (e1 & H1 & F1) (e2 & H2 & F2). exists (e1 ++ e2).
  rewrite H2, H1, <- app_assoc. split; [reflexivity |].
  apply Forall_app. split; assumption.
Qed.

Lemma after_weaken (P Q : Effect -> Prop) (w w' : World) :
  (forall e, P e -> Q e) -> after P w w' -> after Q w w'.
Proof.
  intros HPQ (es & Ht & F). exists es. split; [exact Ht |].
  eapply Forall_impl; [exact F | exact HPQ].
Qed.

Lemma after_record (P : Effect -> Prop) (e : Effect) (made : list string) (w : World) :
  P e -> after P w (record e made w).
Proof. intros He. exists [e]. split; [reflexivity | repeat constructor; exact He]. Qed.

Lemma MkdirAll_after (path : string) (w : World) :
  after isFileEffect w (snd (MkdirAll path w)).
Proof.
  unfold MkdirAll. destruct (mkdirError w path); [apply after_refl |].
  apply after_record. exact I.
Qed.

Lemma WriteFile_after (path content : string) (w : World) :
  after isFileEffect w (snd (WriteFile path content w)).
Proof.
  unfold WriteFile. destruct (writeError w path); [apply after_refl |].
  apply after_record. exact I.
Qed.

Lemma makeDirs_after (projectPath : string) :
  forall dirs w, after isFileEffect w (snd (makeDirs projectPath dirs w)).
Proof.
  induction dirs as [|d dirs IH]; intros w; [apply after_refl |].
  cbn [makeDirs].
  pose proof (MkdirAll_after (filepath.Join [projectPath; d]) w) as H.
  destruct (MkdirAll (filepath.Join [projectPath; d]) w) as [[err|] w1];
    [exact H |].
  exact (after_trans _ _ _ _ H (IH w1)).
Qed.

Lemma writeTemplates_after (projectPath : string) :
  forall entries w,
    after isFileEffect w (snd (writeTemplates projectPath entries w)).
Proof.
  induction entries as [|[n c] entries IH]; intros w; [apply after_refl |].
  cbn [writeTemplates].
  pose proof (MkdirAll_after
                (filepath.Dir (filepath.Join [projectPath; ".specify"; "templates"; n]))
                w) as H1.
  destruct (MkdirAll _ w) as [[err|] w1]; [exact H1 |].
  pose proof (WriteFile_after
                (filepath.Join [projectPath; ".specify"; "templates"; n]) c w1) as H2.
  destruct (WriteFile _ c w1) as [[err|] w2];
    [exact (after_trans _ _ _ _ H1 H2) |].
  exact (after_trans _ _ _ _ H1 (after_trans _ _ _ _ H2 (IH w2))).
Qed.

Lemma copyCommands_after (projectPath : string) (a : config.AIAssistant) :
  forall entries w,
    after isFileEffect w (snd (copyCommands projectPath a entries w)).
Proof.
  induction entries as [|[n c] entries IH]; intros w; [apply after_refl |].
  cbn [copyCommands]. destruct (HasPrefix n "commands/"); [| apply IH].
  pose proof (WriteFile_after (commandPath projectPath a n) c w) as H.
  destruct (WriteFile _ c w) as [[err|] w1]; [exact H |].
  exact (after_trans _ _ _ _ H (IH w1)).
Qed.

Lemma writeScripts_after (scriptsDir scriptType : string) :
  forall entries w,
    after isFileEffect w (snd (writeScripts scriptsDir scriptType entries w)).
Proof.
  induction entries as [|[n c] entries IH]; intros w; [apply after_refl |].
  cbn [writeScripts].
  pose proof (MkdirAll_after scriptsDir w) as H1.
  destruct (MkdirAll scriptsDir w) as [[err|] w1]; [exact H1 |].
  pose proof (WriteFile_after
                (filepath.Join
                   [scriptsDir; n +:+ executor.GetScriptExtension scriptType])
                c w1) as H2.
  destruct (WriteFile _ c w1) as [[err|] w2];
    [exact (after_trans _ _ _ _ H1 H2) |].
  exact (after_trans _ _ _ _ H1 (after_trans _ _ _ _ H2 (IH w2))).
Qed.

Lemma processTemplates_after (h : Host) (projectPath : string)
    (a : config.AIAssistant) (scriptType : string) (w : World) :
  after isFileEffect w (snd (processTemplates h projectPath a scriptType w)).
Proof.
  unfold processTemplates.
  destruct (loader.LoadEmbeddedAssets (embedded h)) as [e | assets];
    [apply after_refl |].
  pose proof (makeDirs_after projectPath
                [".specify/templates"; ".specify/templates/commands";
                 config.Directory a] w) as H1.
  destruct (makeDirs projectPath _ w) as [[err|] w1]; [exact H1 |].
  destruct (loader.ProcessAllTemplates _ _ _) as [err | processed]; [exact H1 |].
  pose proof (writeTemplates_after projectPath (rangeTemplates h processed) w1) as H2.
  destruct (writeTemplates projectPath _ w1) as [[err|] w2];
    [exact (after_trans _ _ _ _ H1 H2) |].
  exact (after_trans _ _ _ _ H1
           (after_trans _ _ _ _ H2
              (copyCommands_after projectPath a (rangeCommands h processed) w2))).
Qed.

Lemma generateScripts_after (h : Host) (projectPath : string)
    (a : config.AIAssistant) (scriptType : string) (w : World) :
  after isFileEffect w (snd (generateScripts h projectPath a scriptType w)).
Proof.
  unfold generateScripts.
  destruct (loader.LoadEmbeddedAssets (embedded h)) as [e | assets];
    [apply after_refl |].
  destruct (loader.GenerateAllScripts _ _) as [err | generated];
    [apply after_refl |].
  apply writeScripts_after.
Qed.

Lemma prepare_after (cfg : ProjectConfig) (w : World) :
  after isFileEffect w (snd (prepareProjectDirectory cfg w)).
Proof.
  unfold prepareProjectDirectory, absolute.
  destruct (Here cfg).
  - destruct (Getwd w) as [e | wd]; [apply after_refl |].
    destruct (ReadDir w wd) as [e | entries]; [apply after_refl |].
    destruct (Nat.ltb 0 (List.length entries) && negb (Force cfg));
      [apply after_refl |].
    destruct (Abs w wd); apply after_refl.
  - destruct (exists_ w (filepath.Join ["."; Name cfg])); [apply after_refl |].
    pose proof (MkdirAll_after (filepath.Join ["."; Name cfg]) w) as H.
    destruct (MkdirAll (filepath.Join ["."; Name cfg]) w) as [[err|] w1];
      [exact H |].
    destruct (Abs w1 (filepath.Join ["."; Name cfg])); exact H.
Qed.

Lemma Run_after (dir : string) (argv : list string) (w : World) :
  after (fun e => e = Exec dir argv) w (snd (Run dir argv w)).
Proof.
  unfold Run. exists [Exec dir argv].
  destruct (runError w (trace w) dir argv) as [[cause | cause] |];
    (split; [reflexivity | repeat constructor]).
Qed.

Lemma initializeGit_after (projectPath : string) (noGit : bool) (w : World) :
  after (fun e => noGit = false
                  /\ exists argv, e = Exec projectPath argv /\ In argv gitCommands)
    w (snd (initializeGit projectPath noGit w)).
Proof.
  unfold initializeGit. destruct noGit; [apply after_refl |].
  destruct (exists_ w (filepath.Join [projectPath; ".git"])); [apply after_refl |].
  assert (Hcmd : forall argv v, In argv gitCommands ->
            after (fun e => false = false
                            /\ exists argv, e = Exec projectPath argv
                                            /\ In argv gitCommands)
              v (snd (Run projectPath argv v))).
  { intros argv v Hin. eapply after_weaken; [| apply Run_after].
    intros e ->. split; [reflexivity |]. eauto. }
  pose proof (Hcmd gitInit w (or_introl eq_refl)) as H1.
  destruct (Run projectPath gitInit w) as [[err|] w1]; [exact H1 |].
  pose proof (Hcmd gitAdd w1 (or_intror (or_introl eq_refl))) as H2.
  destruct (Run projectPath gitAdd w1) as [[err|] w2];
    [exact (after_trans _ _ _ _ H1 H2) |].
  pose proof (Hcmd gitCommit w2 (or_intror (or_intror (or_introl eq_refl)))) as H3.
  destruct (Run projectPath gitCommit w2) as [[err|] w3];
    exact (after_trans _ _ _ _ H1 (after_trans _ _ _ _ H2 H3)).
Qed.

(** X23. The only commands a run executes are the three git commands.
    Whatever the host, the configuration and the disk, the effects of a
    run are directory creations, file writes and executions of git init,
    git add and git commit; and when git was opted out no command is
    executed at all. *)
Theorem run_executes_git_and_nothing_else
    (h : Host) (now : nat -> Time) (cfg : ProjectConfig) (w : World) :
  exists effects,
    trace (world (runInit h now cfg w)) = trace w ++ effects
    /\ forall dir argv,
         In (Exec dir argv) effects -> NoGit cfg = false /\ In argv gitCommands.
Proof.
  assert (H : after (fun e => isFileEffect e
                              \/ (NoGit cfg = false
                                  /\ exists dir argv, e = Exec dir argv
                                                      /\ In argv gitCommands))
                w (world (runInit h now cfg w))).
  { unfold runInit.
    destruct (validateConfig cfg w) as [[err|] cfg1] eqn:Hvalidate;
      [apply after_refl |].
    pose proof (proj1 (validateConfig_NoGit _ _ _ _ Hvalidate)) as Hgit.
    destruct (selectAssistant h cfg1) as [err | assistant]; [apply after_refl |].
    destruct (selectScriptType h _) as [err | scriptType]; [apply after_refl |].
    destruct (checkRequiredTools h assistant _) as [err |]; [apply after_refl |].
    match goal with
    | |- context [prepareProjectDirectory ?c w] =>
        pose proof (prepare_after c w) as H1;
        destruct (prepareProjectDirectory c w) as [[err | projectPath] w1]
    end.
    { eapply after_weaken; [| exact H1]. auto. }
    pose proof (processTemplates_after h projectPath assistant scriptType w1) as H2.
    destruct (processTemplates h projectPath assistant scriptType w1) as [[err|] w2].
    { eapply after_weaken; [| exact (after_trans _ _ _ _ H1 H2)]. auto. }
    pose proof (generateScripts_after h projectPath assistant scriptType w2) as H3.
    destruct (generateScripts h projectPath assistant scriptType w2) as [[err|] w3].
    { eapply after_weaken;
        [| exact (after_trans _ _ _ _ H1 (after_trans _ _ _ _ H2 H3))]. auto. }
    unfold gitStep. cbn [NoGit withPath withScriptType withAIAssistant].
    rewrite Hgit.
    pose proof (initializeGit_after projectPath (NoGit cfg) w3) as H4.
    assert (H123 : after (fun e => isFileEffect e
                                   \/ (NoGit cfg = false
                                       /\ exists dir argv, e = Exec dir argv
                                                           /\ In argv gitCommands))
                     w w3).
    { eapply after_weaken;
        [| exact (after_trans _ _ _ _ H1 (after_trans _ _ _ _ H2 H3))]. auto. }
    assert (H4' : after (fun e => isFileEffect e
                                  \/ (NoGit cfg = false
                                      /\ exists dir argv, e = Exec dir argv
                                                          /\ In argv gitCommands))
                    w3 (snd (initializeGit projectPath (NoGit cfg) w3))).
    { eapply after_weaken; [| exact H4].
      intros e (Hno & argv & -> & Hin). right. split; [exact Hno |]. eauto. }
    destruct (initializeGit projectPath (NoGit cfg) w3) as [[err|] w4];
      [exact (after_trans _ _ _ _ H123 H4') |].
    destruct (negb (NoGit cfg)); exact (after_trans _ _ _ _ H123 H4'). }
  destruct H as (effects & Htrace & Hall). exists effects. split; [exact Htrace |].
  intros dir argv Hin. rewrite Forall_forall in Hall.
  destruct (Hall _ (proj2 (list_elem_of_In _ _) Hin))
    as [Hfile | (Hno & dir' & argv' & [= <- <-] & Hargv)];
    [destruct Hfile | split; assumption].
Qed.

End RunProperties.
